(** * News search application: request/response contract

    A shallow embedding of the three JavaScript modules that carry the
    contract of the application,

    - [src/services/newsApi.js]   the direct client ([fetchNews],
                                   [fetchTopHeadlines]),
    - [api/news.js]               the serverless proxy ([handler]),
    - the proxied variant of [newsApi.js] that the deployment guide ships
      (same two functions, selected by [isDev]),

    and of the components that call them,

    - [src/App.jsx]                    the state and its two handlers,
    - [src/components/SearchBar.jsx]   the handlers of the form,
    - [src/components/NewsList.jsx]    the four views of the list,
    - [src/components/NewsItem.jsx]    one article,

    together with the part of the JavaScript platform they call:
    strings of UTF-16 code units, [encodeURIComponent] /
    [decodeURIComponent], [JSON.parse] / [JSON.stringify], property access
    and the conversions [ToBoolean] and [ToString].

    What the platform decides and the language does not fix (the outcome
    of a network call, the clock, the wording of a parser's error message)
    is a field of the [Platform] record. *)

From Stdlib Require Import ZArith List String Ascii Bool Lia.
Import ListNotations.
Open Scope Z_scope.
Set Warnings "-register-all".

(* ================================================================== *)
(** * JavaScript strings *)
(* ================================================================== *)

Module JsString.

(** A JavaScript string is a sequence of UTF-16 code units, each an
    integer in [0, 0xFFFF]. *)
Definition jsstring := list Z.

Definition chr (a : ascii) : Z := Z.of_N (N_of_ascii a).

(** The string a source literal denotes (the literals of the program are
    all ASCII). *)
Definition lit (s : string) : jsstring := map chr (list_ascii_of_string s).

Definition is_code_unit (c : Z) : bool := (0 <=? c) && (c <=? 0xFFFF).

Fixpoint eqb (a b : jsstring) : bool :=
  match a, b with
  | [], [] => true
  | x :: a', y :: b' => (x =? y) && eqb a' b'
  | _, _ => false
  end.

Fixpoint startsWith (s prefix : jsstring) {struct prefix} : bool :=
  match prefix, s with
  | [], _ => true
  | p :: prefix', c :: s' => (c =? p) && startsWith s' prefix'
  | _ :: _, [] => false
  end.

(** [parts.join(sep)] *)
Fixpoint join (sep : jsstring) (parts : list jsstring) : jsstring :=
  match parts with
  | [] => []
  | [x] => x
  | x :: parts' => x ++ sep ++ join sep parts'
  end.

(** [String.prototype.includes] *)
Fixpoint includes (s search : jsstring) : bool :=
  startsWith s search ||
  match s with
  | [] => false
  | _ :: s' => includes s' search
  end.

(** WhiteSpace and LineTerminator code points of ECMAScript, as stripped
    by [String.prototype.trim]. *)
Definition is_white_space (c : Z) : bool :=
  (c =? 0x0009) || (c =? 0x000A) || (c =? 0x000B) || (c =? 0x000C) ||
  (c =? 0x000D) || (c =? 0x0020) || (c =? 0x00A0) || (c =? 0x1680) ||
  ((0x2000 <=? c) && (c <=? 0x200A)) ||
  (c =? 0x2028) || (c =? 0x2029) || (c =? 0x202F) || (c =? 0x205F) ||
  (c =? 0x3000) || (c =? 0xFEFF).

Fixpoint trimStart (s : jsstring) : jsstring :=
  match s with
  | c :: s' => if is_white_space c then trimStart s' else s
  | [] => []
  end.

Definition trimEnd (s : jsstring) : jsstring := rev (trimStart (rev s)).

(** [String.prototype.trim] *)
Definition trim (s : jsstring) : jsstring := trimEnd (trimStart s).

(** The decimal digits of a natural number, most significant first; the
    fuel bounds their number. *)
Fixpoint digits_of (fuel : nat) (z : Z) : jsstring :=
  match fuel with
  | O => []
  | S fuel' =>
      if z <? 10 then [48 + z]
      else digits_of fuel' (z / 10) ++ [48 + z mod 10]
  end.

Definition digits (z : Z) : jsstring := digits_of (S (Z.to_nat (Z.log2 z))) z.

(** [ToString] of an integral Number, as a template literal applies it
    to [response.status]. *)
Definition of_Z (z : Z) : jsstring :=
  if z <? 0 then 45 :: digits (- z) else digits z.

(** Surrogates. *)
Definition is_high_surrogate (c : Z) : bool := (0xD800 <=? c) && (c <=? 0xDBFF).
Definition is_low_surrogate (c : Z) : bool := (0xDC00 <=? c) && (c <=? 0xDFFF).
Definition is_surrogate (c : Z) : bool := (0xD800 <=? c) && (c <=? 0xDFFF).

Definition code_point (hi lo : Z) : Z :=
  (hi - 0xD800) * 0x400 + (lo - 0xDC00) + 0x10000.

(** The UTF-16 encoding of a code point. *)
Definition utf16 (cp : Z) : jsstring :=
  if cp <? 0x10000 then [cp]
  else [0xD800 + (cp - 0x10000) / 0x400; 0xDC00 + (cp - 0x10000) mod 0x400].

(** A string is well formed when its code units are in range and every
    surrogate is half of a pair ([String.prototype.isWellFormed]). *)
Fixpoint isWellFormed (s : jsstring) : bool :=
  match s with
  | [] => true
  | c :: s' =>
      if negb (is_code_unit c) then false
      else if is_high_surrogate c then
        match s' with
        | d :: s'' => is_low_surrogate d && isWellFormed s''
        | [] => false
        end
      else if is_low_surrogate c then false
      else isWellFormed s'
  end.

(** Conversion to a scalar value string (WebIDL [USVString]): every
    unpaired surrogate becomes U+FFFD. *)
Fixpoint toWellFormed (s : jsstring) : jsstring :=
  match s with
  | [] => []
  | c :: s' =>
      if is_high_surrogate c then
        match s' with
        | d :: s'' =>
            if is_low_surrogate d then c :: d :: toWellFormed s''
            else 0xFFFD :: toWellFormed s'
        | [] => [0xFFFD]
        end
      else if is_low_surrogate c then 0xFFFD :: toWellFormed s'
      else c :: toWellFormed s'
  end.

(** The UTF-8 encoding of a code point, as a list of octets. *)
Definition utf8 (cp : Z) : list Z :=
  if cp <? 0x80 then [cp]
  else if cp <? 0x800 then [0xC0 + cp / 0x40; 0x80 + cp mod 0x40]
  else if cp <? 0x10000 then
    [0xE0 + cp / 0x1000; 0x80 + (cp / 0x40) mod 0x40; 0x80 + cp mod 0x40]
  else
    [0xF0 + cp / 0x40000; 0x80 + (cp / 0x1000) mod 0x40;
     0x80 + (cp / 0x40) mod 0x40; 0x80 + cp mod 0x40].

Definition hex_digit (d : Z) : Z := if d <? 10 then 48 + d else 55 + d.
Definition hex_digit_lower (d : Z) : Z := if d <? 10 then 48 + d else 87 + d.

Definition hex_value (c : Z) : option Z :=
  if (48 <=? c) && (c <=? 57) then Some (c - 48)
  else if (65 <=? c) && (c <=? 70) then Some (c - 55)
  else if (97 <=? c) && (c <=? 102) then Some (c - 87)
  else None.

(** The characters of a date in ISO format ([Date.prototype.toISOString]):
    digits, [-], [+], [:], [.], [T] and [Z]. *)
Definition iso_char (c : Z) : bool :=
  ((48 <=? c) && (c <=? 57)) || (c =? 45) || (c =? 43) || (c =? 58) ||
  (c =? 46) || (c =? 84) || (c =? 90).

Definition is_alpha (c : Z) : bool :=
  ((65 <=? c) && (c <=? 90)) || ((97 <=? c) && (c <=? 122)).
Definition is_digit (c : Z) : bool := (48 <=? c) && (c <=? 57).

End JsString.
Export JsString.

(* ================================================================== *)
(** * Completions *)
(* ================================================================== *)

(** A thrown JavaScript error object: its [name] and its [message]. *)
Record JsError := mkJsError { name : jsstring; message : jsstring }.

(** [new Error(msg)], [new TypeError(msg)], ... *)
Definition Error_ (msg : jsstring) : JsError := mkJsError (lit "Error") msg.
Definition TypeError (msg : jsstring) : JsError := mkJsError (lit "TypeError") msg.
Definition SyntaxError (msg : jsstring) : JsError := mkJsError (lit "SyntaxError") msg.
Definition URIError (msg : jsstring) : JsError := mkJsError (lit "URIError") msg.
Definition RangeError (msg : jsstring) : JsError := mkJsError (lit "RangeError") msg.

(** The outcome of evaluating an expression or calling a function: a value,
    or an exception. *)
Inductive Completion (A : Type) : Type :=
| Return (a : A)
| Throw (e : JsError).
Arguments Return {A} a.
Arguments Throw {A} e.

(* ================================================================== *)
(** * URI component encoding *)
(* ================================================================== *)

Module Uri.

(** uriUnreserved: letters, digits and the marks [- _ . ! ~ * ' ( )]. *)
Definition unreserved (c : Z) : bool :=
  is_alpha c || is_digit c ||
  (c =? 45) || (c =? 95) || (c =? 46) || (c =? 33) || (c =? 126) ||
  (c =? 42) || (c =? 39) || (c =? 40) || (c =? 41).

Definition is_octet (b : Z) : Prop := 0 <= b < 256.

(** The code units [encodeURIComponent] writes: unreserved ones, [%] and
    upper-case hexadecimal digits. *)
Definition uri_char (c : Z) : bool :=
  unreserved c || (c =? 37) || is_digit c || ((65 <=? c) && (c <=? 70)).

Definition percent (octet : Z) : jsstring :=
  [37; hex_digit (octet / 16); hex_digit (octet mod 16)].

Definition percent_all (octets : list Z) : jsstring := flat_map percent octets.

Definition malformed : JsError := URIError (lit "URI malformed").

(** [Encode(string, uriUnreserved)] of ECMAScript: an unreserved code
    unit is copied; any other code point is written as the escaped octets
    of its UTF-8 encoding; an unpaired surrogate throws. *)
Fixpoint encode (s : jsstring) : option jsstring :=
  match s with
  | [] => Some []
  | c :: s' =>
      if unreserved c then option_map (cons c) (encode s')
      else if is_high_surrogate c then
        match s' with
        | d :: s'' =>
            if is_low_surrogate d
            then option_map (app (percent_all (utf8 (code_point c d)))) (encode s'')
            else None
        | [] => None
        end
      else if is_low_surrogate c then None
      else option_map (app (percent_all (utf8 c))) (encode s')
  end.

Definition encodeURIComponent (s : jsstring) : Completion jsstring :=
  match encode s with
  | Some r => Return r
  | None => Throw malformed
  end.

(** Decoding, in two passes: the escapes are read first, the octets they
    give are decoded as UTF-8 next.  Every failure of either pass is the
    same URIError, so the passes may be separated. *)
Inductive token := Unit (c : Z) | Octet (b : Z).

Fixpoint unescape (s : jsstring) : option (list token) :=
  match s with
  | [] => Some []
  | c :: s' =>
      if c =? 37 then
        match s' with
        | h :: l :: s'' =>
            match hex_value h, hex_value l with
            | Some x, Some y => option_map (cons (Octet (16 * x + y))) (unescape s'')
            | _, _ => None
            end
        | _ => None
        end
      else option_map (cons (Unit c)) (unescape s')
  end.

Definition continuation (b : Z) : bool := (0x80 <=? b) && (b <=? 0xBF).

Fixpoint utf8_decode (ts : list token) : option jsstring :=
  match ts with
  | [] => Some []
  | Unit c :: r => option_map (cons c) (utf8_decode r)
  | Octet b0 :: r1 =>
      if b0 <? 0x80 then option_map (cons b0) (utf8_decode r1)
      else if (0xC2 <=? b0) && (b0 <=? 0xDF) then
        match r1 with
        | Octet b1 :: r2 =>
            if continuation b1
            then option_map (app (utf16 ((b0 - 0xC0) * 0x40 + (b1 - 0x80))))
                            (utf8_decode r2)
            else None
        | _ => None
        end
      else if (0xE0 <=? b0) && (b0 <=? 0xEF) then
        match r1 with
        | Octet b1 :: Octet b2 :: r3 =>
            let cp := (b0 - 0xE0) * 0x1000 + (b1 - 0x80) * 0x40 + (b2 - 0x80) in
            if continuation b1 && continuation b2 &&
               (0x800 <=? cp) && negb (is_surrogate cp)
            then option_map (app (utf16 cp)) (utf8_decode r3)
            else None
        | _ => None
        end
      else if (0xF0 <=? b0) && (b0 <=? 0xF4) then
        match r1 with
        | Octet b1 :: Octet b2 :: Octet b3 :: r4 =>
            let cp := (b0 - 0xF0) * 0x40000 + (b1 - 0x80) * 0x1000 +
                      (b2 - 0x80) * 0x40 + (b3 - 0x80) in
            if continuation b1 && continuation b2 && continuation b3 &&
               (0x10000 <=? cp) && (cp <=? 0x10FFFF)
            then option_map (app (utf16 cp)) (utf8_decode r4)
            else None
        | _ => None
        end
      else None
  end.

Definition decode (s : jsstring) : option jsstring :=
  match unescape s with
  | Some ts => utf8_decode ts
  | None => None
  end.

Definition decodeURIComponent (s : jsstring) : Completion jsstring :=
  match decode s with
  | Some r => Return r
  | None => Throw malformed
  end.

End Uri.

(* ================================================================== *)
(** * Objects: own properties in property order *)
(* ================================================================== *)

Module JsObject.

Section Properties.
Context {A : Type}.

(** An object with string keys, as the list of its own properties in
    the order [Object.keys] gives them. *)
Definition properties := list (jsstring * A).

Fixpoint lookup (k : jsstring) (props : properties) : option A :=
  match props with
  | [] => None
  | (k', v) :: props' => if JsString.eqb k' k then Some v else lookup k props'
  end.

Fixpoint digits_value (acc : Z) (s : jsstring) : option Z :=
  match s with
  | [] => Some acc
  | c :: s' => if is_digit c then digits_value (10 * acc + (c - 48)) s' else None
  end.

(** An array index is the canonical decimal spelling of an integer
    below [2^32 - 1]; such keys come first in property order,
    ascending. *)
Definition array_index (k : jsstring) : option Z :=
  match k with
  | [] => None
  | c :: k' =>
      if (c =? 48) && negb (match k' with [] => true | _ => false end) then None
      else match digits_value 0 k with
           | Some i => if i <? 4294967295 then Some i else None
           | None => None
           end
  end.

Fixpoint replace (k : jsstring) (v : A) (props : properties) : properties :=
  match props with
  | [] => []
  | (k', v') :: props' =>
      if JsString.eqb k' k then (k', v) :: props' else (k', v') :: replace k v props'
  end.

Fixpoint insert_index (i : Z) (k : jsstring) (v : A) (props : properties)
  : properties :=
  match props with
  | [] => [(k, v)]
  | (k', v') :: props' =>
      match array_index k' with
      | Some j => if j <? i then (k', v') :: insert_index i k v props'
                  else (k, v) :: props
      | None => (k, v) :: props
      end
  end.

(** [obj[k] = v] on an ordinary object ([CreateDataProperty]): a key
    already present keeps its place and gets the new value. *)
Definition define_property (k : jsstring) (v : A) (props : properties)
  : properties :=
  match lookup k props with
  | Some _ => replace k v props
  | None =>
      match array_index k with
      | Some i => insert_index i k v props
      | None => props ++ [(k, v)]
      end
  end.

(** [!(k in obj)] *)
Definition absent (k : jsstring) (props : properties) : bool :=
  forallb (fun kv => negb (JsString.eqb (fst kv) k)) props.

(** [const { k, ...rest } = obj]: the other properties, in order. *)
Definition rest (k : jsstring) (props : properties) : properties :=
  filter (fun kv => negb (JsString.eqb (fst kv) k)) props.

End Properties.

End JsObject.
Export JsObject.

(* ================================================================== *)
(** * JSON values, [JSON.parse] and [JSON.stringify] *)
(* ================================================================== *)

Module Json.

(** The values [JSON.parse] produces.  A number [JNum m e] stands for
    [m * 10^e]: a literal denotes its exact decimal value.  An engine
    keeps the nearest binary64 value instead, and prints the shortest
    decimal that reads back as that value; the two agree on the numbers
    of [within_binary64] below, and what is stated of the text of a
    number, or of its being zero or not, is stated of such numbers.  An
    object is the list of its own properties in property order. *)
Inductive value : Type :=
| JNull
| JBool (b : bool)
| JNum (m e : Z)
| JStr (s : jsstring)
| JArr (l : list value)
| JObj (props : list (jsstring * value)).

(** ** Numbers *)

Fixpoint strip_zeros (fuel : nat) (m e : Z) : Z * Z :=
  match fuel with
  | O => (m, e)
  | S fuel' =>
      if m =? 0 then (0, 0)
      else if m mod 10 =? 0 then strip_zeros fuel' (m / 10) (e + 1)
      else (m, e)
  end.

Definition normalize (m e : Z) : Z * Z :=
  strip_zeros (S (Z.to_nat (Z.log2 (Z.abs m)))) m e.

Definition zeros (n : Z) : jsstring := repeat 48 (Z.to_nat n).

Definition exponent_part (x : Z) : jsstring :=
  [101] ++ (if 0 <=? x then [43] else [45]) ++ of_Z (Z.abs x).

(** [Number::toString] in radix 10, on the digits of the mantissa. *)
Definition number_to_string (m0 e0 : Z) : jsstring :=
  let (m, e) := normalize m0 e0 in
  if m =? 0 then [48]
  else
    let digits := of_Z (Z.abs m) in
    let k := Z.of_nat (List.length digits) in
    let n := k + e in
    (if m <? 0 then [45] else []) ++
    (if (k <=? n) && (n <=? 21) then digits ++ zeros (n - k)
     else if (0 <? n) && (n <=? 21) then
       firstn (Z.to_nat n) digits ++ [46] ++ skipn (Z.to_nat n) digits
     else if (-6 <? n) && (n <=? 0) then [48; 46] ++ zeros (- n) ++ digits
     else if k =? 1 then digits ++ exponent_part (n - 1)
     else firstn 1 digits ++ [46] ++ skipn 1 digits ++ exponent_part (n - 1)).

(** ** Parsing *)

Definition is_ws (c : Z) : bool :=
  (c =? 0x20) || (c =? 0x09) || (c =? 0x0A) || (c =? 0x0D).

Fixpoint skip_ws (s : jsstring) : jsstring :=
  match s with
  | c :: s' => if is_ws c then skip_ws s' else s
  | [] => []
  end.

Fixpoint span_digits (s : jsstring) : jsstring * jsstring :=
  match s with
  | c :: s' =>
      if is_digit c then let (ds, r) := span_digits s' in (c :: ds, r)
      else ([], s)
  | [] => ([], [])
  end.

Definition digits_to_Z (ds : jsstring) : Z :=
  fold_left (fun acc c => 10 * acc + (c - 48)) ds 0.

(** The characters of a string literal after its opening quote. *)
Fixpoint parse_string (s : jsstring) : option (jsstring * jsstring) :=
  match s with
  | [] => None
  | c :: r =>
      if c =? 34 then Some ([], r)
      else if c =? 92 then
        match r with
        | [] => None
        | x :: r' =>
            let simple (u : Z) :=
              match parse_string r' with
              | Some (t, rest) => Some (u :: t, rest)
              | None => None
              end in
            if x =? 34 then simple 34
            else if x =? 92 then simple 92
            else if x =? 47 then simple 47
            else if x =? 98 then simple 8
            else if x =? 102 then simple 12
            else if x =? 110 then simple 10
            else if x =? 114 then simple 13
            else if x =? 116 then simple 9
            else if x =? 117 then
              match r' with
              | h1 :: h2 :: h3 :: h4 :: r'' =>
                  match hex_value h1, hex_value h2, hex_value h3, hex_value h4 with
                  | Some a, Some b, Some c', Some d =>
                      match parse_string r'' with
                      | Some (t, rest) =>
                          Some (((a * 16 + b) * 16 + c') * 16 + d :: t, rest)
                      | None => None
                      end
                  | _, _, _, _ => None
                  end
              | _ => None
              end
            else None
        end
      else if c <? 0x20 then None
      else match parse_string r with
           | Some (t, rest) => Some (c :: t, rest)
           | None => None
           end
  end.

(** A number literal: [-? (0 | [1-9][0-9]* ) (. [0-9]+)? ([eE] [+-]? [0-9]+)?],
    read part by part. *)
Definition read_sign (s : jsstring) : bool * jsstring :=
  match s with
  | c :: r => if c =? 45 then (true, r) else (false, s)
  | [] => (false, s)
  end.

Definition read_fraction (s : jsstring) : option (jsstring * jsstring) :=
  match s with
  | c :: r =>
      if c =? 46 then
        let (fp, rest) := span_digits r in
        match fp with [] => None | _ :: _ => Some (fp, rest) end
      else Some ([], s)
  | [] => Some ([], s)
  end.

Definition read_exponent (s : jsstring) : option (Z * jsstring) :=
  match s with
  | c :: r =>
      if (c =? 101) || (c =? 69) then
        let (sg, r1) :=
          match r with
          | x :: r' => if x =? 43 then (1, r')
                       else if x =? 45 then (-1, r')
                       else (1, r)
          | [] => (1, r)
          end in
        let (ep, rest) := span_digits r1 in
        match ep with
        | [] => None
        | _ :: _ => Some (sg * digits_to_Z ep, rest)
        end
      else Some (0, s)
  | [] => Some (0, s)
  end.

Definition leading_zero (ip : jsstring) : bool :=
  match ip with
  | d :: _ :: _ => d =? 48
  | _ => false
  end.

(** The spelling of a natural number: digits, with no leading zero unless
    it is the single digit zero. *)
Definition spelled (s : jsstring) : Prop :=
  forallb is_digit s = true /\ s <> [] /\ leading_zero s = false.

Definition parse_number (s : jsstring) : option (value * jsstring) :=
  let (neg, s1) := read_sign s in
  let (ip, s2) := span_digits s1 in
  match ip with
  | [] => None
  | _ :: _ =>
      if leading_zero ip then None
      else
        match read_fraction s2 with
        | None => None
        | Some (fp, s3) =>
            match read_exponent s3 with
            | None => None
            | Some (x, s4) =>
                let m := digits_to_Z (ip ++ fp) in
                let (m', e') := normalize (if neg then - m else m)
                                          (x - Z.of_nat (List.length fp)) in
                Some (JNum m' e', s4)
            end
        end
  end.

(** Where a run of digits ends, and what may follow a value inside a
    text: nothing, or [,], or a closing bracket or brace. *)
Definition stops (rest : jsstring) : Prop :=
  match rest with
  | [] => True
  | c :: _ => is_digit c = false
  end.

Definition delimited (rest : jsstring) : Prop :=
  match rest with
  | [] => True
  | c :: _ => c = 44 \/ c = 93 \/ c = 125
  end.

Inductive parsed (A : Type) : Type :=
| Ok (a : A) (rest : jsstring)
| Bad
| OutOfFuel.
Arguments Ok {A} a rest.
Arguments Bad {A}.
Arguments OutOfFuel {A}.

(** Whether a text starts with the code unit [c]. *)
Definition closes (c : Z) (s : jsstring) : bool :=
  match s with
  | c' :: _ => c' =? c
  | [] => false
  end.

Definition expect (word : jsstring) (v : value) (s : jsstring) : parsed value :=
  if startsWith s word then Ok v (skipn (List.length word) s) else Bad.

Fixpoint parse_value (fuel : nat) (s : jsstring) {struct fuel} : parsed value :=
  match fuel with
  | O => OutOfFuel
  | S fuel' =>
      match skip_ws s with
      | [] => Bad
      | c :: r =>
          if c =? 123 then
            if closes 125 (skip_ws r) then Ok (JObj []) (skipn 1 (skip_ws r))
            else parse_members fuel' r []
          else if c =? 91 then
            if closes 93 (skip_ws r) then Ok (JArr []) (skipn 1 (skip_ws r))
            else parse_elements fuel' r []
          else if c =? 34 then
            match parse_string r with
            | Some (t, rest) => Ok (JStr t) rest
            | None => Bad
            end
          else if c =? 110 then expect (lit "null") JNull (c :: r)
          else if c =? 116 then expect (lit "true") (JBool true) (c :: r)
          else if c =? 102 then expect (lit "false") (JBool false) (c :: r)
          else match parse_number (c :: r) with
               | Some (v, rest) => Ok v rest
               | None => Bad
               end
      end
  end

with parse_elements (fuel : nat) (s : jsstring) (acc : list value)
     {struct fuel} : parsed value :=
  match fuel with
  | O => OutOfFuel
  | S fuel' =>
      match parse_value fuel' s with
      | Ok v r =>
          match skip_ws r with
          | c :: r' =>
              if c =? 44 then parse_elements fuel' r' (v :: acc)
              else if c =? 93 then Ok (JArr (rev (v :: acc))) r'
              else Bad
          | [] => Bad
          end
      | Bad => Bad
      | OutOfFuel => OutOfFuel
      end
  end

with parse_members (fuel : nat) (s : jsstring) (props : list (jsstring * value))
     {struct fuel} : parsed value :=
  match fuel with
  | O => OutOfFuel
  | S fuel' =>
      match skip_ws s with
      | c :: r =>
          if c =? 34 then
            match parse_string r with
            | Some (k, r1) =>
                match skip_ws r1 with
                | c1 :: r2 =>
                    if c1 =? 58 then
                      match parse_value fuel' r2 with
                      | Ok v r3 =>
                          let props' := define_property k v props in
                          match skip_ws r3 with
                          | c3 :: r4 =>
                              if c3 =? 44 then parse_members fuel' r4 props'
                              else if c3 =? 125 then Ok (JObj props') r4
                              else Bad
                          | [] => Bad
                          end
                      | Bad => Bad
                      | OutOfFuel => OutOfFuel
                      end
                    else Bad
                | [] => Bad
                end
            | None => Bad
            end
          else Bad
      | [] => Bad
      end
  end.

(** [JSON.parse text]: [Some v] for the value of a JSON text, [None]
    where [JSON.parse] throws a SyntaxError.  The fuel given is enough
    for every text ([parse_never_out_of_fuel] below). *)
Definition parse_with_fuel (text : jsstring) : parsed value :=
  match parse_value (2 * List.length text + 1) text with
  | Ok v rest => match skip_ws rest with [] => Ok v [] | _ => Bad end
  | Bad => Bad
  | OutOfFuel => OutOfFuel
  end.

Definition parse (text : jsstring) : option value :=
  match parse_with_fuel text with
  | Ok v _ => Some v
  | _ => None
  end.

(** ** Serialising *)

Definition hex4_lower (c : Z) : jsstring :=
  [hex_digit_lower (c / 4096 mod 16); hex_digit_lower (c / 256 mod 16);
   hex_digit_lower (c / 16 mod 16); hex_digit_lower (c mod 16)].

Definition escape_unit (c : Z) : jsstring := [92; 117] ++ hex4_lower c.

(** [QuoteJSONString] without the surrounding quotes. *)
Fixpoint quote_body (s : jsstring) : jsstring :=
  match s with
  | [] => []
  | c :: s' =>
      if c =? 34 then [92; 34] ++ quote_body s'
      else if c =? 92 then [92; 92] ++ quote_body s'
      else if c =? 8 then [92; 98] ++ quote_body s'
      else if c =? 12 then [92; 102] ++ quote_body s'
      else if c =? 10 then [92; 110] ++ quote_body s'
      else if c =? 13 then [92; 114] ++ quote_body s'
      else if c =? 9 then [92; 116] ++ quote_body s'
      else if c <? 0x20 then escape_unit c ++ quote_body s'
      else if is_high_surrogate c then
        match s' with
        | d :: s'' =>
            if is_low_surrogate d then c :: d :: quote_body s''
            else escape_unit c ++ quote_body s'
        | [] => escape_unit c
        end
      else if is_low_surrogate c then escape_unit c ++ quote_body s'
      else c :: quote_body s'
  end.

Definition quote (s : jsstring) : jsstring := [34] ++ quote_body s ++ [34].

(** [JSON.stringify value] with no replacer and no indentation, on a
    value made of JSON data. *)
Fixpoint stringify (v : value) : jsstring :=
  match v with
  | JNull => lit "null"
  | JBool true => lit "true"
  | JBool false => lit "false"
  | JNum m e => number_to_string m e
  | JStr s => quote s
  | JArr l => [91] ++ join [44] (map stringify l) ++ [93]
  | JObj props =>
      [123]
      ++ join [44] (map (fun kv => quote (fst kv) ++ [58] ++ stringify (snd kv)) props)
      ++ [125]
  end.

(** The text of one member of an object. *)
Definition member_text (kv : jsstring * value) : jsstring :=
  quote (fst kv) ++ [58] ++ stringify (snd kv).

(** ** The values [JSON.parse] produces *)

(** A number is in normal form, a string has no negative code unit, and
    the keys of an object are distinct and in property order: array
    indices first, ascending, then the other keys. *)
Definition normal_number (m e : Z) : bool :=
  ((m =? 0) && (e =? 0)) || negb (m mod 10 =? 0).

Definition plain (s : jsstring) : bool := forallb (fun c => 0 <=? c) s.

Definition precedes (k k' : jsstring) : bool :=
  negb (JsString.eqb k k') &&
  match array_index k, array_index k' with
  | Some i, Some j => i <? j
  | Some _, None => true
  | None, Some _ => false
  | None, None => true
  end.

Fixpoint ordered (keys : list jsstring) : bool :=
  match keys with
  | [] => true
  | k :: keys' => forallb (precedes k) keys' && ordered keys'
  end.

Fixpoint canonical (v : value) : bool :=
  match v with
  | JNull | JBool _ => true
  | JNum m e => normal_number m e
  | JStr s => plain s
  | JArr l => forallb canonical l
  | JObj props =>
      forallb (fun kv => plain (fst kv) && canonical (snd kv)) props
      && ordered (map fst props)
  end.

Fixpoint size (v : value) : nat :=
  match v with
  | JArr l => S (list_sum (map size l))
  | JObj props => S (list_sum (map (fun kv => size (snd kv)) props))
  | _ => 1
  end.

(** ** Numbers that binary64 keeps

    A decimal of at most 15 significant digits, of a magnitude between
    [10^-300] and [10^305], is kept by binary64: it is the shortest
    decimal that rounds to the binary64 value nearest to it.  So
    [JSON.parse] followed by [JSON.stringify] prints it as
    [number_to_string] does, it is zero only if its digits are, and it
    neither overflows to [Infinity] nor underflows to zero. *)
Definition number_within_binary64 (m e : Z) : bool :=
  (Z.abs m <? 10 ^ 15) && (-300 <=? e) && (e <=? 290).

Fixpoint within_binary64 (v : value) : bool :=
  match v with
  | JNull | JBool _ | JStr _ => true
  | JNum m e => number_within_binary64 m e
  | JArr l => forallb within_binary64 l
  | JObj props => forallb (fun kv => within_binary64 (snd kv)) props
  end.

(** Reading one more code unit of a string. *)
Definition keep (c : Z) (r : option (jsstring * jsstring)) : option (jsstring * jsstring) :=
  match r with
  | Some (t, rest) => Some (c :: t, rest)
  | None => None
  end.

End Json.
Export Json.

(* ================================================================== *)
(** * Values at run time: property access and conversions *)
(* ================================================================== *)

Module Runtime.

(** The properties the program reads from parsed data.  None of them is
    a member of [Object.prototype], [Array.prototype], [String.prototype],
    [Number.prototype] or [Boolean.prototype] other than [length], so
    reading one from an object finds an own property or [undefined]. *)
Inductive property := p_status | p_message | p_articles | p_length.

Definition property_name (p : property) : jsstring :=
  match p with
  | p_status => lit "status"
  | p_message => lit "message"
  | p_articles => lit "articles"
  | p_length => lit "length"
  end.

Definition length_of {A} (l : list A) : value := JNum (Z.of_nat (List.length l)) 0.

(** [v.p]; [None] is [undefined].  Reading a property of [null] throws
    (the message is V8's). *)
Definition get (v : value) (p : property) : Completion (option value) :=
  match v with
  | JNull =>
      Throw (TypeError (lit "Cannot read properties of null (reading '"
                        ++ property_name p ++ lit "')"))
  | JObj props => Return (lookup (property_name p) props)
  | JArr l => Return (match p with p_length => Some (length_of l) | _ => None end)
  | JStr s => Return (match p with p_length => Some (length_of s) | _ => None end)
  | JBool _ | JNum _ _ => Return None
  end.

(** [ToBoolean]. *)
Definition truthy (v : option value) : bool :=
  match v with
  | None | Some JNull => false
  | Some (JBool b) => b
  | Some (JNum m _) => negb (m =? 0)
  | Some (JStr s) => negb (JsString.eqb s [])
  | Some (JArr _) | Some (JObj _) => true
  end.

(** [v || fallback] *)
Definition or_else (v : option value) (fallback : value) : value :=
  match v with
  | Some x => if truthy v then x else fallback
  | None => fallback
  end.

(** [v === 'text'] and [v === 0]. *)
Definition strict_equals_string (v : option value) (text : jsstring) : bool :=
  match v with
  | Some (JStr s) => JsString.eqb s text
  | _ => false
  end.

Definition strict_equals_zero (v : option value) : bool :=
  match v with
  | Some (JNum m _) => m =? 0
  | _ => false
  end.

(** [ToString] of a value made of JSON data; [None] where it throws a
    TypeError.  An object is converted by [Object.prototype.toString]
    unless an own [toString] property, which cannot be callable, hides
    it; an array is joined with commas, [null] elements giving the empty
    string. *)
Fixpoint to_string (v : value) : option jsstring :=
  match v with
  | JNull => Some (lit "null")
  | JBool true => Some (lit "true")
  | JBool false => Some (lit "false")
  | JNum m e => Some (number_to_string m e)
  | JStr s => Some s
  | JArr l =>
      (fix join (l : list value) : option jsstring :=
         match l with
         | [] => Some []
         | x :: l' =>
             let item := match x with JNull => Some [] | _ => to_string x end in
             match item, l' with
             | Some t, [] => Some t
             | Some t, _ :: _ =>
                 match join l' with
                 | Some u => Some (t ++ [44] ++ u)
                 | None => None
                 end
             | None, _ => None
             end
         end) l
  | JObj props =>
      match lookup (lit "toString") props with
      | Some _ => None
      | None => Some (lit "[object Object]")
      end
  end.

(** [new Error(v)] for a [v] that is not [undefined]. *)
Definition new_Error (v : value) : Completion JsError :=
  match to_string v with
  | Some msg => Return (Error_ msg)
  | None => Throw (TypeError (lit "Cannot convert object to primitive value"))
  end.

End Runtime.
Export Runtime.

(* ================================================================== *)
(** * Time values and dates *)
(* ================================================================== *)

(** The time functions of ECMAScript (section "Time Values and Time
    Range" and following), on integral time values: milliseconds since
    the beginning of 1 January 1970 UTC. *)
Module DateTime.

Definition msPerDay : Z := 86400000.
Definition msPerHour : Z := 3600000.
Definition msPerMinute : Z := 60000.
Definition msPerSecond : Z := 1000.

Definition Day (t : Z) : Z := t / msPerDay.
Definition TimeWithinDay (t : Z) : Z := t mod msPerDay.

Definition leap (y : Z) : bool :=
  (y mod 4 =? 0) && (negb (y mod 100 =? 0) || (y mod 400 =? 0)).

Definition DaysInYear (y : Z) : Z := if leap y then 366 else 365.

Definition DayFromYear (y : Z) : Z :=
  365 * (y - 1970) + (y - 1969) / 4 - (y - 1901) / 100 + (y - 1601) / 400.

Definition TimeFromYear (y : Z) : Z := msPerDay * DayFromYear y.

(** The largest [y] with [TimeFromYear y <= t]: the year of the average
    length, or one of its neighbours. *)
Definition YearFromTime (t : Z) : Z :=
  let y := 1970 + (400 * Day t) / 146097 in
  if DayFromYear (y + 1) <=? Day t then y + 1
  else if DayFromYear y <=? Day t then y
  else y - 1.

Definition InLeapYear (t : Z) : Z := if leap (YearFromTime t) then 1 else 0.

Definition DayWithinYear (t : Z) : Z := Day t - DayFromYear (YearFromTime t).

Definition MonthFromTime (t : Z) : Z :=
  let d := DayWithinYear t in
  let l := InLeapYear t in
  if d <? 31 then 0
  else if d <? 59 + l then 1
  else if d <? 90 + l then 2
  else if d <? 120 + l then 3
  else if d <? 151 + l then 4
  else if d <? 181 + l then 5
  else if d <? 212 + l then 6
  else if d <? 243 + l then 7
  else if d <? 273 + l then 8
  else if d <? 304 + l then 9
  else if d <? 334 + l then 10
  else 11.

(** The day within the year on which month [m] begins, in a year with
    [l] leap days. *)
Definition month_start (l m : Z) : Z :=
  if m =? 0 then 0
  else if m =? 1 then 31
  else if m =? 2 then 59 + l
  else if m =? 3 then 90 + l
  else if m =? 4 then 120 + l
  else if m =? 5 then 151 + l
  else if m =? 6 then 181 + l
  else if m =? 7 then 212 + l
  else if m =? 8 then 243 + l
  else if m =? 9 then 273 + l
  else if m =? 10 then 304 + l
  else 334 + l.

Definition DateFromTime (t : Z) : Z :=
  DayWithinYear t - month_start (InLeapYear t) (MonthFromTime t) + 1.

Definition HourFromTime (t : Z) : Z := (t / msPerHour) mod 24.
Definition MinFromTime (t : Z) : Z := (t / msPerMinute) mod 60.
Definition SecFromTime (t : Z) : Z := (t / msPerSecond) mod 60.
Definition msFromTime (t : Z) : Z := t mod msPerSecond.

Definition MakeTime (hour min sec ms : Z) : Z :=
  hour * msPerHour + min * msPerMinute + sec * msPerSecond + ms.

(** [MakeDay]: the day number of the first of month [month mod 12] of
    the year [year + floor(month / 12)], plus [date - 1]. *)
Definition MakeDay (year month date : Z) : Z :=
  let ym := year + month / 12 in
  let mn := month mod 12 in
  DayFromYear ym + month_start (if leap ym then 1 else 0) mn + date - 1.

Definition MakeDate (day time : Z) : Z := day * msPerDay + time.

(** [TimeClip]; [None] is NaN. *)
Definition TimeClip (time : Z) : option Z :=
  if Z.abs time >? 8640000000000000 then None else Some time.

(** The last [width] decimal digits of [n], most significant first. *)
Fixpoint pad (width : nat) (n : Z) : jsstring :=
  match width with
  | O => []
  | S width' => pad width' (n / 10) ++ [48 + n mod 10]
  end.

(** The text [Date.prototype.toISOString] gives for a time value:
    [YYYY-MM-DDTHH:mm:ss.sssZ], the year with a sign and six digits
    when it is outside 0 to 9999. *)
Definition iso_year (y : Z) : jsstring :=
  if (0 <=? y) && (y <=? 9999) then pad 4 y
  else if y <? 0 then [45] ++ pad 6 (- y)
  else [43] ++ pad 6 y.

Definition iso (t : Z) : jsstring :=
  iso_year (YearFromTime t) ++ [45] ++ pad 2 (MonthFromTime t + 1)
  ++ [45] ++ pad 2 (DateFromTime t)
  ++ [84] ++ pad 2 (HourFromTime t) ++ [58] ++ pad 2 (MinFromTime t)
  ++ [58] ++ pad 2 (SecFromTime t) ++ [46] ++ pad 3 (msFromTime t) ++ [90].

(** Reading the format back ([Date.parse] on the format with a
    four-digit year and the zone [Z]). *)
Definition field (s : jsstring) : option Z :=
  match s with
  | [] => None
  | _ :: _ => if forallb is_digit s then Some (Json.digits_to_Z s) else None
  end.

Definition read_iso (s : jsstring) : option Z :=
  match s with
  | [y1; y2; y3; y4; a; m1; m2; b; d1; d2; c; h1; h2; d; n1; n2; e; s1; s2;
     f; f1; f2; f3; z] =>
      if JsString.eqb [a; b; c; d; e; f; z] [45; 45; 84; 58; 58; 46; 90] then
        match field [y1; y2; y3; y4], field [m1; m2], field [d1; d2],
              field [h1; h2], field [n1; n2], field [s1; s2], field [f1; f2; f3] with
        | Some year, Some month, Some date, Some hour, Some min, Some sec, Some ms =>
            if (1 <=? month) && (month <=? 12) && (1 <=? date) && (date <=? 31)
               && (hour <=? 23) && (min <=? 59) && (sec <=? 59)
            then TimeClip (MakeDate (MakeDay year (month - 1) date)
                                    (MakeTime hour min sec ms))
            else None
        | _, _, _, _, _, _, _ => None
        end
      else None
  | _ => None
  end.

End DateTime.
Export DateTime.

(* ================================================================== *)
(** * The platform: network, clock *)
(* ================================================================== *)

(** The argument of a call of [fetch]: the URL and the request headers. *)
Record Request := mkRequest {
  url : jsstring;
  headers : list (jsstring * jsstring)
}.

(** What the program reads of a fetch [Response]: [status], [statusText]
    and the text of the body, which [json()] parses. *)
Record Response := mkResponse {
  status : Z;
  statusText : jsstring;
  body : jsstring
}.

(** [response.ok] *)
Definition ok (response : Response) : bool :=
  (200 <=? status response) && (status response <=? 299).

Record Platform := mkPlatform {
  (** [await fetch(url, {headers})]: a response, or a rejection. *)
  fetch : Request -> Completion Response;
  (** The time value of the clock, which [new Date()] reads. *)
  now : Z;
  (** [LocalTZA(t, isUTC)]: the offset of the local time zone, in
      milliseconds, at the time value [t], UTC or local. *)
  LocalTZA : Z -> bool -> Z;
  (** The message of the SyntaxError that [JSON.parse] throws on a text
      (engines word it differently, some quote the text). *)
  syntax_error_message : jsstring -> jsstring
}.

(** An asynchronous function's run: the network calls it made, in order,
    and how it completed. *)
Definition Run (A : Type) : Type := list Request * Completion A.

Module RunNotations.

Definition pure {A} (a : A) : Run A := ([], Return a).
Definition throw {A} (e : JsError) : Run A := ([], Throw e).
Definition lift {A} (c : Completion A) : Run A := ([], c).

Definition bind {A B} (m : Run A) (k : A -> Run B) : Run B :=
  match m with
  | (calls, Return a) => let (calls', c) := k a in (calls ++ calls', c)
  | (calls, Throw e) => (calls, Throw e)
  end.

(** [try { m } catch (error) { handler error }] *)
Definition try_catch {A} (m : Run A) (handler : JsError -> Run A) : Run A :=
  match m with
  | (calls, Throw e) => let (calls', c) := handler e in (calls ++ calls', c)
  | (calls, Return a) => (calls, Return a)
  end.

Notation "x <- m ;; k" := (bind m (fun x => k))
  (at level 61, m at next level, right associativity).

End RunNotations.
Import RunNotations.

Definition calls {A} (r : Run A) : list Request := fst r.
Definition completion {A} (r : Run A) : Completion A := snd r.

(** [await fetch(url, { headers })] *)
Definition await_fetch (P : Platform) (request : Request) : Run Response :=
  ([request], fetch P request).

(** [await response.json()] *)
Definition json (P : Platform) (response : Response) : Completion value :=
  match Json.parse (body response) with
  | Some data => Return data
  | None => Throw (SyntaxError (syntax_error_message P (body response)))
  end.

(* ================================================================== *)
(** * [Date] objects *)
(* ================================================================== *)

(** A [Date] object by its time value; [None] is NaN, the invalid
    date.  A method that changes the object gives the new time value. *)
Module JsDate.

Definition LocalTime (P : Platform) (t : Z) : Z := t + LocalTZA P t true.
Definition UTC (P : Platform) (t : Z) : Z := t - LocalTZA P t false.

(** [new Date()] *)
Definition new_Date (P : Platform) : option Z := TimeClip (now P).

(** [date.getDate()]; [None] is NaN. *)
Definition getDate (P : Platform) (tv : option Z) : option Z :=
  match tv with
  | None => None
  | Some t => Some (DateFromTime (LocalTime P t))
  end.

(** [x - 1] *)
Definition minus_one (x : option Z) : option Z :=
  match x with
  | None => None
  | Some n => Some (n - 1)
  end.

(** [date.setDate(dt)] *)
Definition setDate (P : Platform) (tv : option Z) (dt : option Z) : option Z :=
  match tv, dt with
  | Some t, Some dt =>
      let t := LocalTime P t in
      let newDate := MakeDate (MakeDay (YearFromTime t) (MonthFromTime t) dt)
                              (TimeWithinDay t) in
      TimeClip (UTC P newDate)
  | _, _ => None
  end.

(** [date.toISOString()] *)
Definition toISOString (tv : option Z) : Completion jsstring :=
  match tv with
  | Some t => Return (iso t)
  | None => Throw (RangeError (lit "Invalid time value"))
  end.

End JsDate.

(* ================================================================== *)
(** * [src/services/newsApi.js] *)
(* ================================================================== *)

Module NewsApi.

Definition BASE_URL : jsstring := lit "https://newsapi.org/v2".

(** The errors the module throws, under the names the specification
    gives their kinds. *)
Definition ConfigurationError : JsError :=
  Error_ (lit "API key is missing. Please configure VITE_NEWS_API_KEY in your .env file").
Definition ValidationError : JsError :=
  Error_ (lit "Search topic cannot be empty").
Definition InvalidCredential : JsError :=
  Error_ (lit "Invalid API key. Please check your NewsAPI.org credentials").
Definition RateLimited : JsError :=
  Error_ (lit "Rate limit exceeded. Please try again later (100 requests/day limit)").
Definition UpstreamError (status : Z) (statusText : jsstring) : JsError :=
  Error_ (lit "API error: " ++ of_Z status ++ lit " " ++ statusText).
Definition NetworkError : JsError :=
  Error_ (lit "Network error. Please check your internet connection").

(** [!API_KEY], for [API_KEY] a string or [undefined]. *)
Definition missing (API_KEY : option jsstring) : bool :=
  match API_KEY with
  | None => true
  | Some k => JsString.eqb k []
  end.

Definition key_of (API_KEY : option jsstring) : jsstring :=
  match API_KEY with Some k => k | None => lit "undefined" end.

(** Lines 33-56 and 92-115, the same text in both functions: from the
    response to the returned articles. *)
Definition read_response (P : Platform) (response : Response) : Run value :=
  (* Handle HTTP errors *)
  if negb (ok response) then
    if status response =? 401 then throw InvalidCredential
    else if status response =? 429 then throw RateLimited
    else throw (UpstreamError (status response) (statusText response))
  else
    data <- lift (json P response) ;;
    (* Handle API-level errors *)
    data_status <- lift (get data p_status) ;;
    if strict_equals_string data_status (lit "error") then
      data_message <- lift (get data p_message) ;;
      error <- lift (new_Error
                       (or_else data_message
                                (JStr (lit "An error occurred while fetching news")))) ;;
      throw error
    else
      (* Handle no results *)
      data_articles <- lift (get data p_articles) ;;
      match data_articles with
      | None => pure (JArr [])
      | Some articles =>
          if negb (truthy data_articles) then pure (JArr [])
          else
            articles_length <- lift (get articles p_length) ;;
            if strict_equals_zero articles_length then pure (JArr [])
            else pure articles
      end.

(** Lines 57-65 and 116-124: the catch clause. *)
Definition names_network_failure (error : JsError) : bool :=
  includes (message error) (lit "Failed to fetch")
  || includes (message error) (lit "NetworkError").

Definition on_error (error : JsError) : Run value :=
  (* Network errors *)
  if names_network_failure error then throw NetworkError
  else
    (* Re-throw our custom errors or wrap unknown errors *)
    throw error.

(** The two URLs, [from] and [q] standing for the interpolated values. *)
Definition top_headlines_url (from : jsstring) : jsstring :=
  BASE_URL ++ lit "/top-headlines?country=us&pageSize=10&from=" ++ from.

Definition everything_url (q : jsstring) : jsstring :=
  BASE_URL ++ lit "/everything?q=" ++ q
  ++ lit "&pageSize=10&sortBy=publishedAt&language=en".

(** [{ headers: { 'X-Api-Key': API_KEY } }] *)
Definition with_key (API_KEY : option jsstring) (url : jsstring) : Request :=
  mkRequest url [(lit "X-Api-Key", key_of API_KEY)].

(** Lines 21-22: the date object [yesterday] after
    [yesterday.setDate(yesterday.getDate() - 1)]. *)
Definition yesterday (P : Platform) : option Z :=
  let yesterday := JsDate.new_Date P in
  JsDate.setDate P yesterday (JsDate.minus_one (JsDate.getDate P yesterday)).

Definition fetchTopHeadlines (P : Platform) (API_KEY : option jsstring) : Run value :=
  if missing API_KEY then throw ConfigurationError
  else
    try_catch
      ((* Get date from 24 hours ago *)
       let yesterday := JsDate.new_Date P in
       let yesterday :=
         JsDate.setDate P yesterday (JsDate.minus_one (JsDate.getDate P yesterday)) in
       from <- lift (JsDate.toISOString yesterday) ;;
       let url := top_headlines_url from in
       response <- await_fetch P (with_key API_KEY url) ;;
       read_response P response)
      on_error.

Definition fetchNews (P : Platform) (API_KEY : option jsstring) (topic : jsstring)
  : Run value :=
  if missing API_KEY then throw ConfigurationError
  else if JsString.eqb topic [] || JsString.eqb (trim topic) [] then throw ValidationError
  else
    try_catch
      (q <- lift (Uri.encodeURIComponent topic) ;;
       let url := everything_url q in
       response <- await_fetch P (with_key API_KEY url) ;;
       read_response P response)
      on_error.

(** The search operation in its two modes: the runs of the two exported
    functions. *)
Definition searches (P : Platform) (API_KEY : option jsstring) (topic : jsstring)
  : list (Run value) :=
  [fetchTopHeadlines P API_KEY; fetchNews P API_KEY topic].

(** What either function makes of the outcome of its call of [fetch]: the
    rest of the try block, and the catch clause on whatever is thrown. *)
Definition settle (P : Platform) (outcome : Completion Response) : Completion value :=
  completion (try_catch (response <- lift outcome ;; read_response P response) on_error).

End NewsApi.

(* ================================================================== *)
(** * URLs with a query: [URLSearchParams] *)
(* ================================================================== *)

Module Url.

(** The octets the application/x-www-form-urlencoded serialiser leaves
    as they are: ASCII letters and digits and [* - . _]. *)
Definition form_safe (c : Z) : bool :=
  is_alpha c || is_digit c || (c =? 42) || (c =? 45) || (c =? 46) || (c =? 95).

Definition form_octet (b : Z) : jsstring :=
  if form_safe b then [b] else if b =? 32 then [43] else Uri.percent b.

Fixpoint form_units (s : jsstring) : jsstring :=
  match s with
  | [] => []
  | c :: s' =>
      if is_high_surrogate c then
        match s' with
        | d :: s'' =>
            if is_low_surrogate d
            then flat_map form_octet (utf8 (code_point c d)) ++ form_units s''
            else flat_map form_octet (utf8 c) ++ form_units s'
        | [] => flat_map form_octet (utf8 c)
        end
      else flat_map form_octet (utf8 c) ++ form_units s'
  end.

(** The serialisation of one name or value: the string is first made a
    scalar value string. *)
Definition form_encode (s : jsstring) : jsstring := form_units (toWellFormed s).

(** The application/x-www-form-urlencoded serialiser. *)
Fixpoint serialize (params : list (jsstring * jsstring)) : jsstring :=
  match params with
  | [] => []
  | [(k, v)] => form_encode k ++ [61] ++ form_encode v
  | (k, v) :: params' => form_encode k ++ [61] ++ form_encode v ++ [38] ++ serialize params'
  end.

(** [url.toString()] for a URL [base] without query whose [searchParams]
    hold [params]. *)
Definition href (base : jsstring) (params : list (jsstring * jsstring)) : jsstring :=
  match params with
  | [] => base
  | _ :: _ => base ++ [63] ++ serialize params
  end.

(** Splitting a query at its separators, as every reader of a query
    does: the pieces between [&], each cut at its first [=]. *)
Fixpoint split_on (sep : Z) (s : jsstring) : list jsstring :=
  match s with
  | [] => [[]]
  | c :: s' =>
      if c =? sep then [] :: split_on sep s'
      else match split_on sep s' with
           | piece :: pieces => (c :: piece) :: pieces
           | [] => [[c]]
           end
  end.

Fixpoint cut_at (sep : Z) (s : jsstring) : jsstring * jsstring :=
  match s with
  | [] => ([], [])
  | c :: s' =>
      if c =? sep then ([], s')
      else let (a, b) := cut_at sep s' in (c :: a, b)
  end.

(** The part of a URL after its first [?] (a URL of the program has no
    fragment). *)
Definition query_of (u : jsstring) : jsstring := snd (cut_at 63 u).
Definition path_of (u : jsstring) : jsstring := fst (cut_at 63 u).

(** The name/value pairs of a query as written, escapes not decoded. *)
Definition raw_params (q : jsstring) : list (jsstring * jsstring) :=
  map (cut_at 61) (filter (fun piece => negb (JsString.eqb piece [])) (split_on 38 q)).

Fixpoint assoc (k : jsstring) (params : list (jsstring * jsstring)) : option jsstring :=
  match params with
  | [] => None
  | (k', v) :: params' => if JsString.eqb k' k then Some v else assoc k params'
  end.

End Url.

(* ================================================================== *)
(** * [api/news.js] *)
(* ================================================================== *)

Module ApiNews.

(** A value of [req.query]: a string, or the array of the values of a
    parameter given more than once. *)
Inductive QueryValue :=
| QString (s : jsstring)
| QArray (l : list jsstring).

(** What the handler reads of [req]. *)
Record VercelRequest := mkVercelRequest {
  method : jsstring;
  (** [req.query], its own properties in property order *)
  query : list (jsstring * QueryValue)
}.

(** What the handler has written to [res] when it returns: the headers it
    set, the status, and the body sent ([None] after [end()] without
    data; [json(v)] sends [JSON.stringify(v)]). *)
Record VercelResponse := mkVercelResponse {
  res_headers : list (jsstring * jsstring);
  res_status : Z;
  res_body : option jsstring
}.

(** A run of the handler: the upstream calls made, what went to
    [console.error], and the response. *)
Record Handled := mkHandled {
  upstream_calls : list Request;
  console_error : list JsError;
  sent : VercelResponse
}.

Definition cors_headers : list (jsstring * jsstring) :=
  [(lit "Access-Control-Allow-Origin", lit "*");
   (lit "Access-Control-Allow-Methods", lit "GET, OPTIONS");
   (lit "Access-Control-Allow-Headers", lit "Content-Type")].

(** [res.status(code).end()] and [res.status(code).json(v)] *)
Definition status_end (code : Z) : VercelResponse :=
  mkVercelResponse cors_headers code None.
Definition status_json (code : Z) (v : value) : VercelResponse :=
  mkVercelResponse cors_headers code (Some (Json.stringify v)).

Definition validEndpoints : list jsstring := [lit "top-headlines"; lit "everything"].

(** [validEndpoints.includes(endpoint)]: strict equality with one of the
    two strings; an array or [undefined] equals neither. *)
Definition valid_endpoint (endpoint : option QueryValue) : option jsstring :=
  match endpoint with
  | Some (QString e) => if existsb (JsString.eqb e) validEndpoints then Some e else None
  | _ => None
  end.

(** The string [searchParams.append(key, value)] makes of [value]: an
    array is joined with commas. *)
Definition value_string (v : QueryValue) : jsstring :=
  match v with
  | QString s => s
  | QArray l => join [44] l
  end.

(** The header value [fetch] makes of [process.env.VITE_NEWS_API_KEY]:
    the string, or the text [undefined] when the variable is not set. *)
Definition header_string (v : option jsstring) : jsstring :=
  match v with Some s => s | None => lit "undefined" end.

(** Lines 32-45: the URL [https://newsapi.org/v2/${endpoint}] with every
    entry of [params] appended to its [searchParams], and the call made to
    it with the API key from the environment as a header. *)
Definition upstream_request (VITE_NEWS_API_KEY : option jsstring) (endpoint : jsstring)
           (params : list (jsstring * QueryValue)) : Request :=
  let apiUrl :=
    Url.href (lit "https://newsapi.org/v2/" ++ endpoint)
             (map (fun kv => (fst kv, value_string (snd kv))) params) in
  mkRequest apiUrl [(lit "X-Api-Key", header_string VITE_NEWS_API_KEY)].

Definition handler (P : Platform) (VITE_NEWS_API_KEY : option jsstring)
           (req : VercelRequest) : Handled :=
  (* Handle preflight request *)
  if JsString.eqb (method req) (lit "OPTIONS") then
    mkHandled [] [] (status_end 200)
  (* Only allow GET requests *)
  else if negb (JsString.eqb (method req) (lit "GET")) then
    mkHandled [] [] (status_json 405 (JObj [(lit "error", JStr (lit "Method not allowed"))]))
  else
    (* const { endpoint, ...params } = req.query *)
    let endpoint := lookup (lit "endpoint") (query req) in
    let params := rest (lit "endpoint") (query req) in
    (* Validate endpoint *)
    match valid_endpoint endpoint with
    | None =>
        mkHandled [] [] (status_json 400 (JObj [(lit "error", JStr (lit "Invalid endpoint"))]))
    | Some endpoint =>
        let request := upstream_request VITE_NEWS_API_KEY endpoint params in
        let attempt : Completion VercelResponse :=
          match fetch P request with
          | Throw error => Throw error
          | Return response =>
              match json P response with
              | Throw error => Throw error
              | Return data => Return (status_json (status response) data)
              end
          end in
        match attempt with
        | Return sent => mkHandled [request] [] sent
        | Throw error =>
            mkHandled [request] [error]
              (status_json 500 (JObj [(lit "error", JStr (lit "Failed to fetch news"));
                                      (lit "message", JStr (message error))]))
        end
    end.

End ApiNews.

(* ================================================================== *)
(** * The proxied [newsApi.js] of the deployment guide *)
(* ================================================================== *)

Module ProxiedNewsApi.

Import NewsApi.

(** [const API_BASE = isDev ? 'https://newsapi.org/v2' : '/api/news'] *)
Definition API_BASE (isDev : bool) : jsstring :=
  if isDev then lit "https://newsapi.org/v2" else lit "/api/news".

(** [await fetch(url)] *)
Definition await_fetch_url (P : Platform) (url : jsstring) : Run Response :=
  await_fetch P (mkRequest url []).

(** The URLs of the two functions. *)
Definition top_headlines_url (isDev : bool) (VITE_NEWS_API_KEY : option jsstring)
  : jsstring :=
  if isDev
  then API_BASE isDev ++ lit "/top-headlines?country=us&pageSize=10&apiKey="
       ++ key_of VITE_NEWS_API_KEY
  else API_BASE isDev ++ lit "?endpoint=top-headlines&country=us&pageSize=10".

Definition everything_url (isDev : bool) (VITE_NEWS_API_KEY : option jsstring)
           (q : jsstring) : jsstring :=
  if isDev
  then API_BASE isDev ++ lit "/everything?q=" ++ q
       ++ lit "&pageSize=10&sortBy=publishedAt&language=en&apiKey="
       ++ key_of VITE_NEWS_API_KEY
  else API_BASE isDev ++ lit "?endpoint=everything&q=" ++ q
       ++ lit "&pageSize=10&sortBy=publishedAt&language=en".

(** After the call of [fetch] both functions have the text of
    [src/services/newsApi.js], [read_response] and [on_error]. *)
Definition fetchTopHeadlines (P : Platform) (isDev : bool)
           (VITE_NEWS_API_KEY : option jsstring) : Run value :=
  try_catch
    ((* Build URL for serverless proxy or direct API *)
     let url := top_headlines_url isDev VITE_NEWS_API_KEY in
     response <- await_fetch_url P url ;;
     read_response P response)
    on_error.

Definition fetchNews (P : Platform) (isDev : bool)
           (VITE_NEWS_API_KEY : option jsstring) (topic : jsstring) : Run value :=
  if JsString.eqb topic [] || JsString.eqb (trim topic) [] then throw ValidationError
  else
    try_catch
      (q <- lift (Uri.encodeURIComponent topic) ;;
       (* Build URL for serverless proxy or direct API *)
       let url := everything_url isDev VITE_NEWS_API_KEY q in
       response <- await_fetch_url P url ;;
       read_response P response)
      on_error.

End ProxiedNewsApi.

(* ================================================================== *)
(** * The deployment: a same-origin request reaches the function *)
(* ================================================================== *)

Module Deployment.

Import ApiNews.

(** The octets a query piece stands for: [+] is a space, an escape is
    its octet, any other code point is its UTF-8 encoding. *)
Fixpoint octets (s : jsstring) : list Z :=
  match s with
  | [] => []
  | c :: s' =>
      if c =? 37 then
        match s' with
        | h :: l :: s'' =>
            match hex_value h, hex_value l with
            | Some x, Some y => 16 * x + y :: octets s''
            | _, _ => 37 :: octets s'
            end
        | _ => 37 :: octets s'
        end
      else if c =? 43 then 32 :: octets s'
      else if is_high_surrogate c then
        match s' with
        | d :: s'' =>
            if is_low_surrogate d then utf8 (code_point c d) ++ octets s''
            else utf8 0xFFFD ++ octets s'
        | [] => utf8 0xFFFD
        end
      else if is_low_surrogate c then utf8 0xFFFD ++ octets s'
      else utf8 c ++ octets s'
  end.

Definition between (lo hi b : Z) : bool := (lo <=? b) && (b <=? hi).

(** The first sequence of a run of octets: the code units it decodes to
    and the number of octets it takes.  A sequence that is not UTF-8
    decodes to U+FFFD and takes the octets that were well formed so far
    (one at least). *)
Definition sequence (bs : list Z) : jsstring * nat :=
  match bs with
  | [] => ([], 0%nat)
  | b0 :: r1 =>
      if b0 <? 0x80 then ([b0], 1%nat)
      else if between 0xC2 0xDF b0 then
        match r1 with
        | b1 :: _ =>
            if between 0x80 0xBF b1
            then ([(b0 - 0xC0) * 0x40 + (b1 - 0x80)], 2%nat)
            else ([0xFFFD], 1%nat)
        | [] => ([0xFFFD], 1%nat)
        end
      else if between 0xE0 0xEF b0 then
        match r1 with
        | b1 :: r2 =>
            if between (if b0 =? 0xE0 then 0xA0 else 0x80)
                       (if b0 =? 0xED then 0x9F else 0xBF) b1
            then match r2 with
                 | b2 :: _ =>
                     if between 0x80 0xBF b2
                     then ([(b0 - 0xE0) * 0x1000 + (b1 - 0x80) * 0x40 + (b2 - 0x80)],
                           3%nat)
                     else ([0xFFFD], 2%nat)
                 | [] => ([0xFFFD], 2%nat)
                 end
            else ([0xFFFD], 1%nat)
        | [] => ([0xFFFD], 1%nat)
        end
      else if between 0xF0 0xF4 b0 then
        match r1 with
        | b1 :: r2 =>
            if between (if b0 =? 0xF0 then 0x90 else 0x80)
                       (if b0 =? 0xF4 then 0x8F else 0xBF) b1
            then match r2 with
                 | b2 :: r3 =>
                     if between 0x80 0xBF b2
                     then match r3 with
                          | b3 :: _ =>
                              if between 0x80 0xBF b3
                              then (utf16 ((b0 - 0xF0) * 0x40000 + (b1 - 0x80) * 0x1000
                                           + (b2 - 0x80) * 0x40 + (b3 - 0x80)),
                                    4%nat)
                              else ([0xFFFD], 3%nat)
                          | [] => ([0xFFFD], 3%nat)
                          end
                     else ([0xFFFD], 2%nat)
                 | [] => ([0xFFFD], 2%nat)
                 end
            else ([0xFFFD], 1%nat)
        | [] => ([0xFFFD], 1%nat)
        end
      else ([0xFFFD], 1%nat)
  end.

(** UTF-8 decoding with replacement of what is not UTF-8. *)
Fixpoint utf8_lossy (bs : list Z) : jsstring :=
  match bs with
  | [] => []
  | b0 :: r1 =>
      let (units, taken) := sequence (b0 :: r1) in
      units ++ match taken, r1 with
               | 2%nat, _ :: r2 => utf8_lossy r2
               | 3%nat, _ :: _ :: r3 => utf8_lossy r3
               | 4%nat, _ :: _ :: _ :: r4 => utf8_lossy r4
               | _, _ => utf8_lossy r1
               end
  end.

Definition form_decode (piece : jsstring) : jsstring := utf8_lossy (octets piece).

(** [req.query]: a parameter given once is a string, one given several
    times the array of its values. *)
Definition add_param (q : list (jsstring * QueryValue)) (kv : jsstring * jsstring) :=
  let (k, v) := kv in
  match lookup k q with
  | None => define_property k (QString v) q
  | Some (QString first) => define_property k (QArray [first; v]) q
  | Some (QArray l) => define_property k (QArray (l ++ [v])) q
  end.

Definition parse_query (q : jsstring) : list (jsstring * QueryValue) :=
  fold_left add_param
    (map (fun kv => (form_decode (fst kv), form_decode (snd kv))) (Url.raw_params q))
    [].

Definition function_path : jsstring := lit "/api/news".

(** A browser's [fetch] of a same-origin URL, the request reaching the
    deployment: the function at [/api/news] is run on the query of the
    URL, on the platform [Upstream] of the server, and what it wrote to
    [res] is the response.  [reason] is the status text the
    browser shows for a status code.  A path with no function is not
    found. *)
Definition browser_fetch (Upstream : Platform) (VITE_NEWS_API_KEY : option jsstring)
           (reason : Z -> jsstring) (request : Request) : Completion Response :=
  let u := fst (Url.cut_at 35 (url request)) in
  if JsString.eqb (Url.path_of u) function_path then
    let h := handler Upstream VITE_NEWS_API_KEY
                     (mkVercelRequest (lit "GET") (parse_query (Url.query_of u))) in
    Return (mkResponse (res_status (sent h)) (reason (res_status (sent h)))
                       (match res_body (sent h) with Some b => b | None => [] end))
  else Return (mkResponse 404 (reason 404) []).

(** The platform of a browser [Client] whose same-origin requests are
    served by the function running on [Server]. *)
Definition Browser (Client Server : Platform) (VITE_NEWS_API_KEY : option jsstring)
           (reason : Z -> jsstring) : Platform :=
  mkPlatform (browser_fetch Server VITE_NEWS_API_KEY reason)
             (now Client)
             (LocalTZA Client)
             (syntax_error_message Client).

End Deployment.

(* ================================================================== *)
(** * Expressions of the components: members, template literals *)
(* ================================================================== *)

Module Expression.

(** Evaluation in order: the first exception ends it. *)
Definition and_then {A B} (c : Completion A) (k : A -> Completion B) : Completion B :=
  match c with
  | Return a => k a
  | Throw e => Throw e
  end.

Notation "x <~ c ;; k" := (and_then c (fun x => k))
  (at level 61, c at next level, right associativity).

(** [v.key] for the keys the components read ([url], [title],
    [urlToImage], [description], [source], [name], [publishedAt]); [None]
    is [undefined].  None of these keys is a member of a prototype, so an
    object gives its own property or [undefined], and a string, a number,
    a boolean or an array [undefined].  Reading from [null] or
    [undefined] throws (the messages are V8's). *)
Definition member (v : option value) (key : jsstring) : Completion (option value) :=
  match v with
  | None =>
      Throw (TypeError (lit "Cannot read properties of undefined (reading '"
                        ++ key ++ lit "')"))
  | Some JNull =>
      Throw (TypeError (lit "Cannot read properties of null (reading '"
                        ++ key ++ lit "')"))
  | Some (JObj props) => Return (lookup key props)
  | Some _ => Return None
  end.

(** [`${v}`]: [ToString], which throws on an object that hides
    [Object.prototype.toString]. *)
Definition template (v : option value) : Completion jsstring :=
  match v with
  | None => Return (lit "undefined")
  | Some x =>
      match to_string x with
      | Some s => Return s
      | None => Throw (TypeError (lit "Cannot convert object to primitive value"))
      end
  end.

(** A string, or [null], as a condition. *)
Definition truthy_string (s : option jsstring) : bool :=
  match s with
  | Some t => negb (JsString.eqb t [])
  | None => false
  end.

End Expression.

(* ================================================================== *)
(** * [src/components/SearchBar.jsx] *)
(* ================================================================== *)

Module SearchBar.

Import Expression.

(** What a handler of the component calls of its props: [onSearch] with
    its argument, or [onLucky]. *)
Inductive Call :=
| onSearch (topic : jsstring)
| onLucky.

(** Each handler is given by the calls it makes, in order, for the
    [inputValue] of the state. *)
Definition handleSubmit (inputValue : jsstring) : list Call :=
  (* e.preventDefault() *)
  if truthy_string (Some (trim inputValue)) then [onSearch (trim inputValue)] else [].

(** [key] is [e.key]. *)
Definition handleKeyPress (key : jsstring) (inputValue : jsstring) : list Call :=
  if JsString.eqb key (lit "Enter") && truthy_string (Some (trim inputValue))
  then [onSearch (trim inputValue)]
  else [].

Definition handleLucky : list Call := [onLucky].

(** The [disabled] attributes of the two buttons: [!inputValue.trim()]
    on "Show", [inputValue.trim()] on "I'm Feeling Lucky", where a
    non-empty string disables. *)
Definition show_disabled (inputValue : jsstring) : bool :=
  negb (truthy_string (Some (trim inputValue))).

Definition lucky_disabled (inputValue : jsstring) : bool :=
  truthy_string (Some (trim inputValue)).

End SearchBar.

(* ================================================================== *)
(** * [src/components/NewsItem.jsx] *)
(* ================================================================== *)

Module NewsItem.

Import Expression.

(** What the platform decides: the text
    [new Date(dateString).toLocaleDateString('en-US', { year: 'numeric',
    month: 'short', day: 'numeric' })] of a value [dateString] that
    [new Date] accepts (the text depends on the time zone; for a value
    that is no date it is "Invalid Date"). *)
Record Locale := mkLocale {
  toLocaleDateString : option value -> jsstring
}.

(** Fallback image if article doesn't have one *)
Definition placeholderImage : jsstring :=
  lit "https://via.placeholder.com/300x200?text=No+Image".

(** Format date to be more readable.  [new Date(v)] converts an object
    or an array to a primitive first, which throws where [ToString]
    does. *)
Definition formatDate (L : Locale) (dateString : option value) : Completion jsstring :=
  match dateString with
  | None => Return (toLocaleDateString L None)
  | Some v =>
      match to_string v with
      | Some _ => Return (toLocaleDateString L dateString)
      | None => Throw (TypeError (lit "Cannot convert object to primitive value"))
      end
  end.

(** The element the component returns, by the values of its
    expressions: the attributes [href] and [aria-label] of the two links
    (the same expressions in both), [src] and [alt] of the image, and the
    children of the title, the description, the source and the date. *)
Record Card := mkCard {
  href : option value;
  aria_label : jsstring;
  src : value;
  alt : option value;
  title : option value;
  description : value;
  source : option value;
  date : jsstring
}.

Definition NewsItem (L : Locale) (article : value) : Completion Card :=
  article_url <~ member (Some article) (lit "url") ;;
  article_title <~ member (Some article) (lit "title") ;;
  label <~ template article_title ;;
  article_urlToImage <~ member (Some article) (lit "urlToImage") ;;
  article_description <~ member (Some article) (lit "description") ;;
  article_source <~ member (Some article) (lit "source") ;;
  article_source_name <~ member article_source (lit "name") ;;
  article_publishedAt <~ member (Some article) (lit "publishedAt") ;;
  formatted <~ formatDate L article_publishedAt ;;
  Return (mkCard article_url
                 (lit "Read full article: " ++ label)
                 (or_else article_urlToImage (JStr placeholderImage))
                 article_title
                 article_title
                 (or_else article_description (JStr (lit "No description available")))
                 article_source_name
                 formatted).

End NewsItem.

(* ================================================================== *)
(** * [src/components/NewsList.jsx] *)
(* ================================================================== *)

Module NewsList.

Import Expression.

(** The four elements the component returns.  The results are the
    count, the noun after it and, for every article, the [key] and the
    [article] given to [NewsItem]. *)
Inductive View :=
| Loading
| ErrorMessage (error : jsstring)
| NoResults
| Results (count : option value) (noun : jsstring) (items : list (jsstring * value)).

(** [v === 1], on the numbers a length can be. *)
Definition strict_equals_one (v : option value) : bool :=
  match v with
  | Some (JNum m e) => (m =? 1) && (e =? 0)
  | _ => false
  end.

(** [articles.map((article, index) => ...)], the callback making the
    key [`${article.url}-${index}`]. *)
Fixpoint items_from (index : Z) (articles : list value)
  : Completion (list (jsstring * value)) :=
  match articles with
  | [] => Return []
  | article :: articles' =>
      article_url <~ member (Some article) (lit "url") ;;
      url_text <~ template article_url ;;
      items <~ items_from (index + 1) articles' ;;
      Return ((url_text ++ lit "-" ++ of_Z index, article) :: items)
  end.

Definition NewsList (articles : value) (loading : bool) (error : option jsstring)
  : Completion View :=
  (* Loading state *)
  if loading then Return Loading
  (* Error state *)
  else if truthy_string error then
    Return (ErrorMessage (match error with Some e => e | None => [] end))
  else
    (* No results *)
    articles_length <~ get articles p_length ;;
    if strict_equals_zero articles_length then Return NoResults
    else
      (* Results *)
      let noun := if strict_equals_one articles_length
                  then lit "article" else lit "articles" in
      match articles with
      | JArr l =>
          items <~ items_from 0 l ;;
          Return (Results articles_length noun items)
      | _ => Throw (TypeError (lit "articles.map is not a function"))
      end.

End NewsList.

(* ================================================================== *)
(** * [src/App.jsx] *)
(* ================================================================== *)

Module App.

Import Expression.

(** The four pieces of state: [articles], [loading], [error] (a message
    or [null]) and [hasSearched]. *)
Record State := mkState {
  articles : value;
  loading : bool;
  error : option jsstring;
  hasSearched : bool
}.

(** The initial values given to [useState]. *)
Definition initial : State := mkState (JArr []) false None false.

Definition setArticles (v : value) (st : State) : State :=
  mkState v (loading st) (error st) (hasSearched st).
Definition setLoading (b : bool) (st : State) : State :=
  mkState (articles st) b (error st) (hasSearched st).
Definition setError (e : option jsstring) (st : State) : State :=
  mkState (articles st) (loading st) e (hasSearched st).
Definition setHasSearched (b : bool) (st : State) : State :=
  mkState (articles st) (loading st) (error st) b.

(** A run of an asynchronous handler: the network calls of the function
    it awaits, what it does to the state before it suspends at the
    [await], and what it does to the state when it is resumed.  The
    handler reads no state: it only calls the setters. *)
Record Handling := mkHandling {
  requests : list Request;
  suspend : State -> State;
  resume : State -> State
}.

(** Lines 14-27 and 31-44, the same text in both handlers around the
    awaited call, whose run is [run]. *)
Definition handle (run : Run value) : Handling :=
  mkHandling
    (calls run)
    (fun st =>
       (* Reset state *)
       setHasSearched true (setError None (setLoading true st)))
    (fun st =>
       let st :=
         match completion run with
         | Return results => setArticles results st
         | Throw err => setArticles (JArr []) (setError (Some (message err)) st)
         end in
       (* finally *)
       setLoading false st).

Definition handleSearch (P : Platform) (API_KEY : option jsstring) (topic : jsstring)
  : Handling :=
  handle (NewsApi.fetchNews P API_KEY topic).

Definition handleLucky (P : Platform) (API_KEY : option jsstring) : Handling :=
  handle (NewsApi.fetchTopHeadlines P API_KEY).

(** [<SearchBar onSearch={handleSearch} onLucky={handleLucky} />] *)
Definition on (P : Platform) (API_KEY : option jsstring) (call : SearchBar.Call)
  : Handling :=
  match call with
  | SearchBar.onSearch topic => handleSearch P API_KEY topic
  | SearchBar.onLucky => handleLucky P API_KEY
  end.

(** The function a handler awaits. *)
Definition awaited (P : Platform) (API_KEY : option jsstring) (call : SearchBar.Call)
  : Run value :=
  match call with
  | SearchBar.onSearch topic => NewsApi.fetchNews P API_KEY topic
  | SearchBar.onLucky => NewsApi.fetchTopHeadlines P API_KEY
  end.

(** A handler run from start to end with no other in between, and
    handlers run in turn. *)
Definition complete (h : Handling) (st : State) : State := resume h (suspend h st).

Definition in_turn (hs : list Handling) (st : State) : State :=
  fold_left (fun st h => complete h st) hs st.

(** What the component shows below the search bar: the welcome text
    before the first search, the list afterwards. *)
Inductive Screen :=
| Welcome
| Listing (view : NewsList.View).

Definition render (st : State) : Completion Screen :=
  if hasSearched st then
    view <~ NewsList.NewsList (articles st) (loading st) (error st) ;;
    Return (Listing view)
  else Return Welcome.

End App.


(* ================================================================== *)
(** * The specification's words *)
(* ================================================================== *)

Module Spec.

(** The normalized Article of the specification's data model:
    [{ title, description (or absent), url, imageUrl (or absent),
       sourceName, publishedAt }]. *)
Definition Article_fields : list jsstring :=
  [lit "title"; lit "description"; lit "url"; lit "imageUrl";
   lit "sourceName"; lit "publishedAt"].

Definition Article_required : list jsstring :=
  [lit "title"; lit "url"; lit "sourceName"; lit "publishedAt"].

Definition has_field (props : list (jsstring * value)) (k : jsstring) : bool :=
  match lookup k props with Some _ => true | None => false end.

(** A record of the normalized shape: an object with the required fields
    and no field outside the six. *)
Definition is_Article (v : value) : bool :=
  match v with
  | JObj props =>
      forallb (has_field props) Article_required &&
      forallb (fun kv => existsb (JsString.eqb (fst kv)) Article_fields) props
  | _ => false
  end.

(** The kinds of the ErrorResult of the specification.  The errors of
    the program carry a message and no kind: the kind of an error is
    read from its message, [KOther] being that of any other message (the
    body's own message of an application-level error, an exception of
    the platform). *)
Inductive ErrorKind :=
| KInvalidCredential
| KRateLimited
| KUpstreamError
| KNetworkError
| KValidationError
| KConfigurationError
| KOther.

Definition kind_of (error : JsError) : ErrorKind :=
  let says (e : JsError) := JsString.eqb (message error) (message e) in
  if startsWith (message error) (lit "API error: ") then KUpstreamError
  else if says NewsApi.InvalidCredential then KInvalidCredential
  else if says NewsApi.RateLimited then KRateLimited
  else if says NewsApi.NetworkError then KNetworkError
  else if says NewsApi.ValidationError then KValidationError
  else if says NewsApi.ConfigurationError then KConfigurationError
  else KOther.

(** "Identical normalized Article lists or identical ErrorResult
    kinds": both strategies return, and the same list, or both fail, and
    with errors of the same kind. *)
Definition same_result (direct proxied : Completion value) : Prop :=
  match direct, proxied with
  | Return articles, Return articles' => articles = articles'
  | Throw error, Throw error' => kind_of error = kind_of error'
  | _, _ => False
  end.

End Spec.

(* ================================================================== *)
(** * Concrete inputs *)
(* ================================================================== *)

Module Sample.

(** A platform whose network answers every call with [outcome]; the
    clock (6 November 2025, 09:30 UTC, in the zone UTC) and the parser's
    wording are fixed. *)
Definition platform (outcome : Completion Response) : Platform :=
  mkPlatform (fun _ => outcome)
             1762421400000
             (fun _ _ => 0)
             (fun text => lit "Unexpected token " ++ firstn 1 text
                          ++ lit " in JSON at position 0").

Definition key : option jsstring := Some (lit "0123456789abcdef").

Definition responds (status : Z) (statusText : string) (body : jsstring)
  : Completion Response :=
  Return (mkResponse status (lit statusText) body).

Definition object (fields : list (string * value)) : value :=
  JObj (map (fun kv => (lit (fst kv), snd kv)) fields).

Definition text (s : string) : value := JStr (lit s).

(** An article as the upstream provider sends it and as the components
    read it ([article.urlToImage], [article.source.name]). *)
Definition article_value : value :=
  object [("source", object [("id", JNull); ("name", text "Example News")]);
          ("author", text "A. Writer");
          ("title", text "Headline");
          ("description", text "Summary");
          ("url", text "https://example.com/a");
          ("urlToImage", text "https://example.com/a.png");
          ("publishedAt", text "2025-11-05T08:00:00Z");
          ("content", text "Text")]%string.

Definition upstream_article : jsstring := Json.stringify article_value.

Definition one_article_data : value :=
  object [("status", text "ok"); ("totalResults", JNum 1 0);
          ("articles", JArr [article_value])]%string.

Definition one_article_body : jsstring := Json.stringify one_article_data.

Definition no_article_data : value :=
  object [("status", text "ok"); ("articles", JArr [])]%string.

(** The same data as the serialiser writes it, and with the spaces a
    pretty-printer puts in. *)
Definition no_article_body : jsstring := Json.stringify no_article_data.

Definition no_article_body_pretty : jsstring :=
  lit "{ " ++ Json.quote (lit "status") ++ lit ": " ++ Json.quote (lit "ok")
  ++ lit ", " ++ Json.quote (lit "articles") ++ lit ": [] }".

Definition key_invalid_body : jsstring :=
  Json.stringify (object [("status", text "error"); ("code", text "apiKeyInvalid");
                          ("message", text "Your API key is invalid.")]%string).

Definition failed_sources_body : jsstring :=
  Json.stringify (object [("status", text "error");
                          ("message", text "Failed to fetch sources")]%string).

Definition invalid_endpoint_body : jsstring :=
  Json.stringify (object [("error", text "Invalid endpoint")]%string).

Definition get_request (q : list (string * ApiNews.QueryValue)) : ApiNews.VercelRequest :=
  ApiNews.mkVercelRequest (lit "GET") (map (fun kv => (lit (fst kv), snd kv)) q).

(** The reason phrases of HTTP/1.1 for the statuses used below. *)
Definition reason (code : Z) : jsstring :=
  if code =? 200 then lit "OK"
  else if code =? 400 then lit "Bad Request"
  else if code =? 401 then lit "Unauthorized"
  else if code =? 404 then lit "Not Found"
  else if code =? 429 then lit "Too Many Requests"
  else if code =? 500 then lit "Internal Server Error"
  else [].

End Sample.

(* ================================================================== *)
(** * A network that answers by the request *)
(* ================================================================== *)

Module Scenario.

(** The upstream is down for the topic "down" and answers every other
    request with one article. *)
Definition fetch_by_topic (request : Request) : Completion Response :=
  if includes (url request) (lit "q=down")
  then Throw (TypeError (lit "Load failed"))
  else Sample.responds 200 "OK" Sample.one_article_body.

Definition platform : Platform :=
  mkPlatform fetch_by_topic
             1762421400000
             (fun _ _ => 0)
             (fun text => lit "Unexpected token " ++ firstn 1 text
                          ++ lit " in JSON at position 0").

(** A body whose [articles] is an object, not a list. *)
Definition articles_object : value :=
  Sample.object [("0", Sample.article_value)]%string.

Definition articles_object_data : value :=
  Sample.object [("status", Sample.text "ok"); ("articles", articles_object)]%string.

End Scenario.


(* ================================================================== *)
(** * Proof tools *)
(* ================================================================== *)

Ltac Zify.zify_post_hook ::= Z.div_mod_to_equations.

Ltac bool_to_prop :=
  repeat match goal with
  | H : _ && _ = true |- _ => apply andb_true_iff in H; destruct H
  | H : _ || _ = false |- _ => apply orb_false_iff in H; destruct H
  | H : negb _ = true |- _ => apply negb_true_iff in H
  | H : negb _ = false |- _ => apply negb_false_iff in H
  | H : (_ <=? _) = true |- _ => apply Z.leb_le in H
  | H : (_ <=? _) = false |- _ => apply Z.leb_gt in H
  | H : (_ <? _) = true |- _ => apply Z.ltb_lt in H
  | H : (_ <? _) = false |- _ => apply Z.ltb_ge in H
  | H : (_ =? _) = true |- _ => apply Z.eqb_eq in H
  | H : (_ =? _) = false |- _ => apply Z.eqb_neq in H
  end.

(** Decide the integer comparisons of the goal that the context settles. *)
Ltac decide_tests :=
  repeat match goal with
  | |- context [?a <? ?b] =>
      first [ replace (a <? b) with true by (symmetry; apply Z.ltb_lt; lia)
            | replace (a <? b) with false by (symmetry; apply Z.ltb_ge; lia) ]
  | |- context [?a <=? ?b] =>
      first [ replace (a <=? b) with true by (symmetry; apply Z.leb_le; lia)
            | replace (a <=? b) with false by (symmetry; apply Z.leb_gt; lia) ]
  | |- context [?a =? ?b] =>
      first [ replace (a =? b) with true by (symmetry; apply Z.eqb_eq; lia)
            | replace (a =? b) with false by (symmetry; apply Z.eqb_neq; lia) ]
  end.

Lemma strong_list_ind {A} (P : list A -> Prop) :
  (forall l, (forall l', (List.length l' < List.length l)%nat -> P l') -> P l) ->
  forall l, P l.
Proof.
  intros step l. remember (List.length l) as n eqn:Hn.
  revert l Hn. induction n as [n IH] using lt_wf_ind.
  intros l ->. apply step. intros l' Hl'. eapply IH; eauto.
Qed.

Lemma eqb_eq a b : JsString.eqb a b = true <-> a = b.
Proof.
  revert b. induction a as [|x a IH]; intros [|y b]; cbn; split;
    try congruence; intros H.
  - apply andb_true_iff in H. destruct H as [H1 H2].
    apply Z.eqb_eq in H1. apply IH in H2. congruence.
  - injection H as -> ->. rewrite Z.eqb_refl. apply IH. reflexivity.
Qed.

Lemma eqb_refl a : JsString.eqb a a = true.
Proof. apply eqb_eq. reflexivity. Qed.

Lemma eqb_neq a b : JsString.eqb a b = false <-> a <> b.
Proof.
  split.
  - intros H E. apply eqb_eq in E. congruence.
  - intros H. destruct (JsString.eqb a b) eqn:E; [|reflexivity].
    apply eqb_eq in E. contradiction.
Qed.

(* ================================================================== *)
(** * Facts: URI component encoding *)
(* ================================================================== *)

Module UriFacts.
Import Uri.

Lemma hex_value_hex_digit d :
  0 <= d < 16 -> hex_value (hex_digit d) = Some d.
Proof.
  intros H. unfold hex_value, hex_digit.
  destruct (Z.ltb_spec d 10); decide_tests; cbn [andb]; f_equal; lia.
Qed.

Lemma unescape_percent b rest :
  0 <= b < 256 ->
  unescape (percent b ++ rest) = option_map (cons (Octet b)) (unescape rest).
Proof.
  intros H. unfold percent. cbn [app unescape]. rewrite Z.eqb_refl.
  rewrite !hex_value_hex_digit by lia.
  replace (16 * (b / 16) + b mod 16) with b by lia. reflexivity.
Qed.

Lemma unescape_percent_all bs rest :
  Forall is_octet bs ->
  unescape (percent_all bs ++ rest)
  = option_map (app (map Octet bs)) (unescape rest).
Proof.
  induction 1 as [|b bs Hb _ IH]; cbn [percent_all flat_map map app].
  - destruct (unescape rest); reflexivity.
  - rewrite <- app_assoc, unescape_percent by exact Hb.
    fold (percent_all bs). rewrite IH. destruct (unescape rest); reflexivity.
Qed.

Lemma utf8_octets cp : 0 <= cp <= 0x10FFFF -> Forall is_octet (utf8 cp).
Proof.
  intros H. unfold utf8, is_octet.
  destruct (Z.ltb_spec cp 0x80); [|destruct (Z.ltb_spec cp 0x800);
    [|destruct (Z.ltb_spec cp 0x10000)]];
    repeat constructor; lia.
Qed.

Lemma utf8_decode_utf8 cp ts :
  0 <= cp <= 0x10FFFF -> is_surrogate cp = false ->
  utf8_decode (map Octet (utf8 cp) ++ ts)
  = option_map (app (utf16 cp)) (utf8_decode ts).
Proof.
  intros H Hs. unfold is_surrogate in Hs.
  apply andb_false_iff in Hs.
  assert (Hs' : cp < 0xD800 \/ 0xDFFF < cp) by (destruct Hs; bool_to_prop; lia).
  clear Hs. unfold utf8.
  destruct (Z.ltb_spec cp 0x80); [|destruct (Z.ltb_spec cp 0x800);
    [|destruct (Z.ltb_spec cp 0x10000)]];
    cbn [map app utf8_decode]; unfold continuation, is_surrogate;
    decide_tests; cbn [andb negb].
  - unfold utf16. decide_tests. destruct (utf8_decode ts); reflexivity.
  - replace ((0xC0 + cp / 0x40 - 0xC0) * 0x40 + (0x80 + cp mod 0x40 - 0x80)) with cp by lia.
    reflexivity.
  - replace ((0xE0 + cp / 0x1000 - 0xE0) * 0x1000 + (0x80 + (cp / 0x40) mod 0x40 - 0x80) * 0x40
             + (0x80 + cp mod 0x40 - 0x80)) with cp by lia.
    destruct Hs'; decide_tests; cbn [andb negb]; reflexivity.
  - replace ((0xF0 + cp / 0x40000 - 0xF0) * 0x40000
             + (0x80 + (cp / 0x1000) mod 0x40 - 0x80) * 0x1000
             + (0x80 + (cp / 0x40) mod 0x40 - 0x80) * 0x40
             + (0x80 + cp mod 0x40 - 0x80)) with cp by lia.
    decide_tests. cbn [andb negb]. reflexivity.
Qed.

Lemma code_point_range hi lo :
  is_high_surrogate hi = true -> is_low_surrogate lo = true ->
  0x10000 <= code_point hi lo <= 0x10FFFF.
Proof.
  unfold is_high_surrogate, is_low_surrogate, code_point. intros; bool_to_prop. lia.
Qed.

Lemma utf16_code_point hi lo :
  is_high_surrogate hi = true -> is_low_surrogate lo = true ->
  utf16 (code_point hi lo) = [hi; lo].
Proof.
  intros Hh Hl. pose proof (code_point_range _ _ Hh Hl) as R.
  unfold utf16. decide_tests.
  unfold is_high_surrogate, is_low_surrogate, code_point in *. bool_to_prop.
  f_equal; [|f_equal]; lia.
Qed.

Lemma unreserved_not_percent c : unreserved c = true -> (c =? 37) = false.
Proof.
  intros H. apply Z.eqb_neq. intros ->. discriminate H.
Qed.

(** Encoding a well-formed string succeeds, and the escapes of the
    result decode to the string. *)
Lemma encode_decode T :
  isWellFormed T = true ->
  exists q ts, encode T = Some q /\ unescape q = Some ts /\ utf8_decode ts = Some T.
Proof.
  induction T as [T IH] using strong_list_ind. intros WF.
  destruct T as [|c T']; [exists [], []; auto|].
  cbn [isWellFormed] in WF. cbn [encode].
  destruct (is_code_unit c) eqn:Hc; [|discriminate]. cbn [negb] in WF.
  unfold is_code_unit in Hc. bool_to_prop.
  destruct (unreserved c) eqn:Hu.
  - assert (WF' : isWellFormed T' = true).
    { destruct (is_high_surrogate c) eqn:Hh.
      - exfalso. unfold is_high_surrogate in Hh. bool_to_prop.
        unfold unreserved, is_alpha, is_digit in Hu.
        revert Hu. decide_tests. discriminate.
      - destruct (is_low_surrogate c) eqn:Hl; [discriminate|exact WF]. }
    destruct (IH T') as (q & ts & E & U & D); [cbn; lia|exact WF'|].
    exists (c :: q), (Unit c :: ts). rewrite E. cbn [option_map unescape].
    rewrite (unreserved_not_percent _ Hu), U. cbn [option_map utf8_decode].
    rewrite D. auto.
  - destruct (is_high_surrogate c) eqn:Hh.
    + destruct T' as [|d T'']; [discriminate|].
      destruct (is_low_surrogate d) eqn:Hl; [|discriminate]. cbn [andb] in WF.
      destruct (IH T'') as (q & ts & E & U & D); [cbn; lia|exact WF|].
      pose proof (code_point_range _ _ Hh Hl) as R.
      exists (percent_all (utf8 (code_point c d)) ++ q),
             (map Octet (utf8 (code_point c d)) ++ ts).
      rewrite E. cbn [option_map]. split; [reflexivity|].
      rewrite unescape_percent_all by (apply utf8_octets; lia).
      rewrite U. cbn [option_map]. split; [reflexivity|].
      rewrite utf8_decode_utf8; [|lia|unfold is_surrogate; decide_tests; reflexivity].
      rewrite D. cbn [option_map]. rewrite utf16_code_point by assumption. reflexivity.
    + destruct (is_low_surrogate c) eqn:Hl; [discriminate|].
      destruct (IH T') as (q & ts & E & U & D); [cbn; lia|exact WF|].
      exists (percent_all (utf8 c) ++ q), (map Octet (utf8 c) ++ ts).
      rewrite E. cbn [option_map]. split; [reflexivity|].
      rewrite unescape_percent_all by (apply utf8_octets; lia).
      rewrite U. cbn [option_map]. split; [reflexivity|].
      rewrite utf8_decode_utf8; [|lia|].
      * rewrite D. cbn [option_map]. unfold utf16. decide_tests. reflexivity.
      * unfold is_high_surrogate, is_low_surrogate, is_surrogate in *.
        apply andb_false_iff in Hh, Hl. apply andb_false_iff.
        destruct Hh, Hl; bool_to_prop; first [left; apply Z.leb_gt; lia | right; apply Z.leb_gt; lia].
Qed.

Theorem decodeURIComponent_encodeURIComponent T :
  isWellFormed T = true ->
  exists q, encodeURIComponent T = Return q /\ decodeURIComponent q = Return T.
Proof.
  intros WF. destruct (encode_decode T WF) as (q & ts & E & U & D).
  exists q. unfold encodeURIComponent, decodeURIComponent, decode.
  rewrite E, U, D. auto.
Qed.

Lemma hex_digit_uri_char d : 0 <= d < 16 -> uri_char (hex_digit d) = true.
Proof.
  intros H. unfold uri_char, unreserved, is_alpha, is_digit, hex_digit.
  destruct (Z.ltb_spec d 10); decide_tests; reflexivity.
Qed.

Lemma percent_all_uri_char bs :
  Forall is_octet bs -> forallb uri_char (percent_all bs) = true.
Proof.
  induction 1 as [|b bs Hb _ IH]; [reflexivity|].
  unfold is_octet in Hb.
  cbn [percent_all flat_map percent app forallb].
  fold (percent_all bs). rewrite IH, !hex_digit_uri_char by lia. reflexivity.
Qed.

Lemma encode_uri_chars T q :
  forallb is_code_unit T = true -> encode T = Some q -> forallb uri_char q = true.
Proof.
  revert q. induction T as [T IH] using strong_list_ind. intros q R E.
  destruct T as [|c T']; [injection E as <-; reflexivity|].
  cbn [forallb] in R. apply andb_true_iff in R. destruct R as [Hc R].
  unfold is_code_unit in Hc. bool_to_prop.
  cbn [encode] in E.
  destruct (unreserved c) eqn:Hu.
  - destruct (encode T') as [q'|] eqn:E'; [|discriminate]. injection E as <-.
    cbn [forallb]. unfold uri_char at 1. rewrite Hu. cbn [orb andb].
    apply (IH T'); [cbn; lia|exact R|exact E'].
  - destruct (is_high_surrogate c) eqn:Hh.
    + destruct T' as [|d T'']; [discriminate|].
      destruct (is_low_surrogate d) eqn:Hl; [|discriminate].
      destruct (encode T'') as [q'|] eqn:E'; [|discriminate]. injection E as <-.
      cbn [forallb] in R. apply andb_true_iff in R. destruct R as [_ R].
      rewrite forallb_app, percent_all_uri_char.
      * apply (IH T''); [cbn; lia|exact R|exact E'].
      * apply utf8_octets. pose proof (code_point_range _ _ Hh Hl). lia.
    + destruct (is_low_surrogate c) eqn:Hl; [discriminate|].
      destruct (encode T') as [q'|] eqn:E'; [|discriminate]. injection E as <-.
      rewrite forallb_app, percent_all_uri_char.
      * apply (IH T'); [cbn; lia|exact R|exact E'].
      * apply utf8_octets. lia.
Qed.

Lemma isWellFormed_code_units T :
  isWellFormed T = true -> forallb is_code_unit T = true.
Proof.
  induction T as [T IH] using strong_list_ind. intros WF.
  destruct T as [|c T']; [reflexivity|].
  cbn [isWellFormed forallb] in *.
  destruct (is_code_unit c) eqn:Hc; [|discriminate]. cbn [negb andb] in *.
  destruct (is_high_surrogate c) eqn:Hh.
  - destruct T' as [|d T'']; [discriminate|].
    apply andb_true_iff in WF. destruct WF as [Hl WF].
    cbn [forallb]. rewrite (IH T'') by (cbn; lia || exact WF).
    unfold is_low_surrogate, is_code_unit in *. bool_to_prop.
    decide_tests. reflexivity.
  - destruct (is_low_surrogate c); [discriminate|]. apply IH; [cbn; lia|exact WF].
Qed.

End UriFacts.

(* ================================================================== *)
(** * Facts: [JSON.parse] and [JSON.stringify] *)
(* ================================================================== *)

(** ** The parser terminates within its fuel *)

Module JsonFacts.
Import Json.

Lemma skip_ws_length s : (List.length (skip_ws s) <= List.length s)%nat.
Proof.
  induction s as [|c s IH]; cbn [skip_ws]; [lia|].
  destruct (is_ws c); cbn [List.length] in *; lia.
Qed.

Lemma skip_ws_cons s c r : skip_ws s = c :: r -> (List.length r < List.length s)%nat.
Proof.
  intros H. pose proof (skip_ws_length s) as L. rewrite H in L. cbn in L. lia.
Qed.

Lemma span_digits_length s ds r :
  span_digits s = (ds, r) -> (List.length ds + List.length r = List.length s)%nat.
Proof.
  revert ds r. induction s as [|c s IH]; cbn [span_digits]; intros ds r H.
  - injection H as <- <-. reflexivity.
  - destruct (is_digit c).
    + destruct (span_digits s) as [ds' r'] eqn:E. injection H as <- <-.
      specialize (IH _ _ eq_refl). cbn [List.length]. lia.
    + injection H as <- <-. reflexivity.
Qed.

Lemma parse_string_length s t r :
  parse_string s = Some (t, r) -> (List.length r < List.length s)%nat.
Proof.
  revert t r. induction s as [s IH] using strong_list_ind. intros t r H.
  destruct s as [|c s]; [discriminate|]. cbn [parse_string] in H.
  destruct (c =? 34). { injection H as <- <-. cbn. lia. }
  destruct (c =? 92).
  - destruct s as [|x s]; [discriminate|].
    assert (simple : forall u t r,
               match parse_string s with
               | Some (t, rest) => Some (u :: t, rest)
               | None => None
               end = Some (t, r) -> (List.length r < List.length (c :: x :: s))%nat).
    { intros u t0 r0 H0. destruct (parse_string s) as [[t1 r1]|] eqn:E; [|discriminate].
      injection H0 as <- <-. apply IH in E; cbn [List.length] in *; lia. }
    repeat match type of H with
           | (if ?b then _ else _) = _ => destruct b; [eapply simple; exact H|]
           end.
    destruct (x =? 117); [|discriminate].
    destruct s as [|h1 [|h2 [|h3 [|h4 s]]]]; try discriminate.
    destruct (hex_value h1), (hex_value h2), (hex_value h3), (hex_value h4);
      try discriminate.
    destruct (parse_string s) as [[t1 r1]|] eqn:E; [|discriminate].
    injection H as <- <-. apply IH in E; cbn [List.length] in *; lia.
  - destruct (c <? 32); [discriminate|].
    destruct (parse_string s) as [[t1 r1]|] eqn:E; [|discriminate].
    injection H as <- <-. apply IH in E; cbn [List.length] in *; lia.
Qed.

Lemma read_fraction_length s fp r :
  read_fraction s = Some (fp, r) -> (List.length r <= List.length s)%nat.
Proof.
  unfold read_fraction. destruct s as [|c s]; [intros [= <- <-]; lia|].
  destruct (c =? 46); [|intros [= <- <-]; lia].
  destruct (span_digits s) as [fp' r'] eqn:E. apply span_digits_length in E.
  destruct fp'; [discriminate|]. intros [= <- <-]. cbn [List.length] in *. lia.
Qed.

Lemma read_exponent_length s x r :
  read_exponent s = Some (x, r) -> (List.length r <= List.length s)%nat.
Proof.
  unfold read_exponent. destruct s as [|c s]; [intros [= <- <-]; lia|].
  destruct ((c =? 101) || (c =? 69)); [|intros [= <- <-]; lia].
  set (sg := match s with
             | x :: r' => _
             | [] => (1, s)
             end).
  assert (Hg : (List.length (snd sg) <= List.length s)%nat).
  { subst sg. destruct s as [|y s']; [cbn; lia|].
    destruct (y =? 43); [cbn; lia|]. destruct (y =? 45); cbn; lia. }
  destruct sg as [g r1]. cbn [snd] in Hg.
  destruct (span_digits r1) as [ep r'] eqn:E. apply span_digits_length in E.
  destruct ep; [discriminate|]. intros [= <- <-]. cbn [List.length] in *. lia.
Qed.

Lemma parse_number_length s v r :
  parse_number s = Some (v, r) -> (List.length r < List.length s)%nat.
Proof.
  unfold parse_number. intros H.
  assert (Hs : (List.length (snd (read_sign s)) <= List.length s)%nat).
  { unfold read_sign. destruct s as [|c s0]; [cbn; lia|]. destruct (c =? 45); cbn; lia. }
  destruct (read_sign s) as [neg s1]. cbn [snd] in Hs.
  destruct (span_digits s1) as [ip s2] eqn:E1. apply span_digits_length in E1.
  destruct ip as [|d ip']; [discriminate|]. cbn [List.length] in E1.
  destruct (leading_zero (d :: ip')); [discriminate|].
  destruct (read_fraction s2) as [[fp s3]|] eqn:F; [|discriminate].
  apply read_fraction_length in F.
  destruct (read_exponent s3) as [[x s4]|] eqn:X; [|discriminate].
  apply read_exponent_length in X.
  destruct (normalize _ _). injection H as <- <-. lia.
Qed.

Lemma expect_length word v s v' r :
  word <> [] -> expect word v s = Ok v' r -> (List.length r < List.length s)%nat.
Proof.
  unfold expect. intros W H. destruct (startsWith s word) eqn:E; [|discriminate].
  injection H as <- <-.
  destruct word as [|w word]; [contradiction|].
  destruct s as [|c s]; [discriminate E|].
  cbn [List.length skipn]. pose proof (length_skipn (List.length word) s). lia.
Qed.

(** The three parsers, given fuel beyond twice the length of their input,
    do not run out of it, and what they leave is shorter than the input. *)
Lemma parsers_within_fuel n :
  (forall s, (2 * List.length s < n)%nat ->
     parse_value n s <> OutOfFuel
     /\ forall v r, parse_value n s = Ok v r -> (List.length r < List.length s)%nat)
  /\ (forall s acc, (2 * List.length s + 1 < n)%nat ->
        parse_elements n s acc <> OutOfFuel
        /\ forall v r, parse_elements n s acc = Ok v r -> (List.length r < List.length s)%nat)
  /\ (forall s props, (2 * List.length s + 1 < n)%nat ->
        parse_members n s props <> OutOfFuel
        /\ forall v r, parse_members n s props = Ok v r -> (List.length r < List.length s)%nat).
Proof.
  induction n as [|n (IHv & IHe & IHm)].
  { repeat split; intros; lia. }
  split; [|split].
  - intros s Hn. cbn [parse_value].
    destruct (skip_ws s) as [|c r] eqn:E; [split; [discriminate|discriminate]|].
    apply skip_ws_cons in E.
    destruct (c =? 123).
    { destruct (closes 125 (skip_ws r)) eqn:Cl.
      - split; [discriminate|]. intros v r0 [= <- <-].
        pose proof (skip_ws_length r). destruct (skip_ws r); cbn [List.length] in *; lia.
      - destruct (IHm r [] ltac:(lia)) as [A B]. split; [exact A|].
        intros v r0 H. apply B in H. lia. }
    destruct (c =? 91).
    { destruct (closes 93 (skip_ws r)) eqn:Cl.
      - split; [discriminate|]. intros v r0 [= <- <-].
        pose proof (skip_ws_length r). destruct (skip_ws r); cbn [List.length] in *; lia.
      - destruct (IHe r [] ltac:(lia)) as [A B]. split; [exact A|].
        intros v r0 H. apply B in H. lia. }
    destruct (c =? 34).
    { destruct (parse_string r) as [[t rest]|] eqn:P; split; try discriminate.
      intros v r0 [= <- <-]. apply parse_string_length in P. lia. }
    assert (X : forall word v0, word <> [] ->
                expect word v0 (c :: r) <> OutOfFuel
                /\ forall v r0, expect word v0 (c :: r) = Ok v r0 -> (List.length r0 < List.length s)%nat).
    { intros word v0 W. split.
      - unfold expect. destruct (startsWith _ _); discriminate.
      - intros v r0 H. apply expect_length in H; [|exact W]. cbn [List.length] in H. lia. }
    destruct (c =? 110); [apply X; discriminate|].
    destruct (c =? 116); [apply X; discriminate|].
    destruct (c =? 102); [apply X; discriminate|].
    destruct (parse_number (c :: r)) as [[v rest]|] eqn:P; split; try discriminate.
    intros v0 r0 [= <- <-]. apply parse_number_length in P. cbn [List.length] in P. lia.
  - intros s acc Hn. cbn [parse_elements].
    destruct (IHv s ltac:(lia)) as [A B].
    destruct (parse_value n s) as [v r| |] eqn:P; [|split; discriminate|contradiction].
    specialize (B _ _ eq_refl).
    destruct (skip_ws r) as [|c r'] eqn:E; [split; discriminate|].
    apply skip_ws_cons in E.
    destruct (c =? 44).
    { destruct (IHe r' (v :: acc) ltac:(lia)) as [A' B']. split; [exact A'|].
      intros v0 r0 H. apply B' in H. lia. }
    destruct (c =? 93); split; try discriminate.
    intros v0 r0 [= <- <-]. lia.
  - intros s props Hn. cbn [parse_members].
    destruct (skip_ws s) as [|c r] eqn:E; [split; discriminate|].
    apply skip_ws_cons in E.
    destruct (c =? 34); [|split; discriminate].
    destruct (parse_string r) as [[k r1]|] eqn:P; [|split; discriminate].
    apply parse_string_length in P.
    destruct (skip_ws r1) as [|c1 r2] eqn:E1; [split; discriminate|].
    apply skip_ws_cons in E1.
    destruct (c1 =? 58); [|split; discriminate].
    destruct (IHv r2 ltac:(lia)) as [A B].
    destruct (parse_value n r2) as [v r3| |] eqn:PV; [|split; discriminate|contradiction].
    specialize (B _ _ eq_refl).
    destruct (skip_ws r3) as [|c3 r4] eqn:E3; [split; discriminate|].
    apply skip_ws_cons in E3.
    destruct (c3 =? 44).
    { destruct (IHm r4 (define_property k v props) ltac:(lia)) as [A' B'].
      split; [exact A'|]. intros v0 r0 H. apply B' in H. lia. }
    destruct (c3 =? 125); split; try discriminate.
    intros v0 r0 [= <- <-]. lia.
Qed.

(** [JSON.parse] decides every text: the fuel it gives is enough. *)
Theorem parse_never_out_of_fuel text : parse_with_fuel text <> OutOfFuel.
Proof.
  unfold parse_with_fuel.
  destruct (parsers_within_fuel (2 * List.length text + 1)) as (V & _ & _).
  destruct (V text ltac:(lia)) as [A _].
  destruct (parse_value _ text) as [v r| |]; [|discriminate|contradiction].
  destruct (skip_ws r); discriminate.
Qed.

End JsonFacts.

(** ** Numbers *)

Module NumberFacts.
Import Json.

Lemma log2_div10 z : 10 <= z -> Z.log2 (z / 10) < Z.log2 z.
Proof.
  intros H. assert (P : 0 < z / 10) by (apply Z.div_str_pos; lia).
  pose proof (Z.log2_double (z / 10) P) as D.
  assert (L : Z.log2 (2 * (z / 10)) <= Z.log2 z) by (apply Z.log2_le_mono; lia).
  lia.
Qed.

Lemma digits_to_Z_snoc ds d : digits_to_Z (ds ++ [d]) = 10 * digits_to_Z ds + (d - 48).
Proof. unfold digits_to_Z. rewrite fold_left_app. reflexivity. Qed.

Lemma forallb_snoc {A} (f : A -> bool) l x :
  forallb f (l ++ [x]) = forallb f l && f x.
Proof. rewrite forallb_app. cbn. rewrite andb_true_r. reflexivity. Qed.

(** The digits of a natural number spell it, without a leading zero. *)
Lemma digits_of_spec f z :
  0 <= z -> Z.log2 z < Z.of_nat f ->
  digits_to_Z (digits_of f z) = z
  /\ forallb is_digit (digits_of f z) = true
  /\ (exists d ds, digits_of f z = d :: ds /\ (0 < z -> d <> 48)
                   /\ (z = 0 -> ds = []))
  /\ last (digits_of f z) 0 = 48 + z mod 10.
Proof.
  revert z. induction f as [|f IH]; intros z Hz Hf.
  { pose proof (Z.log2_nonneg z). lia. }
  cbn [digits_of]. destruct (Z.ltb_spec z 10) as [Hlt|Hge].
  - unfold digits_to_Z, is_digit. cbn [fold_left forallb last].
    repeat split.
    + lia.
    + decide_tests. reflexivity.
    + exists (48 + z), []. split; [reflexivity|]. split; [lia|reflexivity].
    + rewrite Z.mod_small by lia. reflexivity.
  - pose proof (log2_div10 z Hge) as L.
    destruct (IH (z / 10)) as (V & D & (d & ds & E & N & _) & _);
      [apply Z.div_pos; lia|lia|].
    repeat split.
    + rewrite digits_to_Z_snoc, V. lia.
    + rewrite forallb_snoc, D. unfold is_digit. decide_tests. reflexivity.
    + exists d, (ds ++ [48 + z mod 10]). rewrite E. split; [reflexivity|]. split.
      * intros _. apply N. apply Z.div_str_pos. lia.
      * lia.
    + rewrite last_last. reflexivity.
Qed.

Lemma digits_spec z :
  0 <= z ->
  digits_to_Z (digits z) = z
  /\ forallb is_digit (digits z) = true
  /\ (exists d ds, digits z = d :: ds /\ (0 < z -> d <> 48) /\ (z = 0 -> ds = []))
  /\ last (digits z) 0 = 48 + z mod 10.
Proof.
  intros H. apply digits_of_spec; [exact H|].
  pose proof (Z.log2_nonneg z). lia.
Qed.

(** Reading digits with an accumulator. *)
Lemma fold_digits_app acc a b :
  fold_left (fun acc c => 10 * acc + (c - 48)) (a ++ b) acc
  = fold_left (fun acc c => 10 * acc + (c - 48)) b
              (fold_left (fun acc c => 10 * acc + (c - 48)) a acc).
Proof. apply fold_left_app. Qed.

Lemma fold_digits_zeros acc j :
  0 <= j ->
  fold_left (fun acc c => 10 * acc + (c - 48)) (zeros j) acc = acc * 10 ^ j.
Proof.
  intros Hj. unfold zeros. rewrite <- (Z2Nat.id j) at 2 by exact Hj.
  generalize (Z.to_nat j) as n. intros n. revert acc.
  induction n as [|n IH]; intros acc; cbn [repeat fold_left].
  - cbn. lia.
  - rewrite IH. rewrite Nat2Z.inj_succ, Z.pow_succ_r by lia. lia.
Qed.

Lemma digits_to_Z_zeros_r ds j :
  0 <= j -> digits_to_Z (ds ++ zeros j) = digits_to_Z ds * 10 ^ j.
Proof.
  intros Hj. unfold digits_to_Z. rewrite fold_digits_app, fold_digits_zeros by exact Hj.
  reflexivity.
Qed.

Lemma digits_to_Z_zeros_l ds j :
  0 <= j -> digits_to_Z (zeros j ++ ds) = digits_to_Z ds.
Proof.
  intros Hj. unfold digits_to_Z. rewrite fold_digits_app, fold_digits_zeros by exact Hj.
  reflexivity.
Qed.

Lemma zeros_digits j : forallb is_digit (zeros j) = true.
Proof.
  unfold zeros. induction (Z.to_nat j) as [|n IH]; [reflexivity|]. cbn. exact IH.
Qed.

Lemma zeros_length j : 0 <= j -> Z.of_nat (List.length (zeros j)) = j.
Proof. intros H. unfold zeros. rewrite repeat_length. lia. Qed.

(** [span_digits] takes the digits up to the first code unit that is not
    one. *)
Lemma span_digits_app ds rest :
  forallb is_digit ds = true -> stops rest -> span_digits (ds ++ rest) = (ds, rest).
Proof.
  intros D S. induction ds as [|d ds IH]; cbn [app span_digits forallb] in *.
  - destruct rest as [|c rest]; [reflexivity|]. cbn in S. cbn [span_digits].
    rewrite S. reflexivity.
  - apply andb_true_iff in D. destruct D as [D1 D2]. rewrite D1, IH by exact D2.
    reflexivity.
Qed.

(** Stripping trailing zeros. *)
Lemma strip_zeros_nonzero fuel m e :
  m mod 10 <> 0 -> strip_zeros (S fuel) m e = (m, e).
Proof.
  intros H. cbn [strip_zeros].
  assert (m <> 0) by (intros ->; apply H; reflexivity).
  decide_tests. reflexivity.
Qed.

Lemma log2_abs_div10 m :
  m <> 0 -> m mod 10 = 0 -> Z.log2 (Z.abs (m / 10)) < Z.log2 (Z.abs m).
Proof.
  intros N D.
  assert (A : Z.abs (m / 10) = Z.abs m / 10) by lia.
  rewrite A. apply log2_div10. lia.
Qed.

Lemma strip_zeros_spec fuel m e :
  m <> 0 -> Z.log2 (Z.abs m) < Z.of_nat fuel ->
  exists m' j, strip_zeros fuel m e = (m', e + j)
               /\ m' mod 10 <> 0 /\ 0 <= j /\ m = m' * 10 ^ j.
Proof.
  revert m e. induction fuel as [|fuel IH]; intros m e N L.
  { pose proof (Z.log2_nonneg (Z.abs m)). lia. }
  cbn [strip_zeros]. destruct (Z.eqb_spec m 0) as [|_]; [contradiction|].
  destruct (Z.eqb_spec (m mod 10) 0) as [D|D].
  - pose proof (log2_abs_div10 m N D) as L'.
    destruct (IH (m / 10) (e + 1)) as (m' & j & E & M & J & V); [lia|lia|].
    exists m', (j + 1). rewrite E. repeat split; try lia.
    + f_equal. lia.
    + rewrite Z.pow_add_r by lia. lia.
  - exists m, 0. repeat split; try lia. f_equal. lia.
Qed.

Lemma pow10_mod j : 0 < j -> forall m, (m * 10 ^ j) mod 10 = 0.
Proof.
  intros H m. replace j with (1 + (j - 1)) by lia.
  rewrite Z.pow_add_r by lia. change (10 ^ 1) with 10.
  replace (m * (10 * 10 ^ (j - 1))) with (m * 10 ^ (j - 1) * 10) by lia.
  apply Z.mod_mul. lia.
Qed.

(** A number is in normal form when it is [0 * 10^0] or its mantissa does
    not end in zero. *)
Lemma normalize_normal m e :
  m mod 10 <> 0 -> normalize m e = (m, e).
Proof. intros H. unfold normalize. apply strip_zeros_nonzero, H. Qed.

Lemma normalize_zero e : normalize 0 e = (0, 0).
Proof. reflexivity. Qed.

Lemma pow10_pos j : 0 <= j -> 0 < 10 ^ j.
Proof. intros. apply Z.pow_pos_nonneg; lia. Qed.

Lemma pow10_injective m m' j j' :
  m mod 10 <> 0 -> m' mod 10 <> 0 -> 0 <= j -> 0 <= j' ->
  m * 10 ^ j = m' * 10 ^ j' -> m = m' /\ j = j'.
Proof.
  intros M M' J J' E.
  assert (j = j').
  { destruct (Z.lt_trichotomy j j') as [L|[L|L]]; [|exact L|]; exfalso.
    - replace j' with (j + (j' - j)) in E by lia.
      rewrite Z.pow_add_r in E by lia.
      pose proof (pow10_pos j J).
      assert (m = m' * 10 ^ (j' - j)) by nia.
      apply M. subst m. apply pow10_mod. lia.
    - replace j with (j' + (j - j')) in E by lia.
      rewrite Z.pow_add_r in E by lia.
      pose proof (pow10_pos j' J').
      assert (m' = m * 10 ^ (j - j')) by nia.
      apply M'. subst m'. apply pow10_mod. lia. }
  subst j'. split; [|reflexivity]. pose proof (pow10_pos j J). nia.
Qed.

Lemma normalize_scaled m j :
  m mod 10 <> 0 -> 0 <= j -> normalize (m * 10 ^ j) 0 = (m, j).
Proof.
  intros M J. unfold normalize.
  assert (N : m * 10 ^ j <> 0).
  { pose proof (pow10_pos j J). assert (m <> 0) by (intros ->; apply M; reflexivity). nia. }
  destruct (strip_zeros_spec (S (Z.to_nat (Z.log2 (Z.abs (m * 10 ^ j))))) (m * 10 ^ j) 0 N)
    as (m' & j' & E & M' & J' & V).
  { pose proof (Z.log2_nonneg (Z.abs (m * 10 ^ j))). lia. }
  rewrite E. destruct (pow10_injective m m' j j' M M' J J' V) as [-> ->].
  reflexivity.
Qed.

Lemma normalize_is_normal m e m' e' :
  normalize m e = (m', e') -> (m' = 0 /\ e' = 0) \/ m' mod 10 <> 0.
Proof.
  unfold normalize. intros H. destruct (Z.eq_dec m 0) as [->|N].
  - cbn in H. injection H as <- <-. left. auto.
  - destruct (strip_zeros_spec (S (Z.to_nat (Z.log2 (Z.abs m)))) m e N)
      as (m1 & j & E & M & _).
    { pose proof (Z.log2_nonneg (Z.abs m)). lia. }
    rewrite E in H. injection H as <- <-. right. exact M.
Qed.


Lemma delimited_stops rest : delimited rest -> stops rest.
Proof.
  destruct rest as [|c rest]; [trivial|]. cbn. intros [ -> | [ -> | -> ] ]; reflexivity.
Qed.

Lemma read_fraction_absent rest :
  match rest with [] => True | c :: _ => c <> 46 end ->
  read_fraction rest = Some ([], rest).
Proof.
  destruct rest as [|c rest]; [reflexivity|]. intros H. cbn [read_fraction].
  decide_tests. reflexivity.
Qed.

Lemma read_fraction_present fp rest :
  fp <> [] -> forallb is_digit fp = true -> stops rest ->
  read_fraction (46 :: fp ++ rest) = Some (fp, rest).
Proof.
  intros N D S. cbn [read_fraction]. rewrite Z.eqb_refl, span_digits_app by assumption.
  destruct fp; [contradiction|reflexivity].
Qed.

Lemma read_exponent_absent rest :
  match rest with [] => True | c :: _ => c <> 101 /\ c <> 69 end ->
  read_exponent rest = Some (0, rest).
Proof.
  destruct rest as [|c rest]; [reflexivity|]. intros [H1 H2]. cbn [read_exponent].
  decide_tests. reflexivity.
Qed.

Lemma digits_head_digit z d ds : 0 <= z -> digits z = d :: ds -> is_digit d = true.
Proof.
  intros Hz E. destruct (digits_spec z Hz) as (_ & D & _). rewrite E in D.
  cbn [forallb] in D. apply andb_true_iff in D. apply D.
Qed.

Lemma read_exponent_present x rest :
  stops rest -> read_exponent (exponent_part x ++ rest) = Some (x, rest).
Proof.
  intros S. unfold exponent_part, of_Z.
  assert (A : 0 <= Z.abs x) by lia.
  destruct (digits_spec (Z.abs x) A) as (V & D & (d & ds & E & _) & _).
  replace (Z.abs x <? 0) with false by (symmetry; apply Z.ltb_ge; lia).
  rewrite <- !app_assoc. cbn [app read_exponent].
  change ((101 =? 101) || (101 =? 69)) with true. cbv iota.
  destruct (Z.leb_spec 0 x) as [P|P]; cbn [app].
  - change (43 =? 43) with true. cbv iota.
    rewrite span_digits_app by assumption. rewrite V, E. f_equal. f_equal. lia.
  - change (45 =? 43) with false. change (45 =? 45) with true. cbv iota.
    rewrite span_digits_app by assumption. rewrite V, E. f_equal. f_equal. lia.
Qed.

(** A literal made of its parts is read as the number the parts spell. *)
Lemma parse_number_parts (neg : bool) d ip s2 fp s3 x rest :
  forallb is_digit (d :: ip) = true -> (d = 48 -> ip = []) -> stops s2 ->
  read_fraction s2 = Some (fp, s3) -> read_exponent s3 = Some (x, rest) ->
  parse_number ((if neg then [45] else []) ++ (d :: ip) ++ s2)
  = Some (let (m', e') :=
            normalize (if neg then - digits_to_Z ((d :: ip) ++ fp)
                       else digits_to_Z ((d :: ip) ++ fp))
                      (x - Z.of_nat (List.length fp)) in
          JNum m' e', rest).
Proof.
  intros D L S F X. unfold parse_number.
  assert (R : read_sign ((if neg then [45] else []) ++ (d :: ip) ++ s2)
              = (neg, (d :: ip) ++ s2)).
  { destruct neg; cbn [app read_sign]; [reflexivity|].
    cbn [forallb] in D. apply andb_true_iff in D. destruct D as [D _].
    unfold is_digit in D. bool_to_prop. decide_tests. reflexivity. }
  rewrite R, span_digits_app by assumption.
  assert (Z0 : leading_zero (d :: ip) = false).
  { unfold leading_zero. destruct ip as [|i ip]; [reflexivity|].
    apply Z.eqb_neq. intros ->. discriminate (L eq_refl). }
  rewrite Z0, F, X. cbv zeta. destruct (normalize _ _). reflexivity.
Qed.


Lemma forallb_firstn {A} (f : A -> bool) n l :
  forallb f l = true -> forallb f (firstn n l) = true.
Proof.
  revert n. induction l as [|x l IH]; intros [|n] H; cbn in *; try reflexivity.
  apply andb_true_iff in H. destruct H as [H1 H2]. rewrite H1, IH by exact H2. reflexivity.
Qed.

Lemma forallb_skipn {A} (f : A -> bool) n l :
  forallb f l = true -> forallb f (skipn n l) = true.
Proof.
  revert n. induction l as [|x l IH]; intros [|n] H; cbn in *; try reflexivity.
  - exact H.
  - apply andb_true_iff in H. destruct H as [_ H2]. apply IH, H2.
Qed.

Lemma delimited_not c rest x : delimited (c :: rest) -> is_digit x = true \/ x = 46 \/ x = 101 \/ x = 69 -> c <> x.
Proof.
  cbn. intros [ -> | [ -> | -> ] ] [ H | [ -> | [ -> | -> ] ] ]; try discriminate;
    intros <-; discriminate H.
Qed.

(** Reading back what [Number::toString] writes. *)
Lemma parse_number_to_string m e rest :
  (m = 0 /\ e = 0) \/ m mod 10 <> 0 -> delimited rest ->
  parse_number (number_to_string m e ++ rest) = Some (JNum m e, rest).
Proof.
  intros N Dl.
  assert (St : stops rest) by (apply delimited_stops, Dl).
  assert (NoFrac : read_fraction rest = Some ([], rest)).
  { apply read_fraction_absent. destruct rest as [|c rest]; [trivial|].
    apply (delimited_not c rest 46 Dl). auto. }
  assert (NoExp : read_exponent rest = Some (0, rest)).
  { apply read_exponent_absent. destruct rest as [|c rest]; [trivial|].
    split; [apply (delimited_not c rest 101 Dl)|apply (delimited_not c rest 69 Dl)]; auto. }
  destruct N as [[-> ->]|N].
  { etransitivity.
    - apply (parse_number_parts false 48 [] rest [] rest 0 rest); auto.
    - reflexivity. }
  assert (M0 : m <> 0) by (intros ->; apply N; reflexivity).
  unfold number_to_string. rewrite (normalize_normal m e N).
  replace (m =? 0) with false by (symmetry; apply Z.eqb_neq; exact M0).
  unfold of_Z. replace (Z.abs m <? 0) with false by (symmetry; apply Z.ltb_ge; lia).
  assert (A : 0 <= Z.abs m) by lia.
  destruct (digits_spec (Z.abs m) A) as (V & D & (d & ds & E & Hd & _) & _).
  assert (Hd' : d <> 48) by (apply Hd; lia). clear Hd.
  set (k := Z.of_nat (List.length (digits (Z.abs m)))).
  assert (Hk : k = 1 + Z.of_nat (List.length ds)) by (subst k; rewrite E; cbn [List.length]; lia).
  assert (Sign : (if m <? 0 then - Z.abs m else Z.abs m) = m)
    by (destruct (Z.ltb_spec m 0); lia).
  assert (Dd : is_digit d = true /\ forallb is_digit ds = true).
  { rewrite E in D. cbn [forallb] in D. apply andb_true_iff in D. exact D. }
  destruct Dd as [Dd Dds].
  cbv zeta. rewrite <- app_assoc.
  destruct ((k <=? k + e) && (k + e <=? 21)) eqn:CA.
  { (* digits, then zeros *)
    bool_to_prop. rewrite E.
    etransitivity.
    - apply (parse_number_parts (m <? 0) d (ds ++ zeros (k + e - k)) rest [] rest 0 rest);
        auto.
      + cbn [forallb]. rewrite Dd, forallb_app, Dds, zeros_digits. reflexivity.
      + intros ->. contradiction.
    - rewrite app_nil_r.
      change (d :: ds ++ zeros (k + e - k)) with ((d :: ds) ++ zeros (k + e - k)).
      rewrite <- E, digits_to_Z_zeros_r, V by lia.
      replace (if m <? 0 then - (Z.abs m * 10 ^ (k + e - k)) else Z.abs m * 10 ^ (k + e - k))
        with (m * 10 ^ (k + e - k)) by (destruct (Z.ltb_spec m 0); lia).
      cbn [List.length]. rewrite normalize_scaled by (exact N || lia).
      do 3 f_equal. lia. }
  destruct ((0 <? k + e) && (k + e <=? 21)) eqn:CB.
  { (* digits with a point inside *)
    bool_to_prop.
    assert (Lt : k + e < k).
    { apply andb_false_iff in CA. destruct CA as [CA|CA]; bool_to_prop; lia. }
    assert (F : exists n', Z.to_nat (k + e) = S n') by (exists (Z.to_nat (k + e - 1)); lia).
    destruct F as [n' Hn]. rewrite Hn, E. cbn [firstn skipn]. rewrite <- !app_assoc.
    assert (Ln : (n' < List.length ds)%nat) by lia.
    etransitivity.
    - apply (parse_number_parts (m <? 0) d (firstn n' ds) (46 :: skipn n' ds ++ rest)
               (skipn n' ds) rest 0 rest).
      + cbn [forallb]. rewrite Dd. apply forallb_firstn, Dds.
      + intros ->. contradiction.
      + reflexivity.
      + apply read_fraction_present; [| |exact St].
        * intros X. apply (f_equal (@List.length Z)) in X. rewrite length_skipn in X.
          cbn in X. lia.
        * apply forallb_skipn, Dds.
      + exact NoExp.
    - replace ((d :: firstn n' ds) ++ skipn n' ds) with (d :: ds)
        by (cbn [app]; rewrite firstn_skipn; reflexivity).
      rewrite <- E, V, Sign.
      rewrite normalize_normal by exact N. do 3 f_equal.
      rewrite length_skipn. lia. }
  destruct ((-6 <? k + e) && (k + e <=? 0)) eqn:CC.
  { (* zero, point, zeros, digits *)
    bool_to_prop. rewrite <- app_assoc.
    etransitivity.
    - apply (parse_number_parts (m <? 0) 48 []
               (46 :: (zeros (- (k + e)) ++ digits (Z.abs m)) ++ rest)
               (zeros (- (k + e)) ++ digits (Z.abs m)) rest 0 rest).
      + reflexivity.
      + reflexivity.
      + reflexivity.
      + apply read_fraction_present; [| |exact St].
        * rewrite E. intros X. apply app_eq_nil in X. destruct X as [_ X]. discriminate X.
        * rewrite forallb_app, zeros_digits, D. reflexivity.
      + exact NoExp.
    - change ([48] ++ zeros (- (k + e)) ++ digits (Z.abs m))
        with (zeros 1 ++ zeros (- (k + e)) ++ digits (Z.abs m)).
      rewrite !digits_to_Z_zeros_l, V, Sign by lia.
      rewrite normalize_normal by exact N. do 3 f_equal.
      rewrite length_app, Nat2Z.inj_add, zeros_length by lia. fold k. lia. }
  assert (StE : forall x, stops (exponent_part x ++ rest)) by (intros x; reflexivity).
  destruct (k =? 1) eqn:CD.
  { (* one digit and an exponent *)
    bool_to_prop.
    assert (ds = []) by (destruct ds; [reflexivity|cbn [List.length] in Hk; lia]). subst ds.
    rewrite E, <- app_assoc.
    etransitivity.
    - apply (parse_number_parts (m <? 0) d [] (exponent_part (k + e - 1) ++ rest)
               [] (exponent_part (k + e - 1) ++ rest) (k + e - 1) rest).
      + rewrite <- E. exact D.
      + reflexivity.
      + apply StE.
      + apply read_fraction_absent. cbn. discriminate.
      + apply read_exponent_present, St.
    - rewrite app_nil_r. rewrite <- E, V, Sign. cbn [List.length].
      replace (k + e - 1 - Z.of_nat 0) with e by lia.
      rewrite normalize_normal by exact N. reflexivity. }
  { (* one digit, point, digits and an exponent *)
    bool_to_prop. rewrite E. cbn [firstn skipn]. rewrite <- !app_assoc.
    etransitivity.
    - apply (parse_number_parts (m <? 0) d [] (46 :: ds ++ exponent_part (k + e - 1) ++ rest)
               ds (exponent_part (k + e - 1) ++ rest) (k + e - 1) rest).
      + cbn [forallb]. rewrite Dd. reflexivity.
      + reflexivity.
      + reflexivity.
      + apply read_fraction_present; [| |apply StE].
        * intros ->. cbn in Hk. lia.
        * exact Dds.
      + apply read_exponent_present, St.
    - cbn [app]. rewrite <- E, V, Sign.
      replace (k + e - 1 - Z.of_nat (List.length ds)) with e by lia.
      rewrite normalize_normal by exact N. reflexivity. }
Qed.

End NumberFacts.

(** ** Strings *)

Module StringFacts.
Import Json.

Lemma parse_string_raw c t :
  c <> 34 -> c <> 92 -> 32 <= c -> parse_string (c :: t) = keep c (parse_string t).
Proof.
  intros H1 H2 H3. cbn [parse_string]. decide_tests. reflexivity.
Qed.

Lemma hex_value_lower d : 0 <= d < 16 -> hex_value (hex_digit_lower d) = Some d.
Proof.
  intros H. unfold hex_value, hex_digit_lower.
  destruct (Z.ltb_spec d 10); decide_tests; cbn [andb]; f_equal; lia.
Qed.

Lemma parse_string_escape_unit c t :
  0 <= c < 65536 -> parse_string (escape_unit c ++ t) = keep c (parse_string t).
Proof.
  intros H. unfold escape_unit, hex4_lower. cbn [app parse_string].
  change (92 =? 34) with false. change (92 =? 92) with true.
  change (117 =? 34) with false. change (117 =? 92) with false.
  change (117 =? 47) with false. change (117 =? 98) with false.
  change (117 =? 102) with false. change (117 =? 110) with false.
  change (117 =? 114) with false. change (117 =? 116) with false.
  change (117 =? 117) with true. cbv iota.
  rewrite !hex_value_lower by lia.
  replace (((c / 4096 mod 16 * 16 + c / 256 mod 16) * 16 + c / 16 mod 16) * 16 + c mod 16)
    with c by lia.
  reflexivity.
Qed.

Lemma parse_string_escape x c t :
  In (x, c) [(34, 34); (92, 92); (98, 8); (102, 12); (110, 10); (114, 13); (116, 9)] ->
  parse_string (92 :: x :: t) = keep c (parse_string t).
Proof.
  intros H. cbn [In] in H.
  repeat (destruct H as [[= <- <-]|H]; [reflexivity|]). contradiction.
Qed.

(** Reading back what [QuoteJSONString] writes. *)
Lemma parse_string_quote s rest :
  forallb (fun c => 0 <=? c) s = true ->
  parse_string (quote_body s ++ 34 :: rest) = Some (s, rest).
Proof.
  induction s as [s IH] using strong_list_ind. intros P.
  destruct s as [|c s]; [reflexivity|].
  cbn [forallb] in P. apply andb_true_iff in P. destruct P as [Pc P]. bool_to_prop.
  assert (IHs : parse_string (quote_body s ++ 34 :: rest) = Some (s, rest))
    by (apply IH; [cbn; lia|exact P]).
  cbn [quote_body].
  destruct (Z.eqb_spec c 34) as [->|N34].
  { rewrite <- app_assoc. cbn [app]. rewrite (parse_string_escape 34 34), IHs; cbn; auto. }
  destruct (Z.eqb_spec c 92) as [->|N92].
  { rewrite <- app_assoc. cbn [app]. rewrite (parse_string_escape 92 92), IHs; cbn; auto. }
  destruct (Z.eqb_spec c 8) as [->|N8].
  { rewrite <- app_assoc. cbn [app]. rewrite (parse_string_escape 98 8), IHs; cbn; auto 10. }
  destruct (Z.eqb_spec c 12) as [->|N12].
  { rewrite <- app_assoc. cbn [app]. rewrite (parse_string_escape 102 12), IHs; cbn; auto 10. }
  destruct (Z.eqb_spec c 10) as [->|N10].
  { rewrite <- app_assoc. cbn [app]. rewrite (parse_string_escape 110 10), IHs; cbn; auto 10. }
  destruct (Z.eqb_spec c 13) as [->|N13].
  { rewrite <- app_assoc. cbn [app]. rewrite (parse_string_escape 114 13), IHs; cbn; auto 10. }
  destruct (Z.eqb_spec c 9) as [->|N9].
  { rewrite <- app_assoc. cbn [app]. rewrite (parse_string_escape 116 9), IHs; cbn; auto 10. }
  destruct (Z.ltb_spec c 32) as [L|G].
  { rewrite <- app_assoc, parse_string_escape_unit, IHs by lia. reflexivity. }
  destruct (is_high_surrogate c) eqn:Hh.
  { unfold is_high_surrogate in Hh. bool_to_prop.
    destruct s as [|d s'].
    - rewrite parse_string_escape_unit by lia. reflexivity.
    - destruct (is_low_surrogate d) eqn:Hl.
      + unfold is_low_surrogate in Hl. bool_to_prop.
        cbn [forallb] in P. apply andb_true_iff in P. destruct P as [_ P'].
        cbn [app]. rewrite !parse_string_raw by lia.
        rewrite (IH s') by (cbn; lia || exact P'). reflexivity.
      + rewrite <- app_assoc, parse_string_escape_unit, IHs by lia. reflexivity. }
  destruct (is_low_surrogate c) eqn:Hl.
  { unfold is_low_surrogate in Hl. bool_to_prop.
    rewrite <- app_assoc, parse_string_escape_unit, IHs by lia. reflexivity. }
  cbn [app]. rewrite parse_string_raw, IHs by lia. reflexivity.
Qed.

(** What [parse_string] reads has no negative code unit. *)
Lemma parse_string_units s t rest :
  parse_string s = Some (t, rest) -> forallb (fun c => 0 <=? c) t = true.
Proof.
  revert t rest. induction s as [s IH] using strong_list_ind. intros t rest H.
  destruct s as [|c s]; [discriminate|]. cbn [parse_string] in H.
  destruct (c =? 34). { injection H as <- <-. reflexivity. }
  destruct (c =? 92).
  - destruct s as [|x s]; [discriminate|].
    assert (simple : forall u t rest, 0 <= u ->
               match parse_string s with
               | Some (t, rest) => Some (u :: t, rest)
               | None => None
               end = Some (t, rest) -> forallb (fun c => 0 <=? c) t = true).
    { intros u t0 r0 Hu H0. destruct (parse_string s) as [[t1 r1]|] eqn:E; [|discriminate].
      injection H0 as <- <-. cbn [forallb]. rewrite (IH s ltac:(cbn [List.length]; lia) t1 r1 E).
      decide_tests. reflexivity. }
    repeat match type of H with
           | (if ?b then _ else _) = _ =>
               destruct b; [eapply simple; [|exact H]; lia|]
           end.
    destruct (x =? 117); [|discriminate].
    destruct s as [|h1 [|h2 [|h3 [|h4 s]]]]; try discriminate.
    destruct (hex_value h1) as [a|] eqn:H1; [|discriminate].
    destruct (hex_value h2) as [b|] eqn:H2; [|discriminate].
    destruct (hex_value h3) as [c'|] eqn:H3; [|discriminate].
    destruct (hex_value h4) as [d|] eqn:H4; [|discriminate].
    destruct (parse_string s) as [[t1 r1]|] eqn:E; [|discriminate].
    injection H as <- <-. cbn [forallb]. rewrite (IH s ltac:(cbn [List.length]; lia) t1 r1 E).
    assert (R : forall h v, hex_value h = Some v -> 0 <= v).
    { unfold hex_value. intros h v.
      destruct ((48 <=? h) && (h <=? 57)) eqn:A; [bool_to_prop; intros [= <-]; lia|].
      destruct ((65 <=? h) && (h <=? 70)) eqn:B; [bool_to_prop; intros [= <-]; lia|].
      destruct ((97 <=? h) && (h <=? 102)) eqn:C; [bool_to_prop; intros [= <-]; lia|].
      discriminate. }
    apply R in H1, H2, H3, H4. rewrite andb_true_r. apply Z.leb_le. nia.
  - destruct (Z.ltb_spec c 32); [discriminate|].
    destruct (parse_string s) as [[t1 r1]|] eqn:E; [|discriminate].
    injection H as <- <-. cbn [forallb]. rewrite (IH s ltac:(cbn [List.length]; lia) t1 r1 E).
    decide_tests. reflexivity.
Qed.

End StringFacts.

(** ** Objects *)

Module ObjectFacts.
Import Json.

(** ** Array indices are spelled in one way *)

Lemma digits_value_fold acc s :
  digits_value acc s
  = if forallb is_digit s
    then Some (fold_left (fun acc c => 10 * acc + (c - 48)) s acc)
    else None.
Proof.
  revert acc. induction s as [|c s IH]; intros acc; cbn [digits_value forallb fold_left].
  - reflexivity.
  - destruct (is_digit c); [apply IH|reflexivity].
Qed.

Lemma fold_digits_lower acc s :
  forallb is_digit s = true -> 0 <= acc ->
  acc <= fold_left (fun acc c => 10 * acc + (c - 48)) s acc.
Proof.
  revert acc. induction s as [|c s IH]; intros acc D A; cbn [fold_left forallb] in *.
  - lia.
  - apply andb_true_iff in D. destruct D as [Dc D]. unfold is_digit in Dc. bool_to_prop.
    specialize (IH (10 * acc + (c - 48)) D). lia.
Qed.

Lemma leading_zero_cons d s : s <> [] -> leading_zero (d :: s) = (d =? 48).
Proof. destruct s; [contradiction|reflexivity]. Qed.

Lemma value_positive d s :
  forallb is_digit (d :: s) = true -> d <> 48 -> 0 < digits_to_Z (d :: s).
Proof.
  intros D N. unfold digits_to_Z. cbn [fold_left forallb] in *.
  apply andb_true_iff in D. destruct D as [Dd D]. unfold is_digit in Dd. bool_to_prop.
  pose proof (fold_digits_lower (10 * 0 + (d - 48)) s D). lia.
Qed.

Lemma spelled_init s c : spelled (s ++ [c]) -> s <> [] -> spelled s.
Proof.
  intros (D & _ & L) N. rewrite NumberFacts.forallb_snoc in D.
  apply andb_true_iff in D. destruct D as [D _].
  repeat split; [exact D|exact N|].
  destruct s as [|a [|b s]]; try reflexivity. exact L.
Qed.

Lemma spelled_long_positive d s c : spelled ((d :: s) ++ [c]) -> 0 < digits_to_Z (d :: s).
Proof.
  intros (D & _ & L). rewrite NumberFacts.forallb_snoc in D.
  apply andb_true_iff in D. destruct D as [D _].
  apply value_positive; [exact D|].
  cbn [app] in L. rewrite leading_zero_cons in L by (destruct s; discriminate).
  apply Z.eqb_neq, L.
Qed.

Lemma spelled_last s c : spelled (s ++ [c]) -> 48 <= c <= 57.
Proof.
  intros (D & _). rewrite NumberFacts.forallb_snoc in D.
  apply andb_true_iff in D. destruct D as [_ D]. unfold is_digit in D. bool_to_prop. lia.
Qed.

Lemma spelled_unique a b :
  spelled a -> spelled b -> digits_to_Z a = digits_to_Z b -> a = b.
Proof.
  revert b. induction a as [|x a IH] using rev_ind; intros b Sa Sb E.
  { destruct Sa as (_ & N & _). contradiction. }
  destruct b as [|y b _] using rev_ind.
  { destruct Sb as (_ & N & _). contradiction. }
  rewrite !NumberFacts.digits_to_Z_snoc in E.
  pose proof (spelled_last _ _ Sa) as Dx. pose proof (spelled_last _ _ Sb) as Dy.
  assert (H : x = y /\ digits_to_Z a = digits_to_Z b) by lia.
  destruct H as [<- V]. f_equal.
  destruct a as [|a0 a'], b as [|b0 b']; [reflexivity| | |].
  - pose proof (spelled_long_positive _ _ _ Sb) as P. rewrite <- V in P. destruct (Z.lt_irrefl 0 P).
  - pose proof (spelled_long_positive _ _ _ Sa) as P. rewrite V in P. destruct (Z.lt_irrefl 0 P).
  - apply IH; [apply (spelled_init _ x Sa); discriminate
              |apply (spelled_init _ x Sb); discriminate|exact V].
Qed.

Lemma array_index_spelled k i :
  array_index k = Some i -> spelled k /\ digits_to_Z k = i.
Proof.
  unfold array_index. destruct k as [|c k]; [discriminate|].
  destruct ((c =? 48) && negb match k with [] => true | _ :: _ => false end) eqn:L;
    [discriminate|].
  rewrite digits_value_fold.
  destruct (forallb is_digit (c :: k)) eqn:D; [|discriminate].
  destruct (_ <? 4294967295); [|discriminate]. intros [= <-].
  split; [|reflexivity]. split; [exact D|]. split; [discriminate|].
  destruct k as [|c' k]; [reflexivity|]. cbn [leading_zero].
  cbn [negb] in L. rewrite andb_true_r in L. exact L.
Qed.

Lemma array_index_injective k k' i :
  array_index k = Some i -> array_index k' = Some i -> k = k'.
Proof.
  intros H H'. apply array_index_spelled in H, H'.
  destruct H as [S V], H' as [S' V']. apply spelled_unique; congruence.
Qed.


(** ** Defining a property keeps an object in order *)

Lemma eqb_sym a b : JsString.eqb a b = JsString.eqb b a.
Proof.
  destruct (JsString.eqb a b) eqn:E.
  - apply eqb_eq in E. subst. symmetry. apply eqb_refl.
  - symmetry. apply eqb_neq. apply eqb_neq in E. congruence.
Qed.

Lemma lookup_none {A} k (props : list (jsstring * A)) :
  lookup k props = None <-> absent k props = true.
Proof.
  unfold absent. induction props as [|[k' v] props IH]; cbn [lookup forallb fst].
  - tauto.
  - destruct (JsString.eqb k' k); cbn [negb andb]; [split; discriminate|exact IH].
Qed.

Lemma replace_keys {A} k (v : A) props : map fst (replace k v props) = map fst props.
Proof.
  induction props as [|[k' v'] props IH]; cbn [replace map fst]; [reflexivity|].
  destruct (JsString.eqb k' k); cbn [map fst]; [reflexivity|]. rewrite IH. reflexivity.
Qed.

Lemma replace_forallb {A} (P : jsstring * A -> bool) k v props :
  forallb P props = true -> P (k, v) = true -> forallb P (replace k v props) = true.
Proof.
  intros H Hk. induction props as [|[k' v'] props IH]; cbn [replace forallb] in *;
    [reflexivity|].
  apply andb_true_iff in H. destruct H as [H1 H2].
  destruct (JsString.eqb k' k) eqn:E.
  - apply eqb_eq in E. subst k'. cbn [forallb]. rewrite Hk, H2. reflexivity.
  - cbn [forallb]. rewrite H1, IH by exact H2. reflexivity.
Qed.

Lemma ordered_app a b :
  ordered (a ++ b)
  = ordered a && ordered b && forallb (fun x => forallb (precedes x) b) a.
Proof.
  induction a as [|x a IH]; cbn [app ordered forallb].
  - rewrite andb_true_r. reflexivity.
  - rewrite IH, forallb_app. 
    destruct (forallb (precedes x) a), (forallb (precedes x) b), (ordered a),
      (ordered b), (forallb _ a); reflexivity.
Qed.

(** Where [insert_index] puts a new key. *)
Lemma insert_index_split {A} i k (v : A) props :
  exists pre post,
    props = pre ++ post /\ insert_index i k v props = pre ++ (k, v) :: post
    /\ forallb (fun kv => match array_index (fst kv) with
                          | Some j => j <? i
                          | None => false
                          end) pre = true
    /\ match post with
       | [] => True
       | kv :: _ => match array_index (fst kv) with
                    | Some j => i <= j
                    | None => True
                    end
       end.
Proof.
  induction props as [|[k' v'] props IH]; cbn [insert_index].
  - exists [], []. repeat split.
  - destruct (array_index k') as [j|] eqn:Ek.
    + destruct (Z.ltb_spec j i) as [L|G].
      * destruct IH as (pre & post & E1 & E2 & Hpre & Hpost).
        exists ((k', v') :: pre), post. rewrite E2, E1. cbn [app forallb fst].
        rewrite Ek, Hpre. repeat split; try assumption.
        apply andb_true_iff. split; [apply Z.ltb_lt, L|reflexivity].
      * exists [], ((k', v') :: props). cbn [app forallb fst]. rewrite Ek. repeat split.
        exact G.
    + exists [], ((k', v') :: props). cbn [app forallb fst]. rewrite Ek. repeat split.
Qed.

Lemma precedes_index_later k i h j y :
  array_index k = Some i -> array_index h = Some j -> i <= j ->
  JsString.eqb k y = false -> precedes h y = true -> precedes k y = true.
Proof.
  intros Ek Eh L N P. unfold precedes in *. rewrite Ek. rewrite Eh in P. rewrite N.
  cbn [negb andb]. apply andb_true_iff in P. destruct P as [_ P].
  destruct (array_index y) as [j'|]; [|reflexivity]. bool_to_prop. apply Z.ltb_lt. lia.
Qed.

Lemma precedes_after_plain k i h y :
  array_index k = Some i -> array_index h = None ->
  JsString.eqb k y = false -> precedes h y = true -> precedes k y = true.
Proof.
  intros Ek Eh N P. unfold precedes in *. rewrite Ek. rewrite Eh in P. rewrite N.
  cbn [negb andb]. apply andb_true_iff in P. destruct P as [_ P].
  destruct (array_index y) as [j'|]; [discriminate P|reflexivity].
Qed.

Lemma insert_index_ordered {A} i k (v : A) props :
  array_index k = Some i -> absent k props = true ->
  ordered (map fst props) = true ->
  ordered (map fst (insert_index i k v props)) = true.
Proof.
  intros Ek Ab O.
  destruct (insert_index_split i k v props) as (pre & post & E1 & E2 & Hpre & Hpost).
  rewrite E2. subst props. rewrite map_app in *. cbn [map fst].
  unfold absent in Ab. rewrite forallb_app in Ab. apply andb_true_iff in Ab.
  destruct Ab as [Apre Apost].
  rewrite ordered_app in O. apply andb_true_iff in O. destruct O as [O Cross].
  apply andb_true_iff in O. destruct O as [Opre Opost].
  rewrite ordered_app. cbn [ordered]. rewrite Opre, Opost. cbn [andb].
  assert (Kpost : forallb (precedes k) (map fst post) = true).
  { destruct post as [|[h vh] post]; [reflexivity|].
    cbn [map fst forallb ordered] in *.
    apply andb_true_iff in Apost. destruct Apost as [Nh Apost].
    apply andb_true_iff in Opost. destruct Opost as [Hh _].
    apply negb_true_iff in Nh. rewrite eqb_sym in Nh.
    apply andb_true_iff. split.
    - unfold precedes. rewrite Nh, Ek. cbn [negb andb].
      destruct (array_index h) as [j|] eqn:Eh; [|reflexivity].
      apply Z.ltb_lt. destruct (Z.eq_dec i j) as [->|]; [|lia].
      exfalso. apply eqb_neq in Nh. apply Nh. eapply array_index_injective; eassumption.
    - rewrite forallb_forall in *. intros y Hy.
      assert (Ny : JsString.eqb k y = false).
      { apply in_map_iff in Hy. destruct Hy as ([y' vy] & <- & Hy).
        specialize (Apost _ Hy). cbn [fst] in *. apply negb_true_iff in Apost.
        rewrite eqb_sym. exact Apost. }
      specialize (Hh y Hy).
      destruct (array_index h) as [j|] eqn:Eh.
      + eapply precedes_index_later; eassumption.
      + eapply precedes_after_plain; eassumption. }
  rewrite Kpost. cbn [andb].
  rewrite forallb_forall in *. intros x Hx. cbn [forallb].
  specialize (Cross x Hx). rewrite Cross, andb_true_r.
  apply in_map_iff in Hx. destruct Hx as ([x' vx] & <- & Hx). cbn [fst].
  specialize (Hpre _ Hx). specialize (Apre _ Hx). cbn [fst] in *.
  apply negb_true_iff in Apre. unfold precedes. rewrite Apre, Ek. cbn [negb andb].
  destruct (array_index x'); [exact Hpre|discriminate Hpre].
Qed.

Lemma insert_index_forallb {A} (P : jsstring * A -> bool) i k v props :
  forallb P props = true -> P (k, v) = true ->
  forallb P (insert_index i k v props) = true.
Proof.
  intros H Hk.
  destruct (insert_index_split i k v props) as (pre & post & E1 & E2 & _).
  rewrite E2. subst props. rewrite forallb_app in *. cbn [forallb].
  apply andb_true_iff in H. destruct H as [H1 H2]. rewrite H1, Hk, H2. reflexivity.
Qed.

Lemma append_ordered keys k :
  array_index k = None ->
  forallb (fun x => negb (JsString.eqb x k)) keys = true ->
  ordered keys = true -> ordered (keys ++ [k]) = true.
Proof.
  intros Ek Ab O. rewrite ordered_app, O. cbn [ordered forallb andb].
  rewrite forallb_forall in *. intros x Hx. specialize (Ab x Hx).
  apply negb_true_iff in Ab. unfold precedes. rewrite Ab, Ek. cbn [negb andb].
  destruct (array_index x); reflexivity.
Qed.

(** [define_property] keeps the properties of an object canonical. *)
Lemma define_property_canonical k v props :
  plain k = true -> canonical v = true -> canonical (JObj props) = true ->
  canonical (JObj (define_property k v props)) = true.
Proof.
  intros Pk Cv C. cbn [canonical] in *. apply andb_true_iff in C. destruct C as [C O].
  unfold define_property. destruct (lookup k props) as [old|] eqn:L.
  - rewrite replace_keys, O, replace_forallb; [reflexivity|exact C|].
    cbn [fst snd]. rewrite Pk, Cv. reflexivity.
  - apply lookup_none in L. destruct (array_index k) as [i|] eqn:Ek.
    + rewrite insert_index_ordered by assumption.
      rewrite insert_index_forallb; [reflexivity|exact C|].
      cbn [fst snd]. rewrite Pk, Cv. reflexivity.
    + rewrite map_app, forallb_app. cbn [map fst forallb snd].
      rewrite C, Pk, Cv. cbn [andb].
      apply append_ordered; [exact Ek| |exact O].
      unfold absent in L. rewrite forallb_forall in *. intros x Hx.
      apply in_map_iff in Hx. destruct Hx as ([x' vx] & <- & Hx). apply (L _ Hx).
Qed.

(** A key that comes after all keys of an object is appended. *)
Lemma define_property_last {A} k (v : A) props :
  forallb (fun x => precedes x k) (map fst props) = true ->
  define_property k v props = props ++ [(k, v)].
Proof.
  intros P. unfold define_property.
  assert (L : lookup k props = None).
  { apply lookup_none. unfold absent. rewrite forallb_forall in *. intros [x vx] Hx.
    specialize (P x (in_map fst _ _ Hx)). unfold precedes in P.
    apply andb_true_iff in P. apply P. }
  rewrite L. destruct (array_index k) as [i|] eqn:Ek; [|reflexivity].
  induction props as [|[x vx] props IH]; [reflexivity|].
  cbn [map fst forallb] in P. apply andb_true_iff in P. destruct P as [Px P].
  cbn [insert_index app]. unfold precedes in Px. rewrite Ek in Px.
  apply andb_true_iff in Px. destruct Px as [_ Px].
  destruct (array_index x) as [j|]; [|discriminate Px]. rewrite Px.
  rewrite IH; [reflexivity|exact P|].
  cbn [lookup] in L. destruct (JsString.eqb x k); [discriminate L|exact L].
Qed.

End ObjectFacts.

(** ** The round trip *)

Module RoundTrip.
Import Json.

(** ** What the parser yields is canonical *)

Lemma expect_value word v s v' r : expect word v s = Ok v' r -> v' = v.
Proof. unfold expect. destruct (startsWith s word); [intros [= <- _]; reflexivity|discriminate]. Qed.

Lemma parse_number_canonical s v r : parse_number s = Some (v, r) -> canonical v = true.
Proof.
  unfold parse_number. destruct (read_sign s) as [neg s1].
  destruct (span_digits s1) as [[|d ip] s2]; [discriminate|].
  destruct (leading_zero (d :: ip)); [discriminate|].
  destruct (read_fraction s2) as [[fp s3]|]; [|discriminate].
  destruct (read_exponent s3) as [[x s4]|]; [|discriminate].
  destruct (normalize _ _) as [m' e'] eqn:N. intros [= <- _].
  apply NumberFacts.normalize_is_normal in N. cbn [canonical]. unfold normal_number.
  destruct N as [[-> ->]|N]; [reflexivity|].
  apply orb_true_iff. right. apply negb_true_iff, Z.eqb_neq, N.
Qed.

Lemma forallb_rev {A} (f : A -> bool) l : forallb f (rev l) = forallb f l.
Proof.
  induction l as [|x l IH]; [reflexivity|]. cbn [rev forallb].
  rewrite forallb_app, IH. cbn [forallb]. rewrite andb_true_r. apply andb_comm.
Qed.

Lemma parsers_canonical n :
  (forall s v r, parse_value n s = Ok v r -> canonical v = true)
  /\ (forall s acc v r, forallb canonical acc = true ->
        parse_elements n s acc = Ok v r -> canonical v = true)
  /\ (forall s props v r, canonical (JObj props) = true ->
        parse_members n s props = Ok v r -> canonical v = true).
Proof.
  induction n as [|n (IHv & IHe & IHm)]; [repeat split; discriminate|].
  split; [|split].
  - intros s v r. cbn [parse_value]. destruct (skip_ws s) as [|c t]; [discriminate|].
    destruct (c =? 123).
    { destruct (closes 125 (skip_ws t)); [intros [= <- _]; reflexivity|].
      apply IHm. reflexivity. }
    destruct (c =? 91).
    { destruct (closes 93 (skip_ws t)); [intros [= <- _]; reflexivity|].
      apply IHe. reflexivity. }
    destruct (c =? 34).
    { destruct (parse_string t) as [[u rest]|] eqn:P; [|discriminate].
      intros [= <- _]. cbn [canonical]. eapply StringFacts.parse_string_units, P. }
    destruct (c =? 110); [intros H; apply expect_value in H; subst; reflexivity|].
    destruct (c =? 116); [intros H; apply expect_value in H; subst; reflexivity|].
    destruct (c =? 102); [intros H; apply expect_value in H; subst; reflexivity|].
    destruct (parse_number (c :: t)) as [[v' rest]|] eqn:P; [|discriminate].
    intros [= <- _]. eapply parse_number_canonical, P.
  - intros s acc v r A. cbn [parse_elements].
    destruct (parse_value n s) as [x t| |] eqn:P; try discriminate.
    apply IHv in P.
    destruct (skip_ws t) as [|c t']; [discriminate|].
    destruct (c =? 44).
    { apply IHe. cbn [forallb]. rewrite P, A. reflexivity. }
    destruct (c =? 93); [|discriminate]. intros [= <- _]. cbn [canonical].
    rewrite forallb_app, forallb_rev, A. cbn [forallb]. rewrite P. reflexivity.
  - intros s props v r C. cbn [parse_members].
    destruct (skip_ws s) as [|c t]; [discriminate|].
    destruct (c =? 34); [|discriminate].
    destruct (parse_string t) as [[k t1]|] eqn:K; [|discriminate].
    apply StringFacts.parse_string_units in K.
    destruct (skip_ws t1) as [|c1 t2]; [discriminate|].
    destruct (c1 =? 58); [|discriminate].
    destruct (parse_value n t2) as [x t3| |] eqn:P; try discriminate.
    apply IHv in P.
    pose proof (ObjectFacts.define_property_canonical k x props K P C) as C'.
    destruct (skip_ws t3) as [|c3 t4]; [discriminate|].
    destruct (c3 =? 44); [apply IHm, C'|].
    destruct (c3 =? 125); [|discriminate]. intros [= <- _]. exact C'.
Qed.

Lemma parse_canonical text v : parse text = Some v -> canonical v = true.
Proof.
  unfold parse, parse_with_fuel.
  destruct (parse_value _ text) as [x r| |] eqn:P; try discriminate.
  destruct (skip_ws r); [|discriminate]. intros [= <-].
  eapply (proj1 (parsers_canonical _)), P.
Qed.

(** ** More fuel does not change a result *)

Lemma parsers_stable n :
  (forall s, parse_value n s <> OutOfFuel -> parse_value (S n) s = parse_value n s)
  /\ (forall s acc, parse_elements n s acc <> OutOfFuel ->
        parse_elements (S n) s acc = parse_elements n s acc)
  /\ (forall s props, parse_members n s props <> OutOfFuel ->
        parse_members (S n) s props = parse_members n s props).
Proof.
  induction n as [|n (IHv & IHe & IHm)].
  { repeat split; intros; exfalso; apply H; reflexivity. }
  split; [|split].
  - intros s. cbn [parse_value]. destruct (skip_ws s) as [|c t]; [reflexivity|].
    destruct (c =? 123).
    { destruct (closes 125 (skip_ws t)); [reflexivity|]. apply IHm. }
    destruct (c =? 91).
    { destruct (closes 93 (skip_ws t)); [reflexivity|]. apply IHe. }
    reflexivity.
  - intros s acc H.
    change (parse_elements (S (S n)) s acc)
      with (match parse_value (S n) s with
            | Ok v r =>
                match skip_ws r with
                | c :: r' =>
                    if c =? 44 then parse_elements (S n) r' (v :: acc)
                    else if c =? 93 then Ok (JArr (rev (v :: acc))) r'
                    else Bad
                | [] => Bad
                end
            | Bad => Bad
            | OutOfFuel => OutOfFuel
            end).
    cbn [parse_elements] in H |- *.
    destruct (parse_value n s) as [x t| |] eqn:P; [| |contradiction].
    + rewrite IHv, P by (rewrite P; discriminate).
      destruct (skip_ws t) as [|c t']; [reflexivity|].
      destruct (c =? 44); [apply IHe, H|reflexivity].
    + rewrite IHv, P by (rewrite P; discriminate). reflexivity.
  - intros s props H.
    change (parse_members (S (S n)) s props)
      with (match skip_ws s with
            | c :: r =>
                if c =? 34 then
                  match parse_string r with
                  | Some (k, r1) =>
                      match skip_ws r1 with
                      | c1 :: r2 =>
                          if c1 =? 58 then
                            match parse_value (S n) r2 with
                            | Ok v r3 =>
                                let props' := define_property k v props in
                                match skip_ws r3 with
                                | c3 :: r4 =>
                                    if c3 =? 44 then parse_members (S n) r4 props'
                                    else if c3 =? 125 then Ok (JObj props') r4
                                    else Bad
                                | [] => Bad
                                end
                            | Bad => Bad
                            | OutOfFuel => OutOfFuel
                            end
                          else Bad
                      | [] => Bad
                      end
                  | None => Bad
                  end
                else Bad
            | [] => Bad
            end).
    cbn [parse_members] in H |- *.
    destruct (skip_ws s) as [|c t]; [reflexivity|].
    destruct (c =? 34); [|reflexivity].
    destruct (parse_string t) as [[k t1]|]; [|reflexivity].
    destruct (skip_ws t1) as [|c1 t2]; [reflexivity|].
    destruct (c1 =? 58); [|reflexivity].
    destruct (parse_value n t2) as [x t3| |] eqn:P; [| |contradiction].
    + rewrite IHv, P by (rewrite P; discriminate). cbv zeta in *.
      destruct (skip_ws t3) as [|c3 t4]; [reflexivity|].
      destruct (c3 =? 44); [apply IHm, H|reflexivity].
    + rewrite IHv, P by (rewrite P; discriminate). reflexivity.
Qed.

Lemma parse_value_more_fuel n m s :
  (n <= m)%nat -> parse_value n s <> OutOfFuel -> parse_value m s = parse_value n s.
Proof.
  induction 1 as [|m L IH]; intros H; [reflexivity|].
  rewrite (proj1 (parsers_stable m)); rewrite IH; auto.
Qed.

Lemma parse_elements_more_fuel n m s acc :
  (n <= m)%nat -> parse_elements n s acc <> OutOfFuel ->
  parse_elements m s acc = parse_elements n s acc.
Proof.
  induction 1 as [|m L IH]; intros H; [reflexivity|].
  rewrite (proj1 (proj2 (parsers_stable m))); rewrite IH; auto.
Qed.

Lemma parse_members_more_fuel n m s props :
  (n <= m)%nat -> parse_members n s props <> OutOfFuel ->
  parse_members m s props = parse_members n s props.
Proof.
  induction 1 as [|m L IH]; intros H; [reflexivity|].
  rewrite (proj2 (proj2 (parsers_stable m))); rewrite IH; auto.
Qed.


(** ** Reading back what [JSON.stringify] writes *)

Lemma number_to_string_head m e :
  exists c t, number_to_string m e = c :: t /\ (c = 45 \/ is_digit c = true).
Proof.
  unfold number_to_string. destruct (normalize m e) as [m' e'].
  destruct (m' =? 0); [exists 48, []; auto|].
  destruct (m' <? 0); [eexists _, _; split; [reflexivity|auto]|].
  cbn [app]. unfold of_Z. replace (Z.abs m' <? 0) with false by (symmetry; apply Z.ltb_ge; lia).
  destruct (NumberFacts.digits_spec (Z.abs m') ltac:(lia)) as (_ & D & (d & ds & E & _) & _).
  rewrite E in *. cbn [forallb] in D. apply andb_true_iff in D. destruct D as [Dd _].
  set (k := Z.of_nat (List.length (d :: ds))).
  destruct ((k <=? k + e') && (k + e' <=? 21)); [eexists _, _; split; [reflexivity|auto]|].
  destruct ((0 <? k + e') && (k + e' <=? 21)) eqn:C.
  { bool_to_prop. destruct (Z.to_nat (k + e')) eqn:N; [lia|].
    eexists _, _; split; [reflexivity|auto]. }
  destruct ((-6 <? k + e') && (k + e' <=? 0));
    [eexists _, _; split; [reflexivity|right; reflexivity]|].
  destruct (k =? 1); eexists _, _; (split; [reflexivity|auto]).
Qed.

Lemma stringify_first v :
  exists c t, stringify v = c :: t
              /\ (In c [110; 116; 102; 34; 91; 123; 45] \/ is_digit c = true).
Proof.
  destruct v as [|[|]|m e|s|l|props]; cbn [stringify];
    try (eexists _, _; split; [reflexivity|]; cbn; auto 10; fail).
  destruct (number_to_string_head m e) as (c & t & E & [->|D]); rewrite E;
    eexists _, _; (split; [reflexivity|]); cbn; auto 10.
Qed.

Lemma first_not_space c :
  In c [110; 116; 102; 34; 91; 123; 45] \/ is_digit c = true ->
  is_ws c = false /\ (c =? 93) = false /\ (c =? 125) = false.
Proof.
  intros [H|H].
  - cbn [In] in H. repeat (destruct H as [<-|H]; [repeat split|]). contradiction.
  - unfold is_digit in H. bool_to_prop. unfold is_ws. decide_tests. repeat split.
Qed.

Lemma skip_ws_stringify v rest :
  skip_ws (stringify v ++ rest) = stringify v ++ rest.
Proof.
  destruct (stringify_first v) as (c & t & E & H). rewrite E. cbn [app skip_ws].
  destruct (first_not_space c H) as (W & _). rewrite W. reflexivity.
Qed.

Lemma join_first v l rest :
  exists c t, join [44] (map stringify (v :: l)) ++ rest = c :: t
              /\ is_ws c = false /\ (c =? 93) = false.
Proof.
  destruct (stringify_first v) as (c & t & E & H).
  destruct (first_not_space c H) as (W & N & _).
  cbn [map join]. rewrite E. destruct (map stringify l); eexists _, _; cbn [app]; eauto.
Qed.

Lemma closes_other c s c' t :
  s = c' :: t -> is_ws c' = false -> (c' =? c) = false -> closes c (skip_ws s) = false.
Proof. intros -> W N. cbn [skip_ws]. rewrite W. exact N. Qed.

Lemma lift_value n m s v r :
  parse_value n s = Ok v r -> (n <= m)%nat -> parse_value m s = Ok v r.
Proof.
  intros H L. rewrite (parse_value_more_fuel n m s L); [exact H|]. rewrite H. discriminate.
Qed.

Lemma lift_elements n m s acc v r :
  parse_elements n s acc = Ok v r -> (n <= m)%nat -> parse_elements m s acc = Ok v r.
Proof.
  intros H L. rewrite (parse_elements_more_fuel n m s acc L); [exact H|].
  rewrite H. discriminate.
Qed.

Lemma lift_members n m s props v r :
  parse_members n s props = Ok v r -> (n <= m)%nat -> parse_members m s props = Ok v r.
Proof.
  intros H L. rewrite (parse_members_more_fuel n m s props L); [exact H|].
  rewrite H. discriminate.
Qed.

(** The text of the elements of an array, up to the closing bracket. *)
Lemma parse_elements_join l :
  l <> [] ->
  (forall x, In x l -> forall rest, delimited rest ->
     exists n, parse_value n (stringify x ++ rest) = Ok x rest) ->
  forall acc rest,
  exists n, parse_elements n (join [44] (map stringify l) ++ 93 :: rest) acc
            = Ok (JArr (rev acc ++ l)) rest.
Proof.
  induction l as [|x l IH]; [contradiction|]. intros _ H acc rest.
  destruct l as [|y l].
  - destruct (H x (or_introl eq_refl) (93 :: rest)) as [n P]; [cbn; auto|].
    exists (S n). cbn [map join parse_elements]. rewrite P. cbn [skip_ws].
    change (is_ws 93) with false. cbv iota.
    change (93 =? 44) with false. change (93 =? 93) with true. cbv iota.
    reflexivity.
  - destruct (H x (or_introl eq_refl) (44 :: join [44] (map stringify (y :: l)) ++ 93 :: rest))
      as [n1 P]; [cbn; auto|].
    destruct (IH ltac:(discriminate) (fun z Hz => H z (or_intror Hz)) (x :: acc) rest)
      as [n2 Q].
    exists (S (Nat.max n1 n2)).
    change (join [44] (map stringify (x :: y :: l)))
      with (stringify x ++ [44] ++ join [44] (map stringify (y :: l))).
    rewrite <- !app_assoc. cbn [parse_elements].
    rewrite (lift_value n1 _ _ _ _ P) by lia. cbn [app skip_ws].
    change (is_ws 44) with false. cbv iota. change (44 =? 44) with true. cbv iota.
    rewrite (lift_elements n2 _ _ _ _ _ Q) by lia.
    cbn [rev]. rewrite <- app_assoc. reflexivity.
Qed.

Lemma parse_members_join todo :
  todo <> [] ->
  (forall kv, In kv todo -> forall rest, delimited rest ->
     exists n, parse_value n (stringify (snd kv) ++ rest) = Ok (snd kv) rest) ->
  forall acc rest,
  forallb (fun kv => plain (fst kv)) todo = true ->
  ordered (map fst (acc ++ todo)) = true ->
  exists n, parse_members n (join [44] (map member_text todo) ++ 125 :: rest) acc
            = Ok (JObj (acc ++ todo)) rest.
Proof.
  induction todo as [|[k v] todo IH]; [contradiction|]. intros _ H acc rest Pl O.
  cbn [forallb fst] in Pl. apply andb_true_iff in Pl. destruct Pl as [Pk Pl].
  assert (D : define_property k v acc = acc ++ [(k, v)]).
  { apply ObjectFacts.define_property_last.
    rewrite map_app, ObjectFacts.ordered_app in O. cbn [map fst] in O.
    apply andb_true_iff in O. destruct O as [_ O].
    rewrite forallb_forall in *. intros x Hx. specialize (O x Hx).
    cbn [forallb] in O. apply andb_true_iff in O. apply O. }
  destruct todo as [|kv' todo].
  - destruct (H (k, v) (or_introl eq_refl) (125 :: rest)) as [n P]; [cbn; auto|].
    cbn [snd] in P. exists (S n).
    cbn [map join]. unfold member_text, quote. cbn [fst snd].
    rewrite <- !app_assoc. cbn [app parse_members skip_ws].
    change (is_ws 34) with false. cbv iota. change (34 =? 34) with true. cbv iota.
    rewrite StringFacts.parse_string_quote by exact Pk. cbn [skip_ws].
    change (is_ws 58) with false. cbv iota. change (58 =? 58) with true. cbv iota.
    rewrite P. cbv zeta. cbn [skip_ws].
    change (is_ws 125) with false. cbv iota.
    change (125 =? 44) with false. change (125 =? 125) with true. cbv iota.
    rewrite D. reflexivity.
  - destruct (H (k, v) (or_introl eq_refl)
                (44 :: join [44] (map member_text (kv' :: todo)) ++ 125 :: rest))
      as [n1 P]; [cbn; auto|].
    cbn [snd] in P.
    destruct (IH ltac:(discriminate) (fun z Hz => H z (or_intror Hz)) (acc ++ [(k, v)]) rest)
      as [n2 Q].
    { exact Pl. }
    { rewrite <- app_assoc. exact O. }
    exists (S (Nat.max n1 n2)).
    change (join [44] (map member_text ((k, v) :: kv' :: todo)))
      with (member_text (k, v) ++ [44] ++ join [44] (map member_text (kv' :: todo))).
    unfold member_text at 1, quote. cbn [fst snd].
    rewrite <- !app_assoc. cbn [app parse_members skip_ws].
    change (is_ws 34) with false. cbv iota. change (34 =? 34) with true. cbv iota.
    rewrite StringFacts.parse_string_quote by exact Pk. cbn [skip_ws].
    change (is_ws 58) with false. cbv iota. change (58 =? 58) with true. cbv iota.
    rewrite (lift_value n1 _ _ _ _ P) by lia. cbv zeta. cbn [skip_ws].
    change (is_ws 44) with false. cbv iota. change (44 =? 44) with true. cbv iota.
    rewrite D. rewrite (lift_members n2 _ _ _ _ _ Q) by lia.
    rewrite <- app_assoc. reflexivity.
Qed.

Lemma in_size_lt x l : In x l -> (size x <= list_sum (map size l))%nat.
Proof.
  induction l as [|y l IH]; [contradiction|].
  change (list_sum (map size (y :: l))) with (size y + list_sum (map size l))%nat.
  intros [->|H]; [lia|]. specialize (IH H). lia.
Qed.

Lemma in_member_size_lt (kv : jsstring * value) props :
  In kv props -> (size (snd kv) <= list_sum (map (fun kv => size (snd kv)) props))%nat.
Proof.
  induction props as [|y l IH]; [contradiction|].
  change (list_sum (map (fun kv => size (snd kv)) (y :: l)))
    with (size (snd y) + list_sum (map (fun kv => size (snd kv)) l))%nat.
  intros [->|H]; [lia|]. specialize (IH H). lia.
Qed.

Lemma normal_number_spec m e :
  normal_number m e = true -> (m = 0 /\ e = 0) \/ m mod 10 <> 0.
Proof.
  unfold normal_number. intros H. apply orb_true_iff in H. destruct H as [H|H].
  - bool_to_prop. auto.
  - bool_to_prop. auto.
Qed.

Lemma parse_value_stringify N :
  forall v, (size v <= N)%nat -> canonical v = true ->
  forall rest, delimited rest ->
  exists n, parse_value n (stringify v ++ rest) = Ok v rest.
Proof.
  induction N as [|N IH]; intros v Sz C rest Dl.
  { destruct v; cbn in Sz; lia. }
  destruct v as [|[|]|m e|s|l|props]; cbn [stringify canonical] in *.
  - exists 1%nat. vm_compute. reflexivity.
  - exists 1%nat. vm_compute. reflexivity.
  - exists 1%nat. vm_compute. reflexivity.
  - exists 1%nat. cbn [parse_value].
    destruct (number_to_string_head m e) as (c & t & E & Hc).
    pose proof (NumberFacts.parse_number_to_string m e rest (normal_number_spec m e C) Dl) as P.
    rewrite E in *. cbn [app skip_ws] in *.
    assert (T : is_ws c = false /\ (c =? 123) = false /\ (c =? 91) = false
                /\ (c =? 34) = false /\ (c =? 110) = false /\ (c =? 116) = false
                /\ (c =? 102) = false).
    { destruct Hc as [->|Hc]; [repeat split|].
      unfold is_digit in Hc. bool_to_prop. unfold is_ws. decide_tests. repeat split. }
    destruct T as (T0 & T1 & T2 & T3 & T4 & T5 & T6).
    rewrite T0, T1, T2, T3, T4, T5, T6, P. reflexivity.
  - exists 1%nat. unfold quote. rewrite <- !app_assoc. cbn [app parse_value skip_ws].
    change (is_ws 34) with false. cbv iota.
    change (34 =? 123) with false. change (34 =? 91) with false.
    change (34 =? 34) with true. cbv iota.
    rewrite StringFacts.parse_string_quote by exact C. reflexivity.
  - destruct l as [|x l].
    { exists 1%nat. vm_compute. reflexivity. }
    destruct (parse_elements_join (x :: l) ltac:(discriminate)) with (acc := @nil value) (rest := rest)
      as [n P].
    { intros y Hy rest' Dl'. apply IH; [|rewrite forallb_forall in C; apply C, Hy|exact Dl'].
      pose proof (in_size_lt y (x :: l) Hy). cbn [size] in Sz. lia. }
    exists (S n). rewrite <- !app_assoc. cbn [app parse_value skip_ws].
    change (is_ws 91) with false. cbv iota.
    change (91 =? 123) with false. change (91 =? 91) with true. cbv iota.
    destruct (join_first x l (93 :: rest)) as (c & t & E & W & N93).
    rewrite (closes_other 93 _ c t); [exact P|exact E|exact W|exact N93].
  - destruct props as [|kv props].
    { exists 1%nat. vm_compute. reflexivity. }
    apply andb_true_iff in C. destruct C as [C O].
    destruct (parse_members_join (kv :: props) ltac:(discriminate)) with (acc := @nil (jsstring * value)) (rest := rest)
      as [n P].
    { intros y Hy rest' Dl'. apply IH; [| |exact Dl'].
      - pose proof (in_member_size_lt y (kv :: props) Hy). cbn [size] in Sz. lia.
      - rewrite forallb_forall in C. specialize (C y Hy).
        apply andb_true_iff in C. apply C. }
    { rewrite forallb_forall in *. intros y Hy. specialize (C y Hy).
      apply andb_true_iff in C. apply C. }
    { exact O. }
    exists (S n). fold member_text. 
    change (fun kv0 : jsstring * value => quote (fst kv0) ++ [58] ++ stringify (snd kv0))
      with member_text.
    rewrite <- !app_assoc. cbn [app parse_value skip_ws].
    change (is_ws 123) with false. cbv iota.
    change (123 =? 123) with true. cbv iota.
    destruct kv as [k v]. 
    assert (E : exists t, join [44] (map member_text ((k, v) :: props)) ++ 125 :: rest = 34 :: t).
    { destruct props as [|kv2 props'].
      - eexists. cbn [map join]. unfold member_text, quote. cbn [fst snd].
        rewrite <- !app_assoc. cbn [app]. reflexivity.
      - eexists.
        change (join [44] (map member_text ((k, v) :: kv2 :: props')))
          with (member_text (k, v) ++ [44] ++ join [44] (map member_text (kv2 :: props'))).
        unfold member_text at 1, quote. cbn [fst snd].
        rewrite <- !app_assoc. cbn [app]. reflexivity. }
    destruct E as [t E].
    rewrite (closes_other 125 _ 34 t); [exact P|exact E|reflexivity|reflexivity].
Qed.

(** [JSON.parse (JSON.stringify v)] is [v] for every canonical [v]. *)
Theorem parse_stringify v : canonical v = true -> parse (stringify v) = Some v.
Proof.
  intros C.
  destruct (parse_value_stringify (size v) v (le_n _) C [] I) as [n P].
  rewrite app_nil_r in P.
  unfold parse, parse_with_fuel.
  set (N := (2 * List.length (stringify v) + 1)%nat).
  pose proof (JsonFacts.parsers_within_fuel N) as (V & _ & _).
  destruct (V (stringify v) ltac:(lia)) as [NotOut _].
  assert (E : parse_value N (stringify v) = Ok v []).
  { destruct (Nat.le_ge_cases n N) as [L|L].
    - apply (lift_value n N _ _ _ P L).
    - rewrite <- (parse_value_more_fuel N n _ L NotOut). exact P. }
  rewrite E. reflexivity.
Qed.

(** Parsing, serialising and parsing again gives the value parsed. *)
Theorem parse_stringify_parse text v :
  parse text = Some v -> parse (stringify v) = Some v.
Proof. intros H. apply parse_stringify, (parse_canonical text), H. Qed.

End RoundTrip.

(* ================================================================== *)
(** * Facts: splitting a query *)
(* ================================================================== *)

Module UrlFacts.
Import Url.

Lemma cut_at_app sep a b :
  forallb (fun c => negb (c =? sep)) a = true ->
  cut_at sep (a ++ sep :: b) = (a, b).
Proof.
  induction a as [|c a IH]; cbn [app cut_at forallb]; intros H.
  - rewrite Z.eqb_refl. reflexivity.
  - apply andb_true_iff in H. destruct H as [Hc H].
    apply negb_true_iff in Hc. rewrite Hc, IH by exact H. reflexivity.
Qed.

Lemma split_on_app sep a b :
  forallb (fun c => negb (c =? sep)) a = true ->
  split_on sep (a ++ sep :: b) = a :: split_on sep b.
Proof.
  induction a as [|c a IH]; cbn [app split_on forallb]; intros H.
  - rewrite Z.eqb_refl. reflexivity.
  - apply andb_true_iff in H. destruct H as [Hc H].
    apply negb_true_iff in Hc. rewrite Hc, IH by exact H. reflexivity.
Qed.

Lemma uri_char_no_separator q :
  forallb Uri.uri_char q = true ->
  forallb (fun c => negb (c =? 38)) q = true.
Proof.
  intros H. rewrite forallb_forall in *. intros c Hc. specialize (H c Hc).
  apply negb_true_iff, Z.eqb_neq. intros ->. discriminate H.
Qed.

End UrlFacts.



(* ================================================================== *)
(** * Facts: time values and the ISO format *)
(* ================================================================== *)

Module TimeFacts.
Import DateTime.

Lemma DayFromYear_next y : DayFromYear (y + 1) = DayFromYear y + DaysInYear y.
Proof.
  unfold DayFromYear, DaysInYear, leap.
  destruct (Z.eqb_spec (y mod 4) 0); destruct (Z.eqb_spec (y mod 100) 0);
    destruct (Z.eqb_spec (y mod 400) 0); cbn [andb orb negb]; lia.
Qed.

Lemma DayFromYear_monotone y y' : y <= y' -> DayFromYear y <= DayFromYear y'.
Proof. unfold DayFromYear. lia. Qed.

(** [YearFromTime t] is the year [t] falls in: the largest year that
    begins at or before [t]. *)
Lemma YearFromTime_spec t :
  TimeFromYear (YearFromTime t) <= t < TimeFromYear (YearFromTime t + 1).
Proof.
  unfold TimeFromYear, YearFromTime. set (d := Day t).
  assert (Hd : msPerDay * d <= t < msPerDay * (d + 1)).
  { subst d. unfold Day, msPerDay. lia. }
  cbv zeta.
  destruct (Z.leb_spec (DayFromYear (1970 + 400 * d / 146097 + 1)) d) as [H1|H1].
  - assert (d < DayFromYear (1970 + 400 * d / 146097 + 1 + 1))
      by (unfold DayFromYear; lia).
    unfold msPerDay in *. lia.
  - destruct (Z.leb_spec (DayFromYear (1970 + 400 * d / 146097)) d) as [H2|H2].
    + unfold msPerDay in *. lia.
    + assert (DayFromYear (1970 + 400 * d / 146097 - 1) <= d)
        by (unfold DayFromYear; lia).
      replace (1970 + 400 * d / 146097 - 1 + 1) with (1970 + 400 * d / 146097) by lia.
      unfold msPerDay in *. lia.
Qed.

Lemma YearFromTime_largest t y : TimeFromYear y <= t -> y <= YearFromTime t.
Proof.
  intros H. destruct (YearFromTime_spec t) as [_ U].
  destruct (Z.le_gt_cases y (YearFromTime t)) as [L|G]; [exact L|exfalso].
  assert (M : DayFromYear (YearFromTime t + 1) <= DayFromYear y)
    by (apply DayFromYear_monotone; lia).
  unfold TimeFromYear, msPerDay in *. lia.
Qed.

Lemma DayWithinYear_range t : 0 <= DayWithinYear t < DaysInYear (YearFromTime t).
Proof.
  destruct (YearFromTime_spec t) as [L U]. unfold TimeFromYear in *.
  rewrite DayFromYear_next in U.
  unfold DayWithinYear, Day, msPerDay in *. lia.
Qed.

Lemma MonthFromTime_cases t :
  let m := MonthFromTime t in
  m = 0 \/ m = 1 \/ m = 2 \/ m = 3 \/ m = 4 \/ m = 5 \/ m = 6 \/ m = 7 \/ m = 8
  \/ m = 9 \/ m = 10 \/ m = 11.
Proof.
  unfold MonthFromTime. cbv zeta.
  repeat match goal with
         | |- context [if ?c then _ else _] => destruct c
         end; tauto.
Qed.

Lemma MonthFromTime_range t : 0 <= MonthFromTime t <= 11.
Proof. pose proof (MonthFromTime_cases t) as H. cbv zeta in H. lia. Qed.

Lemma DateFromTime_range t : 1 <= DateFromTime t <= 31.
Proof.
  pose proof (DayWithinYear_range t) as R.
  unfold DateFromTime, MonthFromTime, InLeapYear, DaysInYear in *.
  destruct (leap (YearFromTime t)); cbv zeta;
    repeat match goal with
           | |- context [if ?a <? ?b then _ else _] => destruct (Z.ltb_spec a b)
           end; cbv [month_start Z.eqb Pos.eqb]; lia.
Qed.

Lemma YearFromTime_unique t y :
  TimeFromYear y <= t < TimeFromYear (y + 1) -> YearFromTime t = y.
Proof.
  intros [L U]. pose proof (YearFromTime_largest t y L) as G.
  destruct (YearFromTime_spec t) as [L' _].
  destruct (Z.le_gt_cases (YearFromTime t) y) as [H|H]; [lia|exfalso].
  assert (M : DayFromYear (y + 1) <= DayFromYear (YearFromTime t))
    by (apply DayFromYear_monotone; lia).
  unfold TimeFromYear, msPerDay in *. lia.
Qed.

(** [MakeDay year month date] is, as the standard asks, [Day t + date - 1]
    for the time value [t] that begins month [month mod 12] of the year
    [year + floor(month / 12)]. *)
Lemma MakeDay_spec year month date :
  let ym := year + month / 12 in
  let mn := month mod 12 in
  exists t,
    YearFromTime t = ym /\ MonthFromTime t = mn /\ DateFromTime t = 1
    /\ MakeDay year month date = Day t + date - 1.
Proof.
  intros ym mn. set (l := if leap ym then 1 else 0).
  exists (msPerDay * (DayFromYear ym + month_start l mn)).
  assert (Hm : 0 <= mn < 12) by (subst mn; lia).
  assert (Hs : 0 <= month_start l mn < DaysInYear ym).
  { unfold month_start, DaysInYear. subst l. destruct (leap ym);
      repeat match goal with
             | |- context [if ?a =? ?b then _ else _] => destruct (Z.eqb_spec a b)
             end; lia. }
  assert (D : Day (msPerDay * (DayFromYear ym + month_start l mn))
              = DayFromYear ym + month_start l mn).
  { unfold Day, msPerDay. lia. }
  assert (Y : YearFromTime (msPerDay * (DayFromYear ym + month_start l mn)) = ym).
  { apply YearFromTime_unique. unfold TimeFromYear. rewrite DayFromYear_next.
    unfold msPerDay. lia. }
  assert (W : DayWithinYear (msPerDay * (DayFromYear ym + month_start l mn))
              = month_start l mn).
  { unfold DayWithinYear. rewrite D, Y. lia. }
  assert (Mo : MonthFromTime (msPerDay * (DayFromYear ym + month_start l mn)) = mn).
  { unfold MonthFromTime, InLeapYear. rewrite W, Y. fold l. cbv zeta.
    assert (L : l = 0 \/ l = 1) by (subst l; destruct (leap ym); auto).
    clear - Hm L. unfold month_start.
    repeat match goal with
           | |- context [if ?a =? ?b then _ else _] => destruct (Z.eqb_spec a b)
           end;
      repeat match goal with
             | |- context [if ?a <? ?b then _ else _] => destruct (Z.ltb_spec a b)
             end; lia. }
  split; [exact Y|]. split; [exact Mo|]. split.
  - unfold DateFromTime, InLeapYear. rewrite W, Mo, Y. fold l. lia.
  - unfold MakeDay. cbv zeta. fold ym mn l. rewrite D. lia.
Qed.

(** The fields of a time value make the time value again. *)
Lemma MakeDay_fields t date :
  MakeDay (YearFromTime t) (MonthFromTime t) date
  = Day t - DateFromTime t + date.
Proof.
  pose proof (MonthFromTime_range t) as R.
  unfold MakeDay. cbv zeta.
  replace (MonthFromTime t / 12) with 0 by lia.
  replace (MonthFromTime t mod 12) with (MonthFromTime t) by lia.
  rewrite Z.add_0_r. unfold DateFromTime, DayWithinYear, InLeapYear. lia.
Qed.

Lemma MakeTime_fields t :
  MakeTime (HourFromTime t) (MinFromTime t) (SecFromTime t) (msFromTime t)
  = TimeWithinDay t.
Proof.
  unfold MakeTime, HourFromTime, MinFromTime, SecFromTime, msFromTime, TimeWithinDay,
    msPerHour, msPerMinute, msPerSecond, msPerDay.
  lia.
Qed.

Lemma MakeDate_fields t :
  MakeDate (MakeDay (YearFromTime t) (MonthFromTime t) (DateFromTime t))
           (MakeTime (HourFromTime t) (MinFromTime t) (SecFromTime t) (msFromTime t))
  = t.
Proof.
  rewrite MakeDay_fields, MakeTime_fields.
  unfold MakeDate, Day, TimeWithinDay, msPerDay. lia.
Qed.

(** The day before, at the same time of the day. *)
Lemma MakeDate_day_before t :
  MakeDate (MakeDay (YearFromTime t) (MonthFromTime t) (DateFromTime t - 1))
           (TimeWithinDay t)
  = t - msPerDay.
Proof.
  rewrite MakeDay_fields. unfold MakeDate, Day, TimeWithinDay, msPerDay. lia.
Qed.

Lemma pad_digits width n : forallb is_digit (pad width n) = true.
Proof.
  revert n. induction width as [|w IH]; intros n; [reflexivity|].
  cbn [pad]. rewrite forallb_app, IH. cbn [forallb]. unfold is_digit.
  replace (48 <=? 48 + n mod 10) with true by (symmetry; apply Z.leb_le; lia).
  replace (48 + n mod 10 <=? 57) with true by (symmetry; apply Z.leb_le; lia).
  reflexivity.
Qed.

Lemma pad_length width n : List.length (pad width n) = width.
Proof.
  revert n. induction width as [|w IH]; intros n; [reflexivity|].
  cbn [pad]. rewrite length_app, IH. cbn [List.length]. lia.
Qed.

Lemma pad_value width n :
  0 <= n < 10 ^ Z.of_nat width -> Json.digits_to_Z (pad width n) = n.
Proof.
  revert n. induction width as [|w IH]; intros n H.
  - cbn in *. lia.
  - cbn [pad]. rewrite NumberFacts.digits_to_Z_snoc, IH.
    + lia.
    + rewrite Nat2Z.inj_succ, Z.pow_succ_r in H by lia. lia.
Qed.

Lemma field_pad width n :
  width <> 0%nat -> 0 <= n < 10 ^ Z.of_nat width -> field (pad width n) = Some n.
Proof.
  intros W H. unfold field. pose proof (pad_length width n) as L.
  destruct (pad width n) as [|c r] eqn:E; [cbn in L; congruence|].
  rewrite <- E, pad_digits, pad_value by exact H. reflexivity.
Qed.

Lemma pad_iso_chars width n : forallb iso_char (pad width n) = true.
Proof.
  pose proof (pad_digits width n) as H. rewrite forallb_forall in *. intros c Hc.
  specialize (H c Hc). unfold iso_char. unfold is_digit in H. rewrite H. reflexivity.
Qed.

Lemma iso_chars t : forallb iso_char (iso t) = true.
Proof.
  unfold iso, iso_year.
  destruct ((0 <=? YearFromTime t) && (YearFromTime t <=? 9999));
    [|destruct (YearFromTime t <? 0)];
    rewrite !forallb_app, !pad_iso_chars; reflexivity.
Qed.

Lemma year_in_four_digits t :
  -62167219200000 <= t <= 253402300799999 -> 0 <= YearFromTime t <= 9999.
Proof.
  intros H. destruct (YearFromTime_spec t) as [L U]. split.
  - apply YearFromTime_largest. unfold TimeFromYear, DayFromYear, msPerDay. cbn. lia.
  - destruct (Z.le_gt_cases (YearFromTime t) 9999) as [G|G]; [exact G|exfalso].
    assert (M : DayFromYear 10000 <= DayFromYear (YearFromTime t))
      by (apply DayFromYear_monotone; lia).
    unfold TimeFromYear, msPerDay in L. unfold DayFromYear in M at 1. cbn in M. lia.
Qed.

(** The text of a time value in the years 0 to 9999 reads back as the
    time value. *)
Lemma read_iso_iso t :
  -62167219200000 <= t <= 253402300799999 -> read_iso (iso t) = Some t.
Proof.
  intros H. pose proof (year_in_four_digits t H) as Y.
  pose proof (MonthFromTime_range t) as M. pose proof (DateFromTime_range t) as D.
  assert (Hh : 0 <= HourFromTime t < 24) by (unfold HourFromTime; lia).
  assert (Hn : 0 <= MinFromTime t < 60) by (unfold MinFromTime; lia).
  assert (Hs : 0 <= SecFromTime t < 60) by (unfold SecFromTime; lia).
  assert (Hf : 0 <= msFromTime t < 1000) by (unfold msFromTime, msPerSecond; lia).
  unfold iso, iso_year.
  replace ((0 <=? YearFromTime t) && (YearFromTime t <=? 9999)) with true
    by (symmetry; apply andb_true_iff; split; apply Z.leb_le; lia).
  assert (Fy : field (pad 4 (YearFromTime t)) = Some (YearFromTime t))
    by (apply field_pad; [discriminate|change (10 ^ Z.of_nat 4) with 10000; lia]).
  assert (Fm : field (pad 2 (MonthFromTime t + 1)) = Some (MonthFromTime t + 1))
    by (apply field_pad; [discriminate|change (10 ^ Z.of_nat 2) with 100; lia]).
  assert (Fd : field (pad 2 (DateFromTime t)) = Some (DateFromTime t))
    by (apply field_pad; [discriminate|change (10 ^ Z.of_nat 2) with 100; lia]).
  assert (Fh : field (pad 2 (HourFromTime t)) = Some (HourFromTime t))
    by (apply field_pad; [discriminate|change (10 ^ Z.of_nat 2) with 100; lia]).
  assert (Fn : field (pad 2 (MinFromTime t)) = Some (MinFromTime t))
    by (apply field_pad; [discriminate|change (10 ^ Z.of_nat 2) with 100; lia]).
  assert (Fs : field (pad 2 (SecFromTime t)) = Some (SecFromTime t))
    by (apply field_pad; [discriminate|change (10 ^ Z.of_nat 2) with 100; lia]).
  assert (Ff : field (pad 3 (msFromTime t)) = Some (msFromTime t))
    by (apply field_pad; [discriminate|change (10 ^ Z.of_nat 3) with 1000; lia]).
  cbn [pad app] in *. unfold read_iso.
  change (JsString.eqb [45; 45; 84; 58; 58; 46; 90] [45; 45; 84; 58; 58; 46; 90]) with true.
  cbv iota.
  rewrite Fy, Fm, Fd, Fh, Fn, Fs, Ff.
  replace ((1 <=? MonthFromTime t + 1) && (MonthFromTime t + 1 <=? 12)
           && (1 <=? DateFromTime t) && (DateFromTime t <=? 31)
           && (HourFromTime t <=? 23) && (MinFromTime t <=? 59)
           && (SecFromTime t <=? 59)) with true.
  2:{ symmetry. repeat (apply andb_true_iff; split); apply Z.leb_le; lia. }
  replace (MonthFromTime t + 1 - 1) with (MonthFromTime t) by lia.
  rewrite MakeDate_fields. unfold TimeClip.
  replace (Z.abs t >? 8640000000000000) with false; [reflexivity|].
  symmetry. rewrite Z.gtb_ltb. apply Z.ltb_ge. lia.
Qed.

End TimeFacts.

(* ================================================================== *)
(** * Facts: the direct client *)
(* ================================================================== *)

Module NewsApiFacts.
Import NewsApi RunNotations.

Lemma bind_lift_return {A B} (a : A) (k : A -> Run B) :
  bind (lift (Return a)) k = k a.
Proof. unfold bind, lift. destruct (k a). reflexivity. Qed.

Lemma trim_nonempty T : trim T <> [] -> T <> [].
Proof. intros H ->. apply H. reflexivity. Qed.

(** Reading a response makes no network call, and neither does the catch
    clause. *)
Lemma read_response_calls P r : calls (read_response P r) = [].
Proof.
  unfold read_response, calls.
  destruct (negb (ok r)).
  - destruct (status r =? 401); [reflexivity|].
    destruct (status r =? 429); reflexivity.
  - destruct (json P r) as [data|e]; [|reflexivity]. cbn [lift bind app].
    destruct (get data p_status) as [st|e]; [|reflexivity]. cbn [bind app].
    destruct (strict_equals_string st (lit "error")).
    + destruct (get data p_message) as [m|e]; [|reflexivity]. cbn [bind app].
      destruct (new_Error _); reflexivity.
    + destruct (get data p_articles) as [[a|]|e]; try reflexivity. cbn [bind app].
      destruct (negb (truthy (Some a))); [reflexivity|].
      destruct (get a p_length) as [len|e]; [|reflexivity]. cbn [bind app].
      destruct (strict_equals_zero len); reflexivity.
Qed.

Lemma on_error_calls e : calls (on_error e) = [].
Proof. unfold on_error. destruct (names_network_failure e); reflexivity. Qed.

(** A run that reaches [fetch] makes that one call and ends as [settle]
    says. *)
Lemma run_after_fetch P request :
  try_catch (response <- await_fetch P request ;; read_response P response) on_error
  = ([request], settle P (fetch P request)).
Proof.
  unfold settle, await_fetch, completion.
  destruct (fetch P request) as [r|e]; cbn [bind lift try_catch].
  - pose proof (read_response_calls P r) as C. unfold calls in C.
    destruct (read_response P r) as [cs [v|e]]; cbn [fst] in C; subst cs;
      cbn [try_catch app snd].
    + reflexivity.
    + pose proof (on_error_calls e) as C. unfold calls in C.
      destruct (on_error e) as [cs c]; cbn [fst] in C; subst cs. reflexivity.
  - pose proof (on_error_calls e) as C. unfold calls in C.
    destruct (on_error e) as [cs c]; cbn [fst] in C; subst cs. reflexivity.
Qed.

Lemma fetchTopHeadlines_run P API_KEY from :
  missing API_KEY = false ->
  JsDate.toISOString (yesterday P) = Return from ->
  fetchTopHeadlines P API_KEY
  = (let request := with_key API_KEY (top_headlines_url from) in
     ([request], settle P (fetch P request))).
Proof.
  intros K Y. unfold fetchTopHeadlines. rewrite K. cbv zeta.
  change (JsDate.setDate P (JsDate.new_Date P)
            (JsDate.minus_one (JsDate.getDate P (JsDate.new_Date P))))
    with (yesterday P).
  rewrite Y, bind_lift_return. apply run_after_fetch.
Qed.

(** With a clock whose date cannot be written, no call is made. *)
Lemma fetchTopHeadlines_without_date P API_KEY error :
  JsDate.toISOString (yesterday P) = Throw error ->
  calls (fetchTopHeadlines P API_KEY) = [].
Proof.
  intros Y. unfold fetchTopHeadlines. destruct (missing API_KEY); [reflexivity|].
  cbv zeta.
  change (JsDate.setDate P (JsDate.new_Date P)
            (JsDate.minus_one (JsDate.getDate P (JsDate.new_Date P))))
    with (yesterday P).
  rewrite Y. cbn [lift bind try_catch]. pose proof (on_error_calls error) as C.
  unfold calls in *. destruct (on_error error) as [cs c]. exact C.
Qed.

Lemma fetchNews_run P API_KEY topic q :
  missing API_KEY = false -> trim topic <> [] -> Uri.encode topic = Some q ->
  fetchNews P API_KEY topic
  = (let request := with_key API_KEY (everything_url q) in
     ([request], settle P (fetch P request))).
Proof.
  intros K T E. unfold fetchNews. rewrite K.
  apply trim_nonempty in T as T'. apply eqb_neq in T, T'. rewrite T, T'. cbn [orb].
  unfold Uri.encodeURIComponent. rewrite E, bind_lift_return. cbv zeta.
  apply run_after_fetch.
Qed.


Lemma everything_url_parts q :
  forallb Uri.uri_char q = true ->
  Url.path_of (everything_url q) = lit "https://newsapi.org/v2/everything"
  /\ Url.raw_params (Url.query_of (everything_url q))
     = [(lit "q", q); (lit "pageSize", lit "10");
        (lit "sortBy", lit "publishedAt"); (lit "language", lit "en")].
Proof.
  intros Hq.
  change (everything_url q)
    with (lit "https://newsapi.org/v2/everything"
          ++ 63 :: ((113 :: 61 :: q)
                    ++ 38 :: lit "pageSize=10&sortBy=publishedAt&language=en")).
  unfold Url.path_of, Url.query_of, Url.raw_params.
  rewrite UrlFacts.cut_at_app by reflexivity. cbn [fst snd]. split; [reflexivity|].
  rewrite UrlFacts.split_on_app.
  - replace (Url.split_on 38 (lit "pageSize=10&sortBy=publishedAt&language=en"))
      with [lit "pageSize=10"; lit "sortBy=publishedAt"; lit "language=en"]
      by reflexivity.
    reflexivity.
  - cbn [forallb]. rewrite UrlFacts.uri_char_no_separator by exact Hq. reflexivity.
Qed.

Lemma iso_char_plain from :
  forallb iso_char from = true ->
  forallb (fun c => negb (c =? 38)) from = true
  /\ forallb (fun c => negb (c =? 61)) from = true.
Proof.
  intros H. split; rewrite forallb_forall in *; intros c Hc; specialize (H c Hc);
    apply negb_true_iff, Z.eqb_neq; intros ->; discriminate H.
Qed.

Lemma split_on_plain sep a :
  forallb (fun c => negb (c =? sep)) a = true -> Url.split_on sep a = [a].
Proof.
  induction a as [|c a IH]; cbn [Url.split_on forallb]; intros H; [reflexivity|].
  apply andb_true_iff in H. destruct H as [Hc H]. apply negb_true_iff in Hc.
  rewrite Hc, IH by exact H. reflexivity.
Qed.

Lemma cut_at_plain sep a :
  forallb (fun c => negb (c =? sep)) a = true -> Url.cut_at sep a = (a, []).
Proof.
  induction a as [|c a IH]; cbn [Url.cut_at forallb]; intros H; [reflexivity|].
  apply andb_true_iff in H. destruct H as [Hc H]. apply negb_true_iff in Hc.
  rewrite Hc, IH by exact H. reflexivity.
Qed.

Lemma raw_params_top_headlines from :
  forallb iso_char from = true ->
  Url.raw_params (lit "country=us&pageSize=10&from=" ++ from)
  = [(lit "country", lit "us"); (lit "pageSize", lit "10"); (lit "from", from)].
Proof.
  intros Iso. destruct (iso_char_plain from Iso) as [Hamp Heq].
  unfold Url.raw_params.
  change (lit "country=us&pageSize=10&from=" ++ from)
    with (lit "country=us" ++ 38 :: lit "pageSize=10" ++ 38 :: (102 :: 114 :: 111 :: 109 :: 61 :: from)).
  rewrite !UrlFacts.split_on_app by reflexivity.
  rewrite split_on_plain by (cbn [forallb]; rewrite Hamp; reflexivity).
  cbn [filter JsString.eqb negb map lit]. 
  repeat (f_equal; try reflexivity).
Qed.

(** C7, as amended.  For every non-empty trimmed topic [T] that is a
    well-formed string (no unpaired surrogate), and with the credential
    configured, [fetchNews] makes one request, to the "everything"
    endpoint, whose query parameters are [q], [pageSize=10],
    [sortBy=publishedAt] and [language=en] in this order, and [q]
    URL-decodes back to exactly [T]. *)
Theorem fetchNews_query_decodes_to_topic P API_KEY T :
  missing API_KEY = false -> T <> [] -> trim T = T -> isWellFormed T = true ->
  exists q,
    calls (fetchNews P API_KEY T) = [with_key API_KEY (everything_url q)]
    /\ Url.path_of (everything_url q) = lit "https://newsapi.org/v2/everything"
    /\ Url.raw_params (Url.query_of (everything_url q))
       = [(lit "q", q); (lit "pageSize", lit "10");
          (lit "sortBy", lit "publishedAt"); (lit "language", lit "en")]
    /\ Uri.decodeURIComponent q = Return T.
Proof.
  intros K Hne Htrim WF.
  destruct (UriFacts.encode_decode T WF) as (q & ts & E & U & D).
  exists q. rewrite (fetchNews_run P API_KEY T q K) by (congruence || exact E).
  split; [reflexivity|].
  assert (Hq : forallb Uri.uri_char q = true).
  { apply (UriFacts.encode_uri_chars T); [|exact E].
    apply UriFacts.isWellFormed_code_units. exact WF. }
  destruct (everything_url_parts q Hq) as [Hp Hr].
  repeat split; try assumption.
  unfold Uri.decodeURIComponent, Uri.decode. rewrite U, D. reflexivity.
Qed.

Lemma fetchNews_query_decodes_to_topic_witness :
  exists q,
    calls (fetchNews (Sample.platform (Sample.responds 200 "OK" (lit "{}"))) Sample.key
                     (lit "climate & energy"))
    = [with_key Sample.key (everything_url q)]
    /\ Url.path_of (everything_url q) = lit "https://newsapi.org/v2/everything"
    /\ Url.raw_params (Url.query_of (everything_url q))
       = [(lit "q", q); (lit "pageSize", lit "10");
          (lit "sortBy", lit "publishedAt"); (lit "language", lit "en")]
    /\ Uri.decodeURIComponent q = Return (lit "climate & energy").
Proof.
  apply fetchNews_query_decodes_to_topic.
  - reflexivity.
  - discriminate.
  - reflexivity.
  - reflexivity.
Defined.

(** C7 as stated fails: a topic that is one unpaired surrogate is
    non-empty and trimmed, and no request is built for it. *)
Lemma fetchNews_unpaired_surrogate_builds_no_request :
  let T := [0xD800] in
  let run := fetchNews (Sample.platform (Sample.responds 200 "OK" (lit "{}"))) Sample.key T in
  T <> [] /\ trim T = T /\ calls run = [] /\ completion run = Throw Uri.malformed.
Proof.
  cbv zeta. split; [discriminate|]. repeat split; reflexivity.
Qed.


(** C8, as amended.  For every topic that is empty or whitespace-only
    after trimming, [fetchNews] makes no network call; it fails with the
    validation error when the credential is configured, and with the
    configuration error, whose check comes first, when it is not. *)
Theorem fetchNews_blank_topic_makes_no_call P API_KEY topic :
  trim topic = [] ->
  calls (fetchNews P API_KEY topic) = []
  /\ completion (fetchNews P API_KEY topic)
     = Throw (if missing API_KEY then ConfigurationError else ValidationError).
Proof.
  intros H. unfold fetchNews. destruct (missing API_KEY); [split; reflexivity|].
  rewrite H. cbn [JsString.eqb]. rewrite orb_true_r. split; reflexivity.
Qed.

Lemma fetchNews_blank_topic_makes_no_call_witness :
  let P := Sample.platform (Sample.responds 200 "OK" (lit "{}")) in
  calls (fetchNews P Sample.key (lit "   ")) = []
  /\ completion (fetchNews P Sample.key (lit "   ")) = Throw ValidationError.
Proof.
  intros P. apply (fetchNews_blank_topic_makes_no_call P Sample.key (lit "   ")).
  reflexivity.
Defined.

(** C8 as stated fails: without a credential an empty topic is answered by
    the configuration error, not by the validation error. *)
Lemma fetchNews_blank_topic_without_credential :
  completion (fetchNews (Sample.platform (Sample.responds 200 "OK" (lit "{}"))) None [])
  = Throw ConfigurationError
  /\ ConfigurationError <> ValidationError.
Proof. split; [reflexivity|discriminate]. Qed.

(** A run that made a call ends as [settle] says of that call. *)
Lemma fetchNews_settles P API_KEY topic request :
  calls (fetchNews P API_KEY topic) = [request] ->
  completion (fetchNews P API_KEY topic) = settle P (fetch P request).
Proof.
  intros C. destruct (missing API_KEY) eqn:K.
  { unfold fetchNews in C. rewrite K in C. discriminate C. }
  destruct (JsString.eqb topic [] || JsString.eqb (trim topic) []) eqn:B.
  { unfold fetchNews in C. rewrite K, B in C. discriminate C. }
  apply orb_false_iff in B. destruct B as [_ B]. apply eqb_neq in B.
  destruct (Uri.encode topic) as [q|] eqn:E.
  - rewrite (fetchNews_run P API_KEY topic q K B E) in *. cbv zeta in *.
    cbn [calls completion fst snd] in *. injection C as <-. reflexivity.
  - unfold fetchNews in C. rewrite K in C. apply eqb_neq in B.
    rewrite B, orb_false_r in C.
    destruct (JsString.eqb topic []); [discriminate C|].
    unfold Uri.encodeURIComponent in C. rewrite E in C. discriminate C.
Qed.

Lemma fetchTopHeadlines_settles P API_KEY request :
  calls (fetchTopHeadlines P API_KEY) = [request] ->
  completion (fetchTopHeadlines P API_KEY) = settle P (fetch P request).
Proof.
  intros C. destruct (missing API_KEY) eqn:K.
  { unfold fetchTopHeadlines in C. rewrite K in C. discriminate C. }
  destruct (JsDate.toISOString (yesterday P)) as [from|error] eqn:Y.
  - rewrite (fetchTopHeadlines_run P API_KEY from K Y) in *. cbv zeta in *.
    cbn [calls completion fst snd] in *. injection C as <-. reflexivity.
  - rewrite (fetchTopHeadlines_without_date P API_KEY error Y) in C. discriminate C.
Qed.

Lemma settle_401 P response :
  status response = 401 -> settle P (Return response) = Throw InvalidCredential.
Proof.
  intros H. unfold settle. rewrite bind_lift_return.
  unfold read_response, ok. rewrite H. reflexivity.
Qed.

Lemma settle_429 P response :
  status response = 429 -> settle P (Return response) = Throw RateLimited.
Proof.
  intros H. unfold settle. rewrite bind_lift_return.
  unfold read_response, ok. rewrite H. reflexivity.
Qed.

Lemma search_settles P API_KEY topic run request :
  In run (searches P API_KEY topic) -> calls run = [request] ->
  completion run = settle P (fetch P request).
Proof.
  intros [<-|[<-|[]]] C.
  - apply fetchTopHeadlines_settles, C.
  - apply fetchNews_settles, C.
Qed.

(** C9.  Whatever the body of the response: when the upstream answers the
    call of a search ([fetchNews] or [fetchTopHeadlines]) with status 401
    the search fails with InvalidCredential, and when it answers with
    status 429 the search fails with RateLimited. *)
Theorem status_401_and_429 P API_KEY topic run request response :
  In run (searches P API_KEY topic) ->
  calls run = [request] -> fetch P request = Return response ->
  (status response = 401 -> completion run = Throw InvalidCredential)
  /\ (status response = 429 -> completion run = Throw RateLimited).
Proof.
  intros I C F. rewrite (search_settles _ _ _ _ _ I C), F.
  split; intros S; [apply settle_401|apply settle_429]; exact S.
Qed.

Lemma status_401_and_429_witness :
  let P401 := Sample.platform (Sample.responds 401 "Unauthorized" (lit "<html>denied</html>")) in
  let P429 := Sample.platform (Sample.responds 429 "Too Many Requests" (lit "{}")) in
  completion (fetchNews P401 Sample.key (lit "budget")) = Throw InvalidCredential
  /\ completion (fetchTopHeadlines P429 Sample.key) = Throw RateLimited.
Proof.
  intros P401 P429. split.
  - refine (proj1 (status_401_and_429 P401 Sample.key (lit "budget") _
                     (with_key Sample.key (everything_url (lit "budget")))
                     _ (or_intror (or_introl eq_refl)) eq_refl eq_refl) eq_refl).
  - refine (proj2 (status_401_and_429 P429 Sample.key (lit "budget") _
                     (with_key Sample.key
                        (top_headlines_url (lit "2025-11-05T09:30:00.000Z")))
                     _ (or_introl eq_refl) eq_refl eq_refl) eq_refl).
Defined.

(** C3, as amended.  The catch clause goes by the message.  An exception
    raised by the network call whose message contains "Failed to fetch" or
    "NetworkError" is replaced by NetworkError and its fixed message.  An
    exception raised by the network call, or thrown while the response is
    read, whose message contains neither is propagated as it is. *)
Theorem catch_goes_by_message P API_KEY topic run request :
  In run (searches P API_KEY topic) -> calls run = [request] ->
  (forall e, fetch P request = Throw e ->
     completion run = Throw (if names_network_failure e then NetworkError else e))
  /\ (forall response e,
        fetch P request = Return response ->
        completion (read_response P response) = Throw e ->
        names_network_failure e = false ->
        completion run = Throw e).
Proof.
  intros I C. rewrite (search_settles _ _ _ _ _ I C). split.
  - intros e ->. unfold settle. cbn [lift bind try_catch]. unfold on_error.
    destruct (names_network_failure e); reflexivity.
  - intros r e -> R N. unfold settle. rewrite bind_lift_return.
    pose proof (read_response_calls P r) as Cs. unfold calls, completion in *.
    destruct (read_response P r) as [cs c]. cbn [fst snd] in *. subst cs c.
    cbn [try_catch]. unfold on_error. rewrite N. reflexivity.
Qed.

Lemma catch_goes_by_message_witness :
  let offline := Sample.platform (Throw (TypeError (lit "Failed to fetch"))) in
  let refused := Sample.platform (Throw (TypeError (lit "Load failed"))) in
  let down := Sample.platform (Sample.responds 503 "Service Unavailable" []) in
  completion (fetchNews offline Sample.key (lit "budget")) = Throw NetworkError
  /\ completion (fetchNews refused Sample.key (lit "budget"))
     = Throw (TypeError (lit "Load failed"))
  /\ completion (fetchTopHeadlines down Sample.key)
     = Throw (UpstreamError 503 (lit "Service Unavailable")).
Proof.
  intros offline refused down. refine (conj _ (conj _ _)).
  - refine (proj1 (catch_goes_by_message offline Sample.key (lit "budget") _
                     (with_key Sample.key (everything_url (lit "budget")))
                     (or_intror (or_introl eq_refl)) eq_refl) _ eq_refl).
  - refine (proj1 (catch_goes_by_message refused Sample.key (lit "budget") _
                     (with_key Sample.key (everything_url (lit "budget")))
                     (or_intror (or_introl eq_refl)) eq_refl) _ eq_refl).
  - refine (proj2 (catch_goes_by_message down Sample.key (lit "budget") _
                     (with_key Sample.key
                        (top_headlines_url (lit "2025-11-05T09:30:00.000Z")))
                     (or_introl eq_refl) eq_refl) _ _ eq_refl eq_refl eq_refl).
Defined.

(** C3 as stated fails on both counts: a network failure whose message has
    neither marker (the wording of Safari) is not classified as
    NetworkError, and an upstream error whose status text or body message
    has a marker is reclassified as NetworkError. *)
Lemma catch_misclassifies :
  let refused := Sample.platform (Throw (TypeError (lit "Load failed"))) in
  let down := Sample.platform (Sample.responds 503 "NetworkError" []) in
  let failed := Sample.platform
    (Sample.responds 200 "OK" Sample.failed_sources_body) in
  (completion (fetchNews refused Sample.key (lit "budget"))
   = Throw (TypeError (lit "Load failed"))
   /\ TypeError (lit "Load failed") <> NetworkError)
  /\ (completion (fetchNews down Sample.key (lit "budget")) = Throw NetworkError
      /\ NetworkError <> UpstreamError 503 (lit "NetworkError"))
  /\ (completion (fetchTopHeadlines failed Sample.key) = Throw NetworkError
      /\ NetworkError <> Error_ (lit "Failed to fetch sources")).
Proof.
  cbv zeta. refine (conj (conj _ _) (conj (conj _ _) (conj _ _)));
    first [reflexivity | discriminate].
Qed.




(** C6, as amended.  For every 2xx response whose body is JSON, is not
    [null] and carries no error indicator: if the body has no [articles]
    the search returns the empty list; if [articles] is a list the search
    returns that list, the upstream records themselves, as many, in the
    same order, each with the fields the upstream gave it. *)
Theorem search_returns_upstream_articles
        P API_KEY topic run request response data data_status data_articles :
  In run (searches P API_KEY topic) -> calls run = [request] ->
  fetch P request = Return response -> ok response = true ->
  Json.parse (body response) = Some data ->
  get data p_status = Return data_status ->
  strict_equals_string data_status (lit "error") = false ->
  get data p_articles = Return data_articles ->
  (data_articles = None -> completion run = Return (JArr []))
  /\ (forall articles, data_articles = Some (JArr articles) ->
       completion run = Return (JArr articles)).
Proof.
  intros I C F Ok J S NotErr A.
  rewrite (search_settles _ _ _ _ _ I C), F.
  unfold settle. rewrite bind_lift_return.
  unfold read_response, json. rewrite Ok, J. cbn [negb].
  rewrite bind_lift_return, S, bind_lift_return, NotErr, A, bind_lift_return.
  split.
  - intros ->. reflexivity.
  - intros articles ->. cbn [truthy negb get]. rewrite bind_lift_return.
    destruct articles; reflexivity.
Qed.

Lemma search_returns_upstream_articles_witness :
  let P := Sample.platform (Sample.responds 200 "OK" Sample.one_article_body) in
  completion (fetchNews P Sample.key (lit "budget"))
  = Return (JArr [Sample.article_value]).
Proof.
  intros P.
  refine (proj2 (search_returns_upstream_articles P Sample.key (lit "budget") _
                   (with_key Sample.key (everything_url (lit "budget")))
                   (mkResponse 200 (lit "OK") Sample.one_article_body)
                   Sample.one_article_data
                   (Some (JStr (lit "ok"))) (Some (JArr [Sample.article_value]))
                   (or_intror (or_introl eq_refl))
                   eq_refl eq_refl eq_refl eq_refl eq_refl eq_refl eq_refl)
                [Sample.article_value] eq_refl).
Defined.

(** C6 as stated fails: the record returned for an article of the upstream
    is that article, with the fields [source] and [urlToImage] of the
    upstream, not a record of the normalized shape. *)
Lemma search_does_not_normalize :
  let P := Sample.platform (Sample.responds 200 "OK" Sample.one_article_body) in
  completion (fetchNews P Sample.key (lit "budget"))
  = Return (JArr [Sample.article_value])
  /\ Json.parse Sample.upstream_article = Some Sample.article_value
  /\ Spec.is_Article Sample.article_value = false.
Proof.
  cbv zeta. refine (conj _ (conj _ _)); reflexivity.
Qed.

End NewsApiFacts.

(* ================================================================== *)
(** * Facts: a query written by [URLSearchParams], read by a server *)
(* ================================================================== *)

Module FormFacts.
Import Url Deployment.

Lemma octets_form_octet b rest :
  Uri.is_octet b -> octets (form_octet b ++ rest) = b :: octets rest.
Proof.
  unfold Uri.is_octet, form_octet. intros Hb.
  destruct (form_safe b) eqn:S.
  - cbn [app octets].
    assert (R : 48 <= b <= 122 \/ b = 42 \/ b = 45 \/ b = 46 \/ b = 95).
    { unfold form_safe, is_alpha, is_digit in S.
      repeat (apply orb_true_iff in S; destruct S as [S|S]); bool_to_prop; lia. }
    unfold is_high_surrogate, is_low_surrogate, utf8. 
    replace (b =? 37) with false by (symmetry; apply Z.eqb_neq; lia).
    replace (b =? 43) with false by (symmetry; apply Z.eqb_neq; lia).
    decide_tests. reflexivity.
  - destruct (Z.eqb_spec b 32) as [->|N]; [reflexivity|].
    unfold Uri.percent. cbn [app octets]. rewrite Z.eqb_refl.
    rewrite !UriFacts.hex_value_hex_digit by lia.
    f_equal. lia.
Qed.

Lemma octets_form_octets bs rest :
  Forall Uri.is_octet bs -> octets (flat_map form_octet bs ++ rest) = bs ++ octets rest.
Proof.
  induction 1 as [|b bs Hb _ IH]; [reflexivity|].
  cbn [flat_map app]. rewrite <- app_assoc, octets_form_octet, IH by exact Hb.
  reflexivity.
Qed.

Lemma sequence_utf8 cp rest :
  0 <= cp <= 0x10FFFF -> is_surrogate cp = false ->
  sequence (utf8 cp ++ rest) = (utf16 cp, List.length (utf8 cp)).
Proof.
  intros H Hs. unfold is_surrogate in Hs. apply andb_false_iff in Hs.
  assert (Hs' : cp < 0xD800 \/ 0xDFFF < cp) by (destruct Hs; bool_to_prop; lia).
  clear Hs. unfold utf8.
  destruct (Z.ltb_spec cp 0x80); [|destruct (Z.ltb_spec cp 0x800);
    [|destruct (Z.ltb_spec cp 0x10000)]].
  - cbn [app sequence List.length]. unfold utf16. decide_tests. reflexivity.
  - set (b0 := 0xC0 + cp / 0x40). set (b1 := 0x80 + cp mod 0x40).
    assert (R0 : 0xC2 <= b0 <= 0xDF) by (subst b0; lia).
    assert (R1 : 0x80 <= b1 <= 0xBF) by (subst b1; lia).
    assert (V : (b0 - 0xC0) * 0x40 + (b1 - 0x80) = cp) by (subst b0 b1; lia).
    clearbody b0 b1. cbn [app sequence List.length]. unfold between. rewrite V.
    unfold utf16. decide_tests. reflexivity.
  - set (b0 := 0xE0 + cp / 0x1000). set (b1 := 0x80 + (cp / 0x40) mod 0x40).
    set (b2 := 0x80 + cp mod 0x40).
    assert (R0 : 0xE0 <= b0 <= 0xEF) by (subst b0; lia).
    assert (R1 : 0x80 <= b1 <= 0xBF) by (subst b1; lia).
    assert (R2 : 0x80 <= b2 <= 0xBF) by (subst b2; lia).
    assert (L : b0 = 0xE0 -> 0xA0 <= b1) by (subst b0 b1; lia).
    assert (U : b0 = 0xED -> b1 <= 0x9F) by (subst b0 b1; lia).
    assert (V : (b0 - 0xE0) * 0x1000 + (b1 - 0x80) * 0x40 + (b2 - 0x80) = cp)
      by (subst b0 b1 b2; lia).
    clearbody b0 b1 b2. cbn [app sequence List.length]. unfold between. rewrite V.
    destruct (Z.eqb_spec b0 0xE0) as [E0|E0]; destruct (Z.eqb_spec b0 0xED) as [ED|ED];
      try lia; try specialize (L E0); try specialize (U ED);
      unfold utf16; decide_tests; reflexivity.
  - set (b0 := 0xF0 + cp / 0x40000). set (b1 := 0x80 + (cp / 0x1000) mod 0x40).
    set (b2 := 0x80 + (cp / 0x40) mod 0x40). set (b3 := 0x80 + cp mod 0x40).
    assert (R0 : 0xF0 <= b0 <= 0xF4) by (subst b0; lia).
    assert (R1 : 0x80 <= b1 <= 0xBF) by (subst b1; lia).
    assert (R2 : 0x80 <= b2 <= 0xBF) by (subst b2; lia).
    assert (R3 : 0x80 <= b3 <= 0xBF) by (subst b3; lia).
    assert (L : b0 = 0xF0 -> 0x90 <= b1) by (subst b0 b1; lia).
    assert (U : b0 = 0xF4 -> b1 <= 0x8F) by (subst b0 b1; lia).
    assert (V : (b0 - 0xF0) * 0x40000 + (b1 - 0x80) * 0x1000 + (b2 - 0x80) * 0x40
                + (b3 - 0x80) = cp) by (subst b0 b1 b2 b3; lia).
    clearbody b0 b1 b2 b3. cbn [app sequence List.length]. unfold between. rewrite V.
    destruct (Z.eqb_spec b0 0xF0) as [E0|E0]; destruct (Z.eqb_spec b0 0xF4) as [E4|E4];
      try lia; try specialize (L E0); try specialize (U E4);
      unfold utf16; decide_tests; reflexivity.
Qed.

Lemma utf8_lossy_step b0 r1 :
  utf8_lossy (b0 :: r1)
  = (let (units, taken) := sequence (b0 :: r1) in
     units ++ match taken, r1 with
              | 2%nat, _ :: r2 => utf8_lossy r2
              | 3%nat, _ :: _ :: r3 => utf8_lossy r3
              | 4%nat, _ :: _ :: _ :: r4 => utf8_lossy r4
              | _, _ => utf8_lossy r1
              end).
Proof. reflexivity. Qed.

Lemma utf8_lossy_utf8 cp rest :
  0 <= cp <= 0x10FFFF -> is_surrogate cp = false ->
  utf8_lossy (utf8 cp ++ rest) = utf16 cp ++ utf8_lossy rest.
Proof.
  intros H Hs. pose proof (sequence_utf8 cp rest H Hs) as S.
  unfold utf8 in *.
  destruct (cp <? 0x80); [|destruct (cp <? 0x800); [|destruct (cp <? 0x10000)]];
    cbn [app List.length] in *; rewrite utf8_lossy_step, S; reflexivity.
Qed.

Lemma isWellFormed_scalar c s :
  is_code_unit c = true -> is_high_surrogate c = false -> is_low_surrogate c = false ->
  isWellFormed (c :: s) = isWellFormed s.
Proof. intros Hc Hh Hl. cbn [isWellFormed]. rewrite Hc, Hh, Hl. reflexivity. Qed.

Lemma toWellFormed_isWellFormed s :
  forallb is_code_unit s = true -> isWellFormed (toWellFormed s) = true.
Proof.
  induction s as [s IH] using strong_list_ind. intros U.
  destruct s as [|c s']; [reflexivity|].
  cbn [forallb] in U. apply andb_true_iff in U. destruct U as [Uc U].
  cbn [toWellFormed].
  destruct (is_high_surrogate c) eqn:Hh.
  - destruct s' as [|d s'']; [reflexivity|].
    destruct (is_low_surrogate d) eqn:Hl.
    + cbn [forallb] in U. apply andb_true_iff in U. destruct U as [_ U].
      cbn [isWellFormed]. rewrite Uc, Hh, Hl. cbn [negb andb].
      apply IH; [cbn; lia|exact U].
    + rewrite isWellFormed_scalar by reflexivity. apply IH; [cbn; lia|exact U].
  - destruct (is_low_surrogate c) eqn:Hl.
    + rewrite isWellFormed_scalar by reflexivity. apply IH; [cbn; lia|exact U].
    + rewrite isWellFormed_scalar by assumption. apply IH; [cbn; lia|exact U].
Qed.

Lemma toWellFormed_well_formed s : isWellFormed s = true -> toWellFormed s = s.
Proof.
  induction s as [s IH] using strong_list_ind. intros WF.
  destruct s as [|c s']; [reflexivity|].
  cbn [isWellFormed toWellFormed] in *.
  destruct (is_code_unit c); [|discriminate]. cbn [negb] in WF.
  destruct (is_high_surrogate c).
  - destruct s' as [|d s'']; [discriminate|].
    apply andb_true_iff in WF. destruct WF as [Hl WF]. rewrite Hl.
    rewrite (IH s'') by (cbn; lia || exact WF). reflexivity.
  - destruct (is_low_surrogate c); [discriminate|].
    rewrite (IH s') by (cbn; lia || exact WF). reflexivity.
Qed.

(** What the serialiser wrote of a well-formed string decodes to it. *)
Lemma form_decode_form_units w :
  isWellFormed w = true -> form_decode (form_units w) = w.
Proof.
  unfold form_decode.
  induction w as [w IH] using strong_list_ind. intros WF.
  destruct w as [|c w']; [reflexivity|].
  cbn [isWellFormed form_units] in *.
  destruct (is_code_unit c) eqn:Uc; [|discriminate]. cbn [negb] in WF.
  destruct (is_high_surrogate c) eqn:Hh.
  - destruct w' as [|d w'']; [discriminate|].
    apply andb_true_iff in WF. destruct WF as [Hl WF]. rewrite Hl.
    pose proof (UriFacts.code_point_range c d Hh Hl) as R.
    rewrite octets_form_octets by (apply UriFacts.utf8_octets; lia).
    rewrite utf8_lossy_utf8;
      [|lia|unfold is_surrogate; apply andb_false_iff; right; apply Z.leb_gt; lia].
    rewrite UriFacts.utf16_code_point by assumption.
    rewrite (IH w'') by (cbn; lia || exact WF). reflexivity.
  - destruct (is_low_surrogate c) eqn:Hl; [discriminate|].
    assert (R : 0 <= c <= 0xFFFF /\ (c < 0xD800 \/ 0xDFFF < c)).
    { unfold is_code_unit, is_high_surrogate, is_low_surrogate in *.
      bool_to_prop.
      apply andb_false_iff in Hh. apply andb_false_iff in Hl.
      destruct Hh, Hl; bool_to_prop; lia. }
    rewrite octets_form_octets by (apply UriFacts.utf8_octets; lia).
    rewrite utf8_lossy_utf8;
      [|lia|unfold is_surrogate; apply andb_false_iff;
            destruct R as [_ [R|R]]; [left; apply Z.leb_gt; lia|right; apply Z.leb_gt; lia]].
    unfold utf16. replace (c <? 0x10000) with true by (symmetry; apply Z.ltb_lt; lia).
    rewrite (IH w') by (cbn; lia || exact WF). reflexivity.
Qed.

(** The serialisation of a name or a value decodes to the string, an
    unpaired surrogate replaced by U+FFFD. *)
Theorem form_decode_form_encode s :
  forallb is_code_unit s = true -> form_decode (form_encode s) = toWellFormed s.
Proof.
  intros U. apply form_decode_form_units, toWellFormed_isWellFormed, U.
Qed.

Lemma form_octet_plain b :
  Uri.is_octet b ->
  forallb (fun c => negb (c =? 38) && negb (c =? 61)) (form_octet b) = true.
Proof.
  unfold Uri.is_octet, form_octet. intros Hb.
  destruct (form_safe b) eqn:S.
  - assert (R : 48 <= b <= 57 \/ 65 <= b <= 122 \/ b = 42 \/ b = 45 \/ b = 46 \/ b = 95).
    { unfold form_safe, is_alpha, is_digit in S.
      repeat (apply orb_true_iff in S; destruct S as [S|S]); bool_to_prop; lia. }
    cbn [forallb]. decide_tests. reflexivity.
  - destruct (Z.eqb_spec b 32) as [->|N]; [reflexivity|].
    unfold Uri.percent, hex_digit. cbn [forallb].
    destruct (Z.ltb_spec (b / 16) 10); destruct (Z.ltb_spec (b mod 16) 10);
      decide_tests; reflexivity.
Qed.

Lemma form_octets_plain bs :
  Forall Uri.is_octet bs ->
  forallb (fun c => negb (c =? 38) && negb (c =? 61)) (flat_map form_octet bs) = true.
Proof.
  induction 1 as [|b bs Hb _ IH]; [reflexivity|].
  cbn [flat_map]. rewrite forallb_app, form_octet_plain, IH by exact Hb. reflexivity.
Qed.

Lemma form_units_plain w :
  isWellFormed w = true ->
  forallb (fun c => negb (c =? 38) && negb (c =? 61)) (form_units w) = true.
Proof.
  induction w as [w IH] using strong_list_ind. intros WF.
  destruct w as [|c w']; [reflexivity|].
  cbn [isWellFormed form_units] in *.
  destruct (is_code_unit c) eqn:Uc; [|discriminate]. cbn [negb] in WF.
  destruct (is_high_surrogate c) eqn:Hh.
  - destruct w' as [|d w'']; [discriminate|].
    apply andb_true_iff in WF. destruct WF as [Hl WF]. rewrite Hl.
    pose proof (UriFacts.code_point_range c d Hh Hl) as R.
    rewrite forallb_app, form_octets_plain by (apply UriFacts.utf8_octets; lia).
    apply IH; [cbn; lia|exact WF].
  - destruct (is_low_surrogate c) eqn:Hl; [discriminate|].
    unfold is_code_unit in Uc. bool_to_prop.
    rewrite forallb_app, form_octets_plain by (apply UriFacts.utf8_octets; lia).
    apply IH; [cbn; lia|exact WF].
Qed.

Lemma form_encode_plain s :
  forallb is_code_unit s = true ->
  forallb (fun c => negb (c =? 38)) (form_encode s) = true
  /\ forallb (fun c => negb (c =? 61)) (form_encode s) = true.
Proof.
  intros U.
  pose proof (form_units_plain _ (toWellFormed_isWellFormed s U)) as H.
  fold (form_encode s) in H. rewrite forallb_forall in H.
  split; apply forallb_forall; intros c Hc; specialize (H c Hc);
    apply andb_true_iff in H; tauto.
Qed.

Lemma pair_not_empty a b : JsString.eqb (a ++ 61 :: b) [] = false.
Proof. destruct a; reflexivity. Qed.

Lemma raw_params_cons piece q :
  forallb (fun c => negb (c =? 38)) piece = true ->
  JsString.eqb piece [] = false ->
  raw_params (piece ++ 38 :: q) = cut_at 61 piece :: raw_params q.
Proof.
  intros Hp Hn. unfold raw_params. rewrite UrlFacts.split_on_app by exact Hp.
  cbn [filter]. rewrite Hn. reflexivity.
Qed.

Lemma raw_params_one piece :
  forallb (fun c => negb (c =? 38)) piece = true ->
  JsString.eqb piece [] = false ->
  raw_params piece = [cut_at 61 piece].
Proof.
  intros Hp Hn. unfold raw_params. rewrite NewsApiFacts.split_on_plain by exact Hp.
  cbn [filter]. rewrite Hn. reflexivity.
Qed.

(** The query the serialiser writes splits into the serialised names and
    values again. *)
Lemma raw_params_serialize params :
  Forall (fun kv => forallb is_code_unit (fst kv) = true
                    /\ forallb is_code_unit (snd kv) = true) params ->
  raw_params (serialize params)
  = map (fun kv => (form_encode (fst kv), form_encode (snd kv))) params.
Proof.
  induction 1 as [|[k v] params [Uk Uv] _ IH]; [reflexivity|].
  cbn [fst snd] in *.
  destruct (form_encode_plain k Uk) as [Ak Ek].
  destruct (form_encode_plain v Uv) as [Av _].
  assert (Hp : forallb (fun c => negb (c =? 38)) (form_encode k ++ 61 :: form_encode v) = true).
  { rewrite forallb_app. cbn [forallb]. rewrite Ak, Av. reflexivity. }
  destruct params as [|kv params'].
  - cbn [serialize map app].
    rewrite raw_params_one by (exact Hp || apply pair_not_empty).
    rewrite UrlFacts.cut_at_app by exact Ek. reflexivity.
  - change (serialize ((k, v) :: kv :: params'))
      with (form_encode k ++ [61] ++ form_encode v ++ [38] ++ serialize (kv :: params')).
    replace (form_encode k ++ [61] ++ form_encode v ++ [38] ++ serialize (kv :: params'))
      with ((form_encode k ++ 61 :: form_encode v) ++ 38 :: serialize (kv :: params'))
      by (rewrite <- app_assoc; reflexivity).
    rewrite raw_params_cons by (exact Hp || apply pair_not_empty).
    rewrite UrlFacts.cut_at_app by exact Ek. rewrite IH. reflexivity.
Qed.

(** Read back as a server reads a query, the serialised parameters are
    the parameters, in order. *)
Theorem serialize_reads_back params :
  Forall (fun kv => forallb is_code_unit (fst kv) = true
                    /\ forallb is_code_unit (snd kv) = true) params ->
  map (fun kv => (form_decode (fst kv), form_decode (snd kv))) (raw_params (serialize params))
  = map (fun kv => (toWellFormed (fst kv), toWellFormed (snd kv))) params.
Proof.
  intros U. rewrite raw_params_serialize by exact U. rewrite map_map.
  apply map_ext_in. intros [k v] Hin. cbn [fst snd].
  rewrite Forall_forall in U. destruct (U _ Hin) as [Uk Uv]. cbn [fst snd] in *.
  rewrite !form_decode_form_encode by assumption. reflexivity.
Qed.

End FormFacts.

(* ================================================================== *)
(** * Facts: the proxy *)
(* ================================================================== *)

Module ApiNewsFacts.
Import ApiNews.

Lemma valid_endpoint_allowed endpoint e :
  valid_endpoint endpoint = Some e <->
  endpoint = Some (QString e) /\ In e validEndpoints.
Proof.
  unfold valid_endpoint, validEndpoints. split.
  - destruct endpoint as [[s|l]|]; try discriminate.
    cbn [existsb]. rewrite orb_false_r.
    destruct (JsString.eqb s (lit "top-headlines")) eqn:E1;
      [|destruct (JsString.eqb s (lit "everything")) eqn:E2]; cbn [orb];
      try discriminate; intros [= <-]; split; try reflexivity.
    + apply eqb_eq in E1. left. congruence.
    + apply eqb_eq in E2. right. left. congruence.
  - intros [-> [<-|[<-|[]]]]; reflexivity.
Qed.

(** C10.  For every GET request whose [endpoint] parameter is neither
    "top-headlines" nor "everything" -- absent, another string, or given
    more than once -- the handler makes no upstream call and answers with
    the client error 400, "Invalid endpoint". *)
Theorem handler_rejects_unknown_endpoint P VITE_NEWS_API_KEY req :
  method req = lit "GET" ->
  lookup (lit "endpoint") (query req) <> Some (QString (lit "top-headlines")) ->
  lookup (lit "endpoint") (query req) <> Some (QString (lit "everything")) ->
  upstream_calls (handler P VITE_NEWS_API_KEY req) = []
  /\ res_status (sent (handler P VITE_NEWS_API_KEY req)) = 400
  /\ res_body (sent (handler P VITE_NEWS_API_KEY req))
     = Some Sample.invalid_endpoint_body.
Proof.
  intros M N1 N2. unfold handler. rewrite M. cbn [JsString.eqb].
  change (JsString.eqb (lit "GET") (lit "OPTIONS")) with false.
  change (JsString.eqb (lit "GET") (lit "GET")) with true. cbn [negb].
  destruct (valid_endpoint (lookup (lit "endpoint") (query req))) as [e|] eqn:V.
  - apply valid_endpoint_allowed in V. destruct V as [L [<-|[<-|[]]]]; contradiction.
  - repeat split.
Qed.

Lemma handler_rejects_unknown_endpoint_witness :
  let h := handler (Sample.platform (Sample.responds 200 "OK" (lit "{}"))) Sample.key
                   (Sample.get_request [("endpoint", QString (lit "unknown"))]%string) in
  upstream_calls h = [] /\ res_status (sent h) = 400
  /\ res_body (sent h) = Some Sample.invalid_endpoint_body.
Proof.
  intros h. apply handler_rejects_unknown_endpoint.
  - reflexivity.
  - discriminate.
  - discriminate.
Defined.

(** A GET request for an allowed endpoint reaches the upstream call. *)
Lemma handler_run P VITE_NEWS_API_KEY req endpoint :
  method req = lit "GET" ->
  lookup (lit "endpoint") (query req) = Some (QString endpoint) ->
  In endpoint validEndpoints ->
  handler P VITE_NEWS_API_KEY req
  = (let request := upstream_request VITE_NEWS_API_KEY endpoint
                                     (rest (lit "endpoint") (query req)) in
     match fetch P request with
     | Return response =>
         match Json.parse (body response) with
         | Some data => mkHandled [request] [] (status_json (status response) data)
         | None =>
             let error := SyntaxError (syntax_error_message P (body response)) in
             mkHandled [request] [error]
               (status_json 500 (JObj [(lit "error", JStr (lit "Failed to fetch news"));
                                       (lit "message", JStr (message error))]))
         end
     | Throw error =>
         mkHandled [request] [error]
           (status_json 500 (JObj [(lit "error", JStr (lit "Failed to fetch news"));
                                   (lit "message", JStr (message error))]))
     end).
Proof.
  intros M L A. unfold handler. rewrite M.
  change (JsString.eqb (lit "GET") (lit "OPTIONS")) with false.
  change (JsString.eqb (lit "GET") (lit "GET")) with true. cbn [negb].
  rewrite (proj2 (valid_endpoint_allowed _ endpoint) (conj L A)). cbv zeta.
  destruct (fetch P _) as [r|e]; [|reflexivity].
  unfold json. destruct (Json.parse (body r)); reflexivity.
Qed.

(** The query of the upstream URL, read back as a server reads it, holds
    the parameters other than [endpoint], names and values as the handler
    got them (an unpaired surrogate replaced by U+FFFD), in order. *)
Lemma upstream_query_reads_back VITE_NEWS_API_KEY endpoint params :
  In endpoint validEndpoints ->
  Forall (fun kv => forallb is_code_unit (fst kv) = true
                    /\ forallb is_code_unit (value_string (snd kv)) = true) params ->
  let u := url (upstream_request VITE_NEWS_API_KEY endpoint params) in
  Url.path_of u = lit "https://newsapi.org/v2/" ++ endpoint
  /\ map (fun kv => (Deployment.form_decode (fst kv), Deployment.form_decode (snd kv)))
         (Url.raw_params (Url.query_of u))
     = map (fun kv => (toWellFormed (fst kv), toWellFormed (value_string (snd kv)))) params.
Proof.
  intros A U u. subst u. unfold upstream_request. cbn [url].
  set (pairs := map (fun kv : jsstring * QueryValue => (fst kv, value_string (snd kv))) params).
  assert (Up : Forall (fun kv => forallb is_code_unit (fst kv) = true
                                 /\ forallb is_code_unit (snd kv) = true) pairs).
  { subst pairs. rewrite Forall_map. exact U. }
  assert (E : map (fun kv => (toWellFormed (fst kv), toWellFormed (value_string (snd kv)))) params
              = map (fun kv => (toWellFormed (fst kv), toWellFormed (snd kv))) pairs).
  { subst pairs. rewrite map_map. reflexivity. }
  rewrite E. rewrite <- (FormFacts.serialize_reads_back pairs Up). clearbody pairs. clear E U.
  assert (Plain : forallb (fun c => negb (c =? 63)) (lit "https://newsapi.org/v2/" ++ endpoint)
                  = true).
  { destruct A as [<-|[<-|[]]]; reflexivity. }
  unfold Url.href, Url.path_of, Url.query_of.
  destruct pairs as [|kv pairs'].
  - rewrite NewsApiFacts.cut_at_plain by exact Plain. split; reflexivity.
  - change (?b ++ [63] ++ ?q) with (b ++ 63 :: q).
    rewrite UrlFacts.cut_at_app by exact Plain. split; reflexivity.
Qed.




(** C4, in the direct client: a missing credential is detected before any
    call is made. *)
Lemma direct_client_detects_missing_credential P API_KEY topic run :
  NewsApi.missing API_KEY = true ->
  In run (NewsApi.searches P API_KEY topic) ->
  calls run = [] /\ completion run = Throw NewsApi.ConfigurationError.
Proof.
  intros K [<-|[<-|[]]]; unfold NewsApi.fetchTopHeadlines, NewsApi.fetchNews;
    rewrite K; split; reflexivity.
Qed.

(** C4, in the proxy: the handler has no such check.  With the variable
    unset a valid request is forwarded, the header carrying the text
    [undefined], and what the upstream makes of it is relayed as a runtime
    API error. *)
Theorem handler_forwards_without_credential :
  let upstream_says :=
    Sample.responds 401 "Unauthorized" Sample.key_invalid_body in
  let h := handler (Sample.platform upstream_says) None
             (Sample.get_request [("endpoint", QString (lit "everything"));
                                  ("q", QString (lit "foo"))]%string) in
  upstream_calls h
  = [mkRequest (lit "https://newsapi.org/v2/everything?q=foo")
               [(lit "X-Api-Key", lit "undefined")]]
  /\ res_status (sent h) = 401
  /\ res_body (sent h) = Some Sample.key_invalid_body.
Proof. cbv zeta. repeat split. Qed.

End ApiNewsFacts.

(* ================================================================== *)
(** * Facts: the two strategies *)
(* ================================================================== *)

Module StrategyFacts.
Import ApiNews Deployment RunNotations.

Lemma uri_char_plain q :
  forallb Uri.uri_char q = true ->
  forallb (fun c => negb (c =? 38)) q = true
  /\ forallb (fun c => negb (c =? 35)) q = true.
Proof.
  intros H. split; rewrite forallb_forall in *; intros c Hc; specialize (H c Hc);
    apply negb_true_iff, Z.eqb_neq; intros ->; discriminate H.
Qed.

(** The request the proxied [fetchNews] sends reaches the function as a
    GET request for the "everything" endpoint. *)
Lemma proxied_everything_query KEY q :
  forallb Uri.uri_char q = true ->
  let u := ProxiedNewsApi.everything_url false KEY q in
  fst (Url.cut_at 35 u) = u
  /\ Url.path_of u = function_path
  /\ parse_query (Url.query_of u)
     = [(lit "endpoint", QString (lit "everything")); (lit "q", QString (form_decode q));
        (lit "pageSize", QString (lit "10")); (lit "sortBy", QString (lit "publishedAt"));
        (lit "language", QString (lit "en"))].
Proof.
  intros Hq u. destruct (uri_char_plain q Hq) as [Hamp Hhash].
  assert (Hu : u = lit "/api/news"
                   ++ 63 :: lit "endpoint=everything"
                   ++ 38 :: (113 :: 61 :: q)
                   ++ 38 :: lit "pageSize=10&sortBy=publishedAt&language=en")
    by reflexivity.
  split; [|split].
  - rewrite NewsApiFacts.cut_at_plain; [reflexivity|].
    rewrite Hu. change (63 :: ?x) with ([63] ++ x). change (38 :: ?x) with ([38] ++ x).
    change (113 :: 61 :: q) with ([113; 61] ++ q).
    rewrite !forallb_app, Hhash. reflexivity.
  - rewrite Hu. unfold Url.path_of. rewrite UrlFacts.cut_at_app by reflexivity. reflexivity.
  - assert (Hraw : Url.raw_params (Url.query_of u)
                   = [(lit "endpoint", lit "everything"); (lit "q", q);
                      (lit "pageSize", lit "10"); (lit "sortBy", lit "publishedAt");
                      (lit "language", lit "en")]).
    { rewrite Hu. unfold Url.query_of, Url.raw_params.
      rewrite UrlFacts.cut_at_app by reflexivity. cbn [snd].
      rewrite UrlFacts.split_on_app by reflexivity.
      rewrite UrlFacts.split_on_app by (cbn [forallb]; rewrite Hamp; reflexivity).
      replace (Url.split_on 38 (lit "pageSize=10&sortBy=publishedAt&language=en"))
        with [lit "pageSize=10"; lit "sortBy=publishedAt"; lit "language=en"]
        by reflexivity.
      reflexivity. }
    unfold parse_query. rewrite Hraw. cbn [map fst snd].
    generalize (form_decode q). intros v. clear. vm_compute. reflexivity.
Qed.


(** What the browser receives for that request when the server's network
    answers every call with [r]. *)
Lemma browser_fetch_everything Server SERVER_KEY reason KEY q r :
  forallb Uri.uri_char q = true ->
  (forall request, fetch Server request = Return r) ->
  browser_fetch Server SERVER_KEY reason
                (mkRequest (ProxiedNewsApi.everything_url false KEY q) [])
  = Return
      (match Json.parse (body r) with
       | Some data => mkResponse (status r) (reason (status r)) (Json.stringify data)
       | None =>
           mkResponse 500 (reason 500)
             (Json.stringify
                (JObj [(lit "error", JStr (lit "Failed to fetch news"));
                       (lit "message", JStr (syntax_error_message Server (body r)))]))
       end).
Proof.
  intros Hq F. unfold browser_fetch. cbn [url].
  destruct (proxied_everything_query KEY q Hq) as (Hu & Hp & Hparse).
  rewrite Hu, Hp, Hparse. change (JsString.eqb function_path function_path) with true.
  cbv iota.
  rewrite (ApiNewsFacts.handler_run Server SERVER_KEY _ (lit "everything"));
    [|reflexivity|reflexivity|right; left; reflexivity].
  cbv zeta. rewrite F. destruct (Json.parse (body r)); reflexivity.
Qed.

Lemma browser_fetch_top_headlines Server SERVER_KEY reason KEY r :
  (forall request, fetch Server request = Return r) ->
  browser_fetch Server SERVER_KEY reason
                (mkRequest (ProxiedNewsApi.top_headlines_url false KEY) [])
  = Return
      (match Json.parse (body r) with
       | Some data => mkResponse (status r) (reason (status r)) (Json.stringify data)
       | None =>
           mkResponse 500 (reason 500)
             (Json.stringify
                (JObj [(lit "error", JStr (lit "Failed to fetch news"));
                       (lit "message", JStr (syntax_error_message Server (body r)))]))
       end).
Proof.
  intros F. unfold browser_fetch. cbn [url].
  change (fst (Url.cut_at 35 (ProxiedNewsApi.top_headlines_url false KEY)))
    with (lit "/api/news?endpoint=top-headlines&country=us&pageSize=10").
  change (JsString.eqb (Url.path_of _) function_path) with true. cbv iota.
  rewrite (ApiNewsFacts.handler_run Server SERVER_KEY _ (lit "top-headlines"));
    [|reflexivity|reflexivity|left; reflexivity].
  cbv zeta. rewrite F. destruct (Json.parse (body r)); reflexivity.
Qed.

(** Reading a response with a JSON body depends on the status, on the
    status text where the status is an error other than 401 and 429, and
    on the parsed body, not on the platform. *)
Lemma read_response_parsed P1 P2 r1 r2 data :
  status r1 = status r2 ->
  ok r1 = true \/ status r1 = 401 \/ status r1 = 429 \/ statusText r1 = statusText r2 ->
  Json.parse (body r1) = Some data -> Json.parse (body r2) = Some data ->
  NewsApi.read_response P1 r1 = NewsApi.read_response P2 r2.
Proof.
  intros S T J1 J2. unfold NewsApi.read_response, json, ok.
  rewrite J1, J2, <- S.
  destruct ((200 <=? status r1) && (status r1 <=? 299)) eqn:Ok; cbn [negb];
    [reflexivity|].
  destruct (status r1 =? 401) eqn:E1; [reflexivity|].
  destruct (status r1 =? 429) eqn:E2; [reflexivity|].
  destruct T as [T|[T|[T|T]]].
  - unfold ok in T. congruence.
  - apply Z.eqb_neq in E1. contradiction.
  - apply Z.eqb_neq in E2. contradiction.
  - rewrite T. reflexivity.
Qed.

Lemma settle_parsed P1 P2 r1 r2 data :
  status r1 = status r2 ->
  ok r1 = true \/ status r1 = 401 \/ status r1 = 429 \/ statusText r1 = statusText r2 ->
  Json.parse (body r1) = Some data -> Json.parse (body r2) = Some data ->
  NewsApi.settle P1 (Return r1) = NewsApi.settle P2 (Return r2).
Proof.
  intros S T J1 J2. unfold NewsApi.settle.
  rewrite !NewsApiFacts.bind_lift_return.
  rewrite (read_response_parsed P1 P2 r1 r2 data S T J1 J2). reflexivity.
Qed.

Lemma proxied_fetchTopHeadlines_run P KEY :
  ProxiedNewsApi.fetchTopHeadlines P false KEY
  = (let request := mkRequest (ProxiedNewsApi.top_headlines_url false KEY) [] in
     ([request], NewsApi.settle P (fetch P request))).
Proof. apply NewsApiFacts.run_after_fetch. Qed.

Lemma proxied_fetchNews_run P KEY topic q :
  trim topic <> [] -> Uri.encode topic = Some q ->
  ProxiedNewsApi.fetchNews P false KEY topic
  = (let request := mkRequest (ProxiedNewsApi.everything_url false KEY q) [] in
     ([request], NewsApi.settle P (fetch P request))).
Proof.
  intros T E. unfold ProxiedNewsApi.fetchNews.
  apply NewsApiFacts.trim_nonempty in T as T'. apply eqb_neq in T, T'.
  rewrite T, T'. cbn [orb].
  unfold Uri.encodeURIComponent. rewrite E, NewsApiFacts.bind_lift_return. cbv zeta.
  apply NewsApiFacts.run_after_fetch.
Qed.

Lemma same_result_refl c : Spec.same_result c c.
Proof. destruct c; reflexivity. Qed.

Lemma kind_of_UpstreamError status statusText :
  Spec.kind_of (NewsApi.UpstreamError status statusText) = Spec.KUpstreamError.
Proof. reflexivity. Qed.

(** A response with an error status other than 401 and 429. *)
Lemma settle_other_status P response :
  ok response = false -> status response <> 401 -> status response <> 429 ->
  NewsApi.settle P (Return response)
  = Throw (if NewsApi.names_network_failure
                (NewsApi.UpstreamError (status response) (statusText response))
           then NewsApi.NetworkError
           else NewsApi.UpstreamError (status response) (statusText response)).
Proof.
  intros Ok N1 N2. unfold NewsApi.settle. rewrite NewsApiFacts.bind_lift_return.
  unfold NewsApi.read_response. rewrite Ok. cbn [negb].
  apply Z.eqb_neq in N1, N2. rewrite N1, N2.
  cbn [RunNotations.throw RunNotations.try_catch]. unfold NewsApi.on_error.
  destruct (NewsApi.names_network_failure _); reflexivity.
Qed.

(** What the two clients make of the upstream's response [r] and of the
    response the handler makes of it. *)
Lemma settle_same_result P1 P2 P3 reason r :
  (ok r = true ->
   exists data, Json.parse (body r) = Some data /\ Json.within_binary64 data = true) ->
  (status r = 401 \/ status r = 429 -> Json.parse (body r) <> None) ->
  (ok r = false -> status r <> 401 -> status r <> 429 ->
   let relayed := match Json.parse (body r) with Some _ => status r | None => 500 end in
   NewsApi.names_network_failure (NewsApi.UpstreamError (status r) (statusText r))
   = NewsApi.names_network_failure (NewsApi.UpstreamError relayed (reason relayed))) ->
  Spec.same_result
    (NewsApi.settle P1 (Return r))
    (NewsApi.settle P2
       (Return
          (match Json.parse (body r) with
           | Some data => mkResponse (status r) (reason (status r)) (Json.stringify data)
           | None =>
               mkResponse 500 (reason 500)
                 (Json.stringify
                    (JObj [(lit "error", JStr (lit "Failed to fetch news"));
                           (lit "message", JStr (syntax_error_message P3 (body r)))]))
           end))).
Proof.
  intros H1 H2 H3.
  destruct (ok r) eqn:Ok.
  { destruct (H1 eq_refl) as (data & J & _). rewrite J.
    pose proof (RoundTrip.parse_stringify_parse _ _ J) as RT.
    rewrite (settle_parsed P1 P2 r
               (mkResponse (status r) (reason (status r)) (Json.stringify data)) data);
      [apply same_result_refl| | |exact J|exact RT].
    - reflexivity.
    - left. exact Ok. }
  destruct (Z.eq_dec (status r) 401) as [E1|N1];
    [|destruct (Z.eq_dec (status r) 429) as [E2|N2]].
  - destruct (Json.parse (body r)) as [data|] eqn:J; [|exfalso; apply H2; auto].
    pose proof (RoundTrip.parse_stringify_parse _ _ J) as RT.
    rewrite (settle_parsed P1 P2 r
               (mkResponse (status r) (reason (status r)) (Json.stringify data)) data);
      [apply same_result_refl| | |exact J|exact RT].
    + reflexivity.
    + right. left. exact E1.
  - destruct (Json.parse (body r)) as [data|] eqn:J; [|exfalso; apply H2; auto].
    pose proof (RoundTrip.parse_stringify_parse _ _ J) as RT.
    rewrite (settle_parsed P1 P2 r
               (mkResponse (status r) (reason (status r)) (Json.stringify data)) data);
      [apply same_result_refl| | |exact J|exact RT].
    + reflexivity.
    + right. right. left. exact E2.
  - specialize (H3 eq_refl N1 N2). cbv zeta in H3.
    rewrite (settle_other_status P1 r Ok N1 N2), H3. clear H3.
    destruct (Json.parse (body r)) as [data|].
    + rewrite (settle_other_status P2); [|exact Ok|exact N1|exact N2].
      cbn [status statusText].
      destruct (NewsApi.names_network_failure
                  (NewsApi.UpstreamError (status r) (reason (status r))));
        [reflexivity|].
      cbn [Spec.same_result]. rewrite !kind_of_UpstreamError. reflexivity.
    + rewrite (settle_other_status P2); [|reflexivity|discriminate|discriminate].
      cbn [status statusText].
      destruct (NewsApi.names_network_failure
                  (NewsApi.UpstreamError 500 (reason 500)));
        [reflexivity|].
      cbn [Spec.same_result]. rewrite !kind_of_UpstreamError. reflexivity.
Qed.




End StrategyFacts.

(* ================================================================== *)
(** * Facts: the proxy, request by request *)
(* ================================================================== *)

Module ProxyFacts.
Import ApiNews.

Lemma code_units_plain s : forallb is_code_unit s = true -> Json.plain s = true.
Proof.
  unfold Json.plain. intros H. rewrite forallb_forall in *. intros c Hc.
  specialize (H c Hc). unfold is_code_unit in H. apply andb_true_iff in H. tauto.
Qed.

(** The four ways through the handler. *)
Lemma handler_cases P VITE_NEWS_API_KEY req :
  (method req = lit "OPTIONS"
   /\ handler P VITE_NEWS_API_KEY req = mkHandled [] [] (status_end 200))
  \/ (method req <> lit "OPTIONS" /\ method req <> lit "GET"
      /\ handler P VITE_NEWS_API_KEY req
         = mkHandled [] []
             (status_json 405 (JObj [(lit "error", JStr (lit "Method not allowed"))])))
  \/ (method req = lit "GET"
      /\ valid_endpoint (lookup (lit "endpoint") (query req)) = None
      /\ handler P VITE_NEWS_API_KEY req
         = mkHandled [] []
             (status_json 400 (JObj [(lit "error", JStr (lit "Invalid endpoint"))])))
  \/ (exists endpoint,
        method req = lit "GET"
        /\ lookup (lit "endpoint") (query req) = Some (QString endpoint)
        /\ In endpoint validEndpoints).
Proof.
  unfold handler.
  destruct (JsString.eqb (method req) (lit "OPTIONS")) eqn:O.
  { left. apply eqb_eq in O. split; [exact O|reflexivity]. }
  apply eqb_neq in O.
  destruct (JsString.eqb (method req) (lit "GET")) eqn:G; cbn [negb].
  2:{ right. left. apply eqb_neq in G. repeat split; assumption. }
  apply eqb_eq in G.
  destruct (valid_endpoint (lookup (lit "endpoint") (query req))) as [e|] eqn:V.
  - right. right. right. exists e. apply ApiNewsFacts.valid_endpoint_allowed in V.
    destruct V as [L A]. repeat split; assumption.
  - right. right. left. repeat split; assumption.
Qed.


Lemma upstream_request_path VITE_NEWS_API_KEY endpoint params :
  In endpoint validEndpoints ->
  Url.path_of (url (upstream_request VITE_NEWS_API_KEY endpoint params))
  = lit "https://newsapi.org/v2/" ++ endpoint.
Proof.
  intros A. unfold upstream_request. cbn [url].
  assert (Plain : forallb (fun c => negb (c =? 63)) (lit "https://newsapi.org/v2/" ++ endpoint)
                  = true).
  { destruct A as [<-|[<-|[]]]; reflexivity. }
  unfold Url.href, Url.path_of.
  destruct (map _ params) as [|kv pairs].
  - rewrite NewsApiFacts.cut_at_plain by exact Plain. reflexivity.
  - change (?b ++ [63] ++ ?q) with (b ++ 63 :: q).
    rewrite UrlFacts.cut_at_app by exact Plain. reflexivity.
Qed.

(** X1. Every response of the handler carries the three CORS headers: the
    answer to a preflight, the refusals 405 and 400, the relayed answer
    and the error 500. *)
Theorem handler_sets_cors_headers P VITE_NEWS_API_KEY req :
  res_headers (sent (handler P VITE_NEWS_API_KEY req))
  = [(lit "Access-Control-Allow-Origin", lit "*");
     (lit "Access-Control-Allow-Methods", lit "GET, OPTIONS");
     (lit "Access-Control-Allow-Headers", lit "Content-Type")].
Proof.
  destruct (handler_cases P VITE_NEWS_API_KEY req)
    as [[_ ->]|[(_ & _ & ->)|[(_ & _ & ->)|(e & M & L & A)]]]; try reflexivity.
  rewrite (ApiNewsFacts.handler_run P VITE_NEWS_API_KEY req e M L A). cbv zeta.
  destruct (fetch P _) as [r|err]; [|reflexivity].
  destruct (Json.parse (body r)); reflexivity.
Qed.

(** X2. A request that is not a GET reaches no upstream: a preflight
    (OPTIONS) is answered 200 with no body, any other method 405 with the
    error "Method not allowed", whatever the query. *)
Theorem handler_refuses_other_methods P VITE_NEWS_API_KEY req :
  method req <> lit "GET" ->
  upstream_calls (handler P VITE_NEWS_API_KEY req) = []
  /\ console_error (handler P VITE_NEWS_API_KEY req) = []
  /\ (method req = lit "OPTIONS" ->
      res_status (sent (handler P VITE_NEWS_API_KEY req)) = 200
      /\ res_body (sent (handler P VITE_NEWS_API_KEY req)) = None)
  /\ (method req <> lit "OPTIONS" ->
      res_status (sent (handler P VITE_NEWS_API_KEY req)) = 405
      /\ res_body (sent (handler P VITE_NEWS_API_KEY req))
         = Some (Json.stringify (JObj [(lit "error", JStr (lit "Method not allowed"))]))).
Proof.
  intros NG.
  destruct (handler_cases P VITE_NEWS_API_KEY req)
    as [[O ->]|[(O & _ & ->)|[(G & _)|(e & G & _)]]]; try contradiction.
  - refine (conj eq_refl (conj eq_refl (conj _ _))).
    + intros _. split; reflexivity.
    + intros N. contradiction.
  - refine (conj eq_refl (conj eq_refl (conj _ _))).
    + intros N. contradiction.
    + intros _. split; reflexivity.
Qed.

Lemma handler_refuses_other_methods_witness :
  let post := mkVercelRequest (lit "POST") [(lit "endpoint", QString (lit "everything"))] in
  let h := handler (Sample.platform (Sample.responds 200 "OK" (lit "{}"))) Sample.key post in
  upstream_calls h = [] /\ res_status (sent h) = 405.
Proof.
  intros post h.
  pose proof (handler_refuses_other_methods
                (Sample.platform (Sample.responds 200 "OK" (lit "{}"))) Sample.key post)
    as H.
  destruct H as (C & _ & _ & N); [discriminate|].
  split; [exact C|]. apply N. discriminate.
Defined.

(** X3. The handler calls nothing but the upstream: whatever the request,
    a call it makes is its only call, goes to one of the two endpoints of
    [https://newsapi.org/v2/], carries the header [X-Api-Key] and no
    other, and answers a GET. *)
Theorem handler_calls_only_the_upstream P VITE_NEWS_API_KEY req request :
  In request (upstream_calls (handler P VITE_NEWS_API_KEY req)) ->
  upstream_calls (handler P VITE_NEWS_API_KEY req) = [request]
  /\ (Url.path_of (url request) = lit "https://newsapi.org/v2/top-headlines"
      \/ Url.path_of (url request) = lit "https://newsapi.org/v2/everything")
  /\ headers request = [(lit "X-Api-Key", header_string VITE_NEWS_API_KEY)]
  /\ method req = lit "GET".
Proof.
  destruct (handler_cases P VITE_NEWS_API_KEY req)
    as [[_ ->]|[(_ & _ & ->)|[(_ & _ & ->)|(e & M & L & A)]]];
    try (intros []).
  rewrite (ApiNewsFacts.handler_run P VITE_NEWS_API_KEY req e M L A). cbv zeta.
  set (r := upstream_request VITE_NEWS_API_KEY e (rest (lit "endpoint") (query req))).
  assert (C : forall h, upstream_calls h = [r] -> In request (upstream_calls h) ->
              upstream_calls h = [request]
              /\ (Url.path_of (url request) = lit "https://newsapi.org/v2/top-headlines"
                  \/ Url.path_of (url request) = lit "https://newsapi.org/v2/everything")
              /\ headers request = [(lit "X-Api-Key", header_string VITE_NEWS_API_KEY)]
              /\ method req = lit "GET").
  { intros h -> [<-|[]]. split; [reflexivity|]. split; [|split; [reflexivity|exact M]].
    subst r. rewrite (upstream_request_path _ _ _ A).
    destruct A as [<-|[<-|[]]]; [left|right]; reflexivity. }
  destruct (fetch P r) as [resp|err]; [|apply C; reflexivity].
  destruct (Json.parse (body resp)); apply C; reflexivity.
Qed.

Lemma handler_calls_only_the_upstream_witness :
  let h := handler (Sample.platform (Sample.responds 200 "OK" (lit "{}"))) Sample.key
             (Sample.get_request [("endpoint", QString (lit "everything"));
                                  ("q", QString (lit "a?b"))]%string) in
  let request := mkRequest (lit "https://newsapi.org/v2/everything?q=a%3Fb")
                           [(lit "X-Api-Key", lit "0123456789abcdef")] in
  upstream_calls h = [request]
  /\ (Url.path_of (url request) = lit "https://newsapi.org/v2/top-headlines"
      \/ Url.path_of (url request) = lit "https://newsapi.org/v2/everything")
  /\ headers request = [(lit "X-Api-Key", lit "0123456789abcdef")]
  /\ lit "GET" = lit "GET".
Proof.
  intros h request.
  apply (handler_calls_only_the_upstream
           (Sample.platform (Sample.responds 200 "OK" (lit "{}"))) Sample.key
           (Sample.get_request [("endpoint", QString (lit "everything"));
                                ("q", QString (lit "a?b"))]%string) request).
  left. reflexivity.
Defined.

(** X6. When the call of the upstream is rejected (the network is down,
    the host is unknown), the handler logs the error and answers 500 with
    the error "Failed to fetch news" and the message of the rejection. *)
Theorem handler_reports_rejected_call P VITE_NEWS_API_KEY req endpoint error :
  method req = lit "GET" ->
  lookup (lit "endpoint") (query req) = Some (QString endpoint) ->
  In endpoint validEndpoints ->
  let request := upstream_request VITE_NEWS_API_KEY endpoint
                                  (rest (lit "endpoint") (query req)) in
  fetch P request = Throw error ->
  upstream_calls (handler P VITE_NEWS_API_KEY req) = [request]
  /\ console_error (handler P VITE_NEWS_API_KEY req) = [error]
  /\ res_status (sent (handler P VITE_NEWS_API_KEY req)) = 500
  /\ res_body (sent (handler P VITE_NEWS_API_KEY req))
     = Some (Json.stringify (JObj [(lit "error", JStr (lit "Failed to fetch news"));
                                   (lit "message", JStr (message error))])).
Proof.
  intros M L A request F.
  rewrite (ApiNewsFacts.handler_run P VITE_NEWS_API_KEY req endpoint M L A). cbv zeta.
  fold request. rewrite F. repeat split.
Qed.

Lemma handler_reports_rejected_call_witness :
  let P := Sample.platform (Throw (TypeError (lit "fetch failed"))) in
  let h := handler P Sample.key
             (Sample.get_request [("endpoint", QString (lit "everything"));
                                  ("q", QString (lit "foo"))]%string) in
  upstream_calls h = [mkRequest (lit "https://newsapi.org/v2/everything?q=foo")
                                [(lit "X-Api-Key", lit "0123456789abcdef")]]
  /\ console_error h = [TypeError (lit "fetch failed")]
  /\ res_status (sent h) = 500
  /\ res_body (sent h)
     = Some (Json.stringify (JObj [(lit "error", JStr (lit "Failed to fetch news"));
                                   (lit "message", JStr (lit "fetch failed"))])).
Proof.
  intros P h.
  refine (handler_reports_rejected_call P Sample.key
            (Sample.get_request [("endpoint", QString (lit "everything"));
                                 ("q", QString (lit "foo"))]%string)
            (lit "everything") (TypeError (lit "fetch failed"))
            eq_refl eq_refl (or_intror (or_introl eq_refl)) eq_refl).
Defined.

(** X7. When the body of the upstream's response is not JSON text,
    whatever its status, the handler answers 500 with the message of the
    parser's SyntaxError; the upstream's status and body are not relayed. *)
Theorem handler_reports_unparsable_body P VITE_NEWS_API_KEY req endpoint response :
  method req = lit "GET" ->
  lookup (lit "endpoint") (query req) = Some (QString endpoint) ->
  In endpoint validEndpoints ->
  let request := upstream_request VITE_NEWS_API_KEY endpoint
                                  (rest (lit "endpoint") (query req)) in
  fetch P request = Return response ->
  Json.parse (body response) = None ->
  let error := SyntaxError (syntax_error_message P (body response)) in
  upstream_calls (handler P VITE_NEWS_API_KEY req) = [request]
  /\ console_error (handler P VITE_NEWS_API_KEY req) = [error]
  /\ res_status (sent (handler P VITE_NEWS_API_KEY req)) = 500
  /\ res_body (sent (handler P VITE_NEWS_API_KEY req))
     = Some (Json.stringify (JObj [(lit "error", JStr (lit "Failed to fetch news"));
                                   (lit "message", JStr (message error))])).
Proof.
  intros M L A request F J error.
  rewrite (ApiNewsFacts.handler_run P VITE_NEWS_API_KEY req endpoint M L A). cbv zeta.
  fold request. rewrite F, J. repeat split.
Qed.

Lemma handler_reports_unparsable_body_witness :
  let P := Sample.platform (Sample.responds 200 "OK" []) in
  let h := handler P Sample.key
             (Sample.get_request [("endpoint", QString (lit "top-headlines"))]%string) in
  upstream_calls h = [mkRequest (lit "https://newsapi.org/v2/top-headlines")
                                [(lit "X-Api-Key", lit "0123456789abcdef")]]
  /\ console_error h = [SyntaxError (lit "Unexpected token  in JSON at position 0")]
  /\ res_status (sent h) = 500
  /\ res_body (sent h)
     = Some (Json.stringify
               (JObj [(lit "error", JStr (lit "Failed to fetch news"));
                      (lit "message", JStr (lit "Unexpected token  in JSON at position 0"))])).
Proof.
  intros P h.
  refine (handler_reports_unparsable_body P Sample.key
            (Sample.get_request [("endpoint", QString (lit "top-headlines"))]%string)
            (lit "top-headlines") (mkResponse 200 (lit "OK") [])
            eq_refl eq_refl (or_introl eq_refl) eq_refl eq_refl).
Defined.

Lemma error_payload_canonical text msg :
  Json.plain msg = true ->
  Json.canonical (JObj [(lit "error", JStr (lit text)); (lit "message", JStr msg)]) = true.
Proof.
  intros H. cbn [Json.canonical forallb map fst snd]. rewrite H.
  assert (T : Json.plain (lit text) = true).
  { unfold Json.plain, lit. rewrite forallb_forall. intros c Hc.
    apply in_map_iff in Hc. destruct Hc as (a & <- & _). unfold chr.
    apply Z.leb_le. lia. }
  rewrite T. reflexivity.
Qed.

(** X8. Whatever the handler sends as a body is JSON text: the relayed
    data, and the error payloads, whose message comes from the platform. *)
Theorem handler_sends_json P VITE_NEWS_API_KEY req text :
  (forall request error,
     fetch P request = Throw error -> forallb is_code_unit (message error) = true) ->
  (forall request response,
     fetch P request = Return response ->
     forallb is_code_unit (syntax_error_message P (body response)) = true) ->
  res_body (sent (handler P VITE_NEWS_API_KEY req)) = Some text ->
  exists data, Json.parse text = Some data.
Proof.
  intros HF HS.
  assert (Sent : forall code v, Json.canonical v = true ->
                 res_body (status_json code v) = Some text ->
                 exists data, Json.parse text = Some data).
  { intros code v C [= <-]. exists v. apply RoundTrip.parse_stringify, C. }
  destruct (handler_cases P VITE_NEWS_API_KEY req)
    as [[_ ->]|[(_ & _ & ->)|[(_ & _ & ->)|(e & M & L & A)]]];
    try discriminate; try (apply Sent; reflexivity).
  rewrite (ApiNewsFacts.handler_run P VITE_NEWS_API_KEY req e M L A). cbv zeta.
  destruct (fetch P _) as [r|err] eqn:F.
  - destruct (Json.parse (body r)) as [data|] eqn:J.
    + apply Sent. apply (RoundTrip.parse_canonical _ _ J).
    + apply Sent. apply error_payload_canonical, code_units_plain. apply (HS _ _ F).
  - apply Sent. apply error_payload_canonical, code_units_plain.
    apply (HF _ _ F).
Qed.

Lemma handler_sends_json_witness :
  exists data,
    Json.parse (Json.stringify
                  (JObj [(lit "error", JStr (lit "Failed to fetch news"));
                         (lit "message",
                          JStr (lit "Unexpected token < in JSON at position 0"))]))
    = Some data.
Proof.
  apply (handler_sends_json
           (Sample.platform (Sample.responds 502 "Bad Gateway" (lit "<html>Bad Gateway</html>")))
           Sample.key
           (Sample.get_request [("endpoint", QString (lit "everything"));
                                ("q", QString (lit "foo"))]%string)).
  - intros request error F. discriminate F.
  - intros request response [= <-]. reflexivity.
  - reflexivity.
Defined.




Lemma rest_lookup {A} k (props : list (jsstring * A)) : lookup k (rest k props) = None.
Proof.
  unfold rest. induction props as [|[k' v] props IH]; [reflexivity|].
  cbn [filter fst]. destruct (JsString.eqb k' k) eqn:E; cbn [negb]; [exact IH|].
  cbn [lookup]. rewrite E. exact IH.
Qed.

Lemma lookup_map_value {A B} (f : A -> B) k (props : list (jsstring * A)) :
  lookup k (map (fun kv => (fst kv, f (snd kv))) props)
  = match lookup k props with Some v => Some (f v) | None => None end.
Proof.
  induction props as [|[k' v] props IH]; [reflexivity|].
  cbn [map lookup fst snd]. destruct (JsString.eqb k' k); [reflexivity|exact IH].
Qed.

(** X4. The parameters of a request other than [endpoint] all reach the
    upstream, and [endpoint] does not: for well-formed names and values,
    the query of the upstream URL, read as a server reads it, is the list
    of the other parameters, in their order, the values of a repeated
    parameter joined by commas; no parameter named [endpoint] is among
    them. *)
Theorem handler_forwards_other_parameters P VITE_NEWS_API_KEY req endpoint :
  method req = lit "GET" ->
  lookup (lit "endpoint") (query req) = Some (QString endpoint) ->
  In endpoint validEndpoints ->
  Forall (fun kv => isWellFormed (fst kv) = true
                    /\ isWellFormed (value_string (snd kv)) = true) (query req) ->
  let forwarded := map (fun kv => (fst kv, value_string (snd kv)))
                       (rest (lit "endpoint") (query req)) in
  exists request,
    upstream_calls (handler P VITE_NEWS_API_KEY req) = [request]
    /\ map (fun kv => (Deployment.form_decode (fst kv), Deployment.form_decode (snd kv)))
           (Url.raw_params (Url.query_of (url request)))
       = forwarded
    /\ lookup (lit "endpoint") forwarded = None.
Proof.
  intros M L A WF forwarded.
  set (params := rest (lit "endpoint") (query req)).
  exists (upstream_request VITE_NEWS_API_KEY endpoint params).
  split; [|split].
  - rewrite (ApiNewsFacts.handler_run P VITE_NEWS_API_KEY req endpoint M L A). cbv zeta.
    fold params. destruct (fetch P _) as [r|e]; [|reflexivity].
    destruct (Json.parse (body r)); reflexivity.
  - assert (WF' : Forall (fun kv => isWellFormed (fst kv) = true
                                    /\ isWellFormed (value_string (snd kv)) = true) params).
    { subst params. unfold rest. rewrite Forall_forall in *. intros kv Hin.
      apply filter_In in Hin. apply WF, Hin. }
    destruct (ApiNewsFacts.upstream_query_reads_back VITE_NEWS_API_KEY endpoint params A)
      as [_ R].
    { rewrite Forall_forall in *. intros kv Hin. destruct (WF' kv Hin) as [Wk Wv].
      split; apply UriFacts.isWellFormed_code_units; assumption. }
    rewrite R. subst forwarded. fold params. apply map_ext_in. intros kv Hin.
    rewrite Forall_forall in WF'. destruct (WF' kv Hin) as [Wk Wv].
    rewrite !FormFacts.toWellFormed_well_formed by assumption. reflexivity.
  - subst forwarded. rewrite (lookup_map_value value_string). rewrite rest_lookup.
    reflexivity.
Qed.

Lemma handler_forwards_other_parameters_witness :
  let req := Sample.get_request [("q", QString (lit "climate & energy"));
                                 ("endpoint", QString (lit "everything"));
                                 ("sources", QArray [lit "bbc-news"; lit "cnn"])]%string in
  let P := Sample.platform (Sample.responds 200 "OK" (lit "{}")) in
  exists request,
    upstream_calls (handler P Sample.key req) = [request]
    /\ map (fun kv => (Deployment.form_decode (fst kv), Deployment.form_decode (snd kv)))
           (Url.raw_params (Url.query_of (url request)))
       = [(lit "q", lit "climate & energy"); (lit "sources", lit "bbc-news,cnn")]
    /\ lookup (lit "endpoint")
              [(lit "q", lit "climate & energy"); (lit "sources", lit "bbc-news,cnn")]
       = None.
Proof.
  intros req P.
  apply (handler_forwards_other_parameters P Sample.key req (lit "everything")).
  - reflexivity.
  - reflexivity.
  - right. left. reflexivity.
  - repeat constructor.
Defined.

(** X9. The credential goes to the upstream and nowhere else: if the
    upstream answers a URL alike under two values of [VITE_NEWS_API_KEY],
    then the handler sends the same response, logs the same and calls the
    same URL under both. *)
Theorem handler_keeps_credential_out_of_response P key1 key2 req :
  (forall u, fetch P (mkRequest u [(lit "X-Api-Key", header_string key1)])
             = fetch P (mkRequest u [(lit "X-Api-Key", header_string key2)])) ->
  sent (handler P key1 req) = sent (handler P key2 req)
  /\ console_error (handler P key1 req) = console_error (handler P key2 req)
  /\ map url (upstream_calls (handler P key1 req))
     = map url (upstream_calls (handler P key2 req)).
Proof.
  intros H.
  destruct (handler_cases P key1 req)
    as [[O E1]|[(O & G & E1)|[(G & V & E1)|(e & M & L & A)]]].
  - destruct (handler_cases P key2 req)
      as [[_ E2]|[(O' & _)|[(G & _)|(e & G & _)]]];
      try contradiction; try (rewrite O in G; discriminate G).
    rewrite E1, E2. repeat split.
  - destruct (handler_cases P key2 req)
      as [[O' _]|[(_ & _ & E2)|[(G' & _)|(e & G' & _)]]]; try contradiction.
    rewrite E1, E2. repeat split.
  - destruct (handler_cases P key2 req)
      as [[O' _]|[(_ & G' & _)|[(_ & _ & E2)|(e & _ & L & A)]]];
      try contradiction; try (rewrite G in O'; discriminate O').
    + rewrite E1, E2. repeat split.
    + rewrite (proj2 (ApiNewsFacts.valid_endpoint_allowed _ e) (conj L A)) in V.
      discriminate V.
  - rewrite (ApiNewsFacts.handler_run P key1 req e M L A).
    rewrite (ApiNewsFacts.handler_run P key2 req e M L A). cbv zeta.
    unfold upstream_request. rewrite H.
    destruct (fetch P _) as [r|err]; [|repeat split].
    destruct (Json.parse (body r)); repeat split.
Qed.

Lemma handler_keeps_credential_out_of_response_witness :
  let P := Sample.platform (Sample.responds 401 "Unauthorized" Sample.key_invalid_body) in
  let req := Sample.get_request [("endpoint", QString (lit "everything"));
                                 ("q", QString (lit "foo"))]%string in
  sent (handler P Sample.key req) = sent (handler P None req)
  /\ console_error (handler P Sample.key req) = console_error (handler P None req)
  /\ map url (upstream_calls (handler P Sample.key req))
     = map url (upstream_calls (handler P None req)).
Proof.
  intros P req. apply (handler_keeps_credential_out_of_response P Sample.key None req).
  intros u. reflexivity.
Defined.

End ProxyFacts.

(* ================================================================== *)
(** * Facts: what the direct client makes of a response *)
(* ================================================================== *)

Module ClientFacts.
Import NewsApi RunNotations.

(** What the catch clause makes of an error thrown in the try block. *)
Lemma settle_thrown P response error :
  completion (read_response P response) = Throw error ->
  settle P (Return response)
  = Throw (if names_network_failure error then NetworkError else error).
Proof.
  intros R. unfold settle. rewrite NewsApiFacts.bind_lift_return.
  pose proof (NewsApiFacts.read_response_calls P response) as Cs.
  unfold calls, completion in *.
  destruct (read_response P response) as [cs c]. cbn [fst snd] in *. subst cs c.
  cbn [try_catch]. unfold on_error.
  destruct (names_network_failure error); reflexivity.
Qed.

Lemma settle_returned P response v :
  completion (read_response P response) = Return v ->
  settle P (Return response) = Return v.
Proof.
  intros R. unfold settle. rewrite NewsApiFacts.bind_lift_return.
  unfold completion in *.
  destruct (read_response P response) as [cs c]. cbn [snd] in *. subst c.
  reflexivity.
Qed.

(** Reading a 2xx response whose body is the JSON text of [data]. *)
Lemma read_response_ok P response data :
  ok response = true -> Json.parse (body response) = Some data ->
  read_response P response
  = (data_status <- lift (get data p_status) ;;
     if strict_equals_string data_status (lit "error") then
       data_message <- lift (get data p_message) ;;
       error <- lift (new_Error
                        (or_else data_message
                                 (JStr (lit "An error occurred while fetching news")))) ;;
       throw error
     else
       data_articles <- lift (get data p_articles) ;;
       match data_articles with
       | None => pure (JArr [])
       | Some articles =>
           if negb (truthy data_articles) then pure (JArr [])
           else
             articles_length <- lift (get articles p_length) ;;
             if strict_equals_zero articles_length then pure (JArr [])
             else pure articles
       end).
Proof.
  intros Ok J. unfold read_response, json. rewrite Ok, J. cbn [negb].
  rewrite NewsApiFacts.bind_lift_return. reflexivity.
Qed.

(** X10. A search makes one network call at most, and never without the
    credential: a call it makes goes to [https://newsapi.org/v2/] and
    carries the configured key in the header [X-Api-Key], its only header. *)
Theorem search_calls_once_with_credential P API_KEY topic run :
  In run (searches P API_KEY topic) ->
  calls run = []
  \/ exists u,
       calls run = [mkRequest u [(lit "X-Api-Key", key_of API_KEY)]]
       /\ startsWith u (lit "https://newsapi.org/v2/") = true
       /\ missing API_KEY = false.
Proof.
  intros [<-|[<-|[]]].
  - destruct (missing API_KEY) eqn:K.
    + left. unfold fetchTopHeadlines. rewrite K. reflexivity.
    + destruct (JsDate.toISOString (yesterday P)) as [from|error] eqn:Y.
      * right. rewrite (NewsApiFacts.fetchTopHeadlines_run P API_KEY from K Y).
        cbv zeta. eexists. split; [reflexivity|]. split; reflexivity.
      * left. apply (NewsApiFacts.fetchTopHeadlines_without_date P API_KEY error Y).
  - destruct (missing API_KEY) eqn:K.
    { left. unfold fetchNews. rewrite K. reflexivity. }
    destruct (JsString.eqb topic [] || JsString.eqb (trim topic) []) eqn:B.
    { left. unfold fetchNews. rewrite K, B. reflexivity. }
    destruct (Uri.encode topic) as [q|] eqn:E.
    + right. apply orb_false_iff in B. destruct B as [_ B]. apply eqb_neq in B.
      rewrite (NewsApiFacts.fetchNews_run P API_KEY topic q K B E). cbv zeta.
      eexists. split; [reflexivity|]. split; reflexivity.
    + left. unfold fetchNews. rewrite K, B. unfold Uri.encodeURIComponent.
      rewrite E. reflexivity.
Qed.

Lemma search_calls_once_with_credential_witness :
  let P := Sample.platform (Sample.responds 200 "OK" (lit "{}")) in
  calls (fetchNews P Sample.key (lit "budget")) = []
  \/ exists u,
       calls (fetchNews P Sample.key (lit "budget"))
       = [mkRequest u [(lit "X-Api-Key", lit "0123456789abcdef")]]
       /\ startsWith u (lit "https://newsapi.org/v2/") = true
       /\ missing Sample.key = false.
Proof.
  intros P.
  apply (search_calls_once_with_credential P Sample.key (lit "budget")).
  right. left. reflexivity.
Defined.

(** X11. A response whose status is outside 200-299 and is neither 401 nor
    429 fails the search with the error "API error: <status> <status
    text>"; the body is not read. (The catch clause turns the error into
    the network error when the status text has one of its markers.) *)
Theorem other_status_is_upstream_error P API_KEY topic run request response :
  In run (searches P API_KEY topic) -> calls run = [request] ->
  fetch P request = Return response ->
  ok response = false -> status response <> 401 -> status response <> 429 ->
  let error := UpstreamError (status response) (statusText response) in
  completion run
  = Throw (if names_network_failure error then NetworkError else error).
Proof.
  intros I C F Ok N1 N2 error.
  rewrite (NewsApiFacts.search_settles _ _ _ _ _ I C), F.
  apply settle_thrown. unfold read_response. rewrite Ok. cbn [negb].
  apply Z.eqb_neq in N1, N2. rewrite N1, N2. reflexivity.
Qed.

Lemma other_status_is_upstream_error_witness :
  let P := Sample.platform (Sample.responds 500 "Internal Server Error" (lit "oops")) in
  completion (fetchTopHeadlines P Sample.key)
  = Throw (Error_ (lit "API error: 500 Internal Server Error")).
Proof.
  intros P.
  refine (other_status_is_upstream_error P Sample.key [] _
            (with_key Sample.key (top_headlines_url (lit "2025-11-05T09:30:00.000Z")))
            (mkResponse 500 (lit "Internal Server Error") (lit "oops"))
            (or_introl eq_refl) eq_refl eq_refl eq_refl _ _); discriminate.
Defined.

(** X12. A 2xx response whose body is an object with [status] "error"
    fails the search with the body's [message] when that is a non-empty
    string, and with the message "An error occurred while fetching news"
    when the body has no [message], or [null], or the empty string. *)
Theorem error_status_in_body P API_KEY topic run request response props :
  In run (searches P API_KEY topic) -> calls run = [request] ->
  fetch P request = Return response -> ok response = true ->
  Json.parse (body response) = Some (JObj props) ->
  lookup (lit "status") props = Some (JStr (lit "error")) ->
  (forall m, lookup (lit "message") props = Some (JStr m) -> m <> [] ->
     completion run
     = Throw (if names_network_failure (Error_ m) then NetworkError else Error_ m))
  /\ (lookup (lit "message") props = None
      \/ lookup (lit "message") props = Some JNull
      \/ lookup (lit "message") props = Some (JStr []) ->
      completion run = Throw (Error_ (lit "An error occurred while fetching news"))).
Proof.
  intros I C F Ok J S.
  rewrite (NewsApiFacts.search_settles _ _ _ _ _ I C), F.
  assert (R : forall v err,
            or_else (lookup (lit "message") props)
                    (JStr (lit "An error occurred while fetching news")) = v ->
            new_Error v = Return err ->
            completion (read_response P response) = Throw err).
  { intros v err Hv He. rewrite (read_response_ok P response _ Ok J).
    cbn [get property_name]. rewrite NewsApiFacts.bind_lift_return, S.
    change (strict_equals_string (Some (JStr (lit "error"))) (lit "error")) with true.
    cbv iota. rewrite NewsApiFacts.bind_lift_return, Hv, He.
    rewrite NewsApiFacts.bind_lift_return. reflexivity. }
  split.
  - intros m Hm Hne. apply settle_thrown. apply (R (JStr m)); [|reflexivity].
    rewrite Hm. unfold or_else, truthy. apply eqb_neq in Hne. rewrite Hne. reflexivity.
  - intros H.
    change (Throw (Error_ (lit "An error occurred while fetching news")))
      with (Throw (A:=value)
                  (if names_network_failure
                        (Error_ (lit "An error occurred while fetching news"))
                   then NetworkError
                   else Error_ (lit "An error occurred while fetching news"))).
    apply settle_thrown.
    apply (R (JStr (lit "An error occurred while fetching news"))); [|reflexivity].
    destruct H as [-> | [-> | ->]]; reflexivity.
Qed.

Lemma error_status_in_body_witness :
  let P := Sample.platform (Sample.responds 200 "OK" Sample.key_invalid_body) in
  completion (fetchNews P Sample.key (lit "budget"))
  = Throw (Error_ (lit "Your API key is invalid.")).
Proof.
  intros P.
  refine (proj1 (error_status_in_body P Sample.key (lit "budget") _
                   (with_key Sample.key (everything_url (lit "budget")))
                   (mkResponse 200 (lit "OK") Sample.key_invalid_body)
                   [(lit "status", JStr (lit "error"));
                    (lit "code", JStr (lit "apiKeyInvalid"));
                    (lit "message", JStr (lit "Your API key is invalid."))]
                   (or_intror (or_introl eq_refl))
                   eq_refl eq_refl eq_refl eq_refl eq_refl)
                (lit "Your API key is invalid.") eq_refl _).
  discriminate.
Defined.

(** X13. A 2xx response whose body is not JSON text fails the search with
    the parser's SyntaxError (turned into the network error when its
    message has one of the markers of the catch clause). *)
Theorem unparsable_body_is_syntax_error P API_KEY topic run request response :
  In run (searches P API_KEY topic) -> calls run = [request] ->
  fetch P request = Return response -> ok response = true ->
  Json.parse (body response) = None ->
  let error := SyntaxError (syntax_error_message P (body response)) in
  completion run
  = Throw (if names_network_failure error then NetworkError else error).
Proof.
  intros I C F Ok J error.
  rewrite (NewsApiFacts.search_settles _ _ _ _ _ I C), F.
  apply settle_thrown. unfold read_response, json. rewrite Ok, J. reflexivity.
Qed.

Lemma unparsable_body_is_syntax_error_witness :
  let P := Sample.platform (Sample.responds 200 "OK" (lit "<html></html>")) in
  completion (fetchNews P Sample.key (lit "budget"))
  = Throw (SyntaxError (lit "Unexpected token < in JSON at position 0")).
Proof.
  intros P.
  refine (unparsable_body_is_syntax_error P Sample.key (lit "budget") _
            (with_key Sample.key (everything_url (lit "budget")))
            (mkResponse 200 (lit "OK") (lit "<html></html>"))
            (or_intror (or_introl eq_refl)) eq_refl eq_refl eq_refl eq_refl).
Defined.

(** X14. A 2xx response whose body is JSON but not an object: for [null]
    the search fails with a TypeError (reading [status] of [null]); for a
    number, a string, a boolean or an array it returns the empty list, as
    if nothing had been found. *)
Theorem body_that_is_no_object P API_KEY topic run request response data :
  In run (searches P API_KEY topic) -> calls run = [request] ->
  fetch P request = Return response -> ok response = true ->
  Json.parse (body response) = Some data ->
  (data = JNull ->
   exists error, completion run = Throw error /\ name error = lit "TypeError")
  /\ ((forall props, data <> JObj props) -> data <> JNull ->
      completion run = Return (JArr [])).
Proof.
  intros I C F Ok J.
  rewrite (NewsApiFacts.search_settles _ _ _ _ _ I C), F. split.
  - intros ->. eexists. split.
    + apply settle_thrown. rewrite (read_response_ok P response _ Ok J). reflexivity.
    + reflexivity.
  - intros NO NN. apply settle_returned. rewrite (read_response_ok P response _ Ok J).
    destruct data as [|b|m e|s|l|props]; try reflexivity.
    + contradiction.
    + exfalso. apply (NO props). reflexivity.
Qed.

Lemma body_that_is_no_object_witness :
  let P := Sample.platform (Sample.responds 200 "OK" (lit "[1,2]")) in
  completion (fetchTopHeadlines P Sample.key) = Return (JArr []).
Proof.
  intros P.
  refine (proj2 (body_that_is_no_object P Sample.key [] _
                   (with_key Sample.key (top_headlines_url (lit "2025-11-05T09:30:00.000Z")))
                   (mkResponse 200 (lit "OK") (lit "[1,2]"))
                   (JArr [JNum 1 0; JNum 2 0])
                   (or_introl eq_refl) eq_refl eq_refl eq_refl eq_refl) _ _);
    intros; discriminate.
Defined.

(** Reading a 2xx response whose body is an object without error
    indicator and with a property [articles]. *)
Lemma read_response_articles P response props articles :
  ok response = true ->
  Json.parse (body response) = Some (JObj props) ->
  strict_equals_string (lookup (lit "status") props) (lit "error") = false ->
  lookup (lit "articles") props = Some articles ->
  read_response P response
  = (if negb (truthy (Some articles)) then pure (JArr [])
     else
       articles_length <- lift (get articles p_length) ;;
       if strict_equals_zero articles_length then pure (JArr [])
       else pure articles).
Proof.
  intros Ok J St A. rewrite (read_response_ok P response _ Ok J).
  cbn [get property_name]. rewrite NewsApiFacts.bind_lift_return, St.
  rewrite NewsApiFacts.bind_lift_return, A. reflexivity.
Qed.

Lemma settle_articles_object P response props fields :
  ok response = true ->
  Json.parse (body response) = Some (JObj props) ->
  strict_equals_string (lookup (lit "status") props) (lit "error") = false ->
  lookup (lit "articles") props = Some (JObj fields) ->
  lookup (lit "length") fields = None ->
  settle P (Return response) = Return (JObj fields).
Proof.
  intros Ok J St A L. apply settle_returned.
  rewrite (read_response_articles P response props _ Ok J St A).
  cbn [truthy negb get property_name]. rewrite NewsApiFacts.bind_lift_return, L.
  reflexivity.
Qed.

(** X15. What a search makes of an [articles] that is not a list, in a 2xx
    body without error indicator: [null], [false], zero and the empty
    string give the empty list; a non-empty string, [true], and an object
    without a [length] are returned as they are. *)
Theorem articles_that_are_no_list
        P API_KEY topic run request response props articles :
  In run (searches P API_KEY topic) -> calls run = [request] ->
  fetch P request = Return response -> ok response = true ->
  Json.parse (body response) = Some (JObj props) ->
  strict_equals_string (lookup (lit "status") props) (lit "error") = false ->
  lookup (lit "articles") props = Some articles ->
  (articles = JNull \/ articles = JBool false \/ articles = JStr []
   \/ (exists e, articles = JNum 0 e) ->
   completion run = Return (JArr []))
  /\ ((exists s, s <> [] /\ articles = JStr s) \/ articles = JBool true
      \/ (exists fields, lookup (lit "length") fields = None /\ articles = JObj fields) ->
      completion run = Return articles).
Proof.
  intros I C F Ok J St A.
  rewrite (NewsApiFacts.search_settles _ _ _ _ _ I C), F.
  pose proof (read_response_articles P response props articles Ok J St A) as R.
  split.
  - intros H. apply settle_returned. rewrite R.
    destruct H as [-> | [-> | [-> | [e ->]]]]; reflexivity.
  - intros H. apply settle_returned. rewrite R.
    destruct H as [(s & Hs & ->) | [-> | (fields & L & ->)]].
    + cbn [truthy]. apply eqb_neq in Hs. rewrite Hs. cbn [negb get].
      rewrite NewsApiFacts.bind_lift_return.
      destruct s; [discriminate Hs|]. cbn [length_of List.length strict_equals_zero].
      replace (Z.of_nat (S (List.length s)) =? 0) with false
        by (symmetry; apply Z.eqb_neq; lia).
      reflexivity.
    + reflexivity.
    + cbn [truthy negb get property_name]. rewrite NewsApiFacts.bind_lift_return, L.
      reflexivity.
Qed.

Lemma articles_that_are_no_list_witness :
  let data := Sample.object [("status", Sample.text "ok");
                             ("articles", Sample.object [("0", Sample.article_value)])]%string in
  let P := Sample.platform (Sample.responds 200 "OK" (Json.stringify data)) in
  completion (fetchNews P Sample.key (lit "budget"))
  = Return (Sample.object [("0", Sample.article_value)]%string).
Proof.
  intros data P.
  refine (proj2 (articles_that_are_no_list P Sample.key (lit "budget") _
                   (with_key Sample.key (everything_url (lit "budget")))
                   (mkResponse 200 (lit "OK") (Json.stringify data))
                   [(lit "status", JStr (lit "ok"));
                    (lit "articles", Sample.object [("0", Sample.article_value)]%string)]
                   (Sample.object [("0", Sample.article_value)]%string)
                   (or_intror (or_introl eq_refl))
                   eq_refl eq_refl eq_refl eq_refl eq_refl eq_refl) _).
  right. right. eexists. split; [|reflexivity]. reflexivity.
Defined.

End ClientFacts.

(* ================================================================== *)
(** * Facts: the proxied client *)
(* ================================================================== *)

Module ProxiedClientFacts.
Import NewsApi RunNotations.

Lemma plain_no_separators s :
  forallb (fun c => is_alpha c || is_digit c) s = true ->
  forallb (fun c => negb (c =? 38)) s = true
  /\ forallb (fun c => negb (c =? 61)) s = true
  /\ forallb (fun c => negb (c =? 63)) s = true.
Proof.
  intros H. repeat split; rewrite forallb_forall in *; intros c Hc; specialize (H c Hc);
    apply negb_true_iff, Z.eqb_neq; intros ->; discriminate H.
Qed.

Lemma proxied_everything_parts KEY q :
  forallb Uri.uri_char q = true ->
  let u := ProxiedNewsApi.everything_url false KEY q in
  Url.path_of u = lit "/api/news"
  /\ Url.raw_params (Url.query_of u)
     = [(lit "endpoint", lit "everything"); (lit "q", q);
        (lit "pageSize", lit "10"); (lit "sortBy", lit "publishedAt");
        (lit "language", lit "en")].
Proof.
  intros Hq u. pose proof (UrlFacts.uri_char_no_separator q Hq) as Hamp.
  assert (Hu : u = lit "/api/news"
                   ++ 63 :: lit "endpoint=everything"
                   ++ 38 :: (113 :: 61 :: q)
                   ++ 38 :: lit "pageSize=10&sortBy=publishedAt&language=en")
    by reflexivity.
  rewrite Hu. unfold Url.path_of, Url.query_of, Url.raw_params.
  rewrite UrlFacts.cut_at_app by reflexivity. split; [reflexivity|]. cbn [snd].
  rewrite UrlFacts.split_on_app by reflexivity.
  rewrite UrlFacts.split_on_app by (cbn [forallb]; rewrite Hamp; reflexivity).
  replace (Url.split_on 38 (lit "pageSize=10&sortBy=publishedAt&language=en"))
    with [lit "pageSize=10"; lit "sortBy=publishedAt"; lit "language=en"]
    by reflexivity.
  reflexivity.
Qed.

(** X16. In production the proxied client sends the credential nowhere:
    its runs do not depend on [VITE_NEWS_API_KEY], and a request it makes
    has no header and goes to the same-origin path [/api/news]. *)
Theorem proxied_client_sends_no_credential P KEY topic :
  forallb is_code_unit topic = true ->
  ProxiedNewsApi.fetchNews P false KEY topic = ProxiedNewsApi.fetchNews P false None topic
  /\ ProxiedNewsApi.fetchTopHeadlines P false KEY
     = ProxiedNewsApi.fetchTopHeadlines P false None
  /\ (forall request,
        In request (calls (ProxiedNewsApi.fetchNews P false KEY topic)
                    ++ calls (ProxiedNewsApi.fetchTopHeadlines P false KEY)) ->
        headers request = [] /\ Url.path_of (url request) = lit "/api/news").
Proof.
  intros U. split; [reflexivity|]. split; [reflexivity|].
  intros request Hin. apply in_app_or in Hin. destruct Hin as [Hin|Hin].
  - destruct (JsString.eqb topic [] || JsString.eqb (trim topic) []) eqn:B.
    { unfold ProxiedNewsApi.fetchNews in Hin. rewrite B in Hin. destruct Hin. }
    destruct (Uri.encode topic) as [q|] eqn:E.
    + apply orb_false_iff in B. destruct B as [_ B]. apply eqb_neq in B.
      rewrite (StrategyFacts.proxied_fetchNews_run P KEY topic q B E) in Hin.
      destruct Hin as [<-|[]]. split; [reflexivity|]. cbn [url].
      apply proxied_everything_parts.
      apply (UriFacts.encode_uri_chars topic); [exact U|exact E].
    + unfold ProxiedNewsApi.fetchNews in Hin. rewrite B in Hin.
      unfold Uri.encodeURIComponent in Hin. rewrite E in Hin. destruct Hin.
  - rewrite (StrategyFacts.proxied_fetchTopHeadlines_run P KEY) in Hin.
    destruct Hin as [<-|[]]. split; reflexivity.
Qed.

Lemma proxied_client_sends_no_credential_witness :
  let P := Sample.platform (Sample.responds 200 "OK" (lit "{}")) in
  let request := mkRequest (lit "/api/news?endpoint=top-headlines&country=us&pageSize=10") [] in
  ProxiedNewsApi.fetchNews P false Sample.key (lit "a?b")
  = ProxiedNewsApi.fetchNews P false None (lit "a?b")
  /\ headers request = []
  /\ Url.path_of (url request) = lit "/api/news".
Proof.
  intros P request.
  destruct (proxied_client_sends_no_credential P Sample.key (lit "a?b") eq_refl)
    as (E & _ & H).
  split; [exact E|]. apply H. right. left. reflexivity.
Defined.

(** X17. The request of the proxied [fetchNews], in production: for a non-
    blank well-formed topic it is one request to [/api/news] whose query
    names the endpoint "everything" first and then has the parameters of
    the direct client, [q] decoding to the topic. *)
Theorem proxied_fetchNews_names_endpoint P KEY topic :
  trim topic <> [] -> isWellFormed topic = true ->
  exists q,
    calls (ProxiedNewsApi.fetchNews P false KEY topic)
    = [mkRequest (ProxiedNewsApi.everything_url false KEY q) []]
    /\ Url.path_of (ProxiedNewsApi.everything_url false KEY q) = lit "/api/news"
    /\ Url.raw_params (Url.query_of (ProxiedNewsApi.everything_url false KEY q))
       = [(lit "endpoint", lit "everything"); (lit "q", q);
          (lit "pageSize", lit "10"); (lit "sortBy", lit "publishedAt");
          (lit "language", lit "en")]
    /\ Uri.decodeURIComponent q = Return topic.
Proof.
  intros B WF.
  destruct (UriFacts.encode_decode topic WF) as (q & ts & E & U & D).
  exists q. rewrite (StrategyFacts.proxied_fetchNews_run P KEY topic q B E).
  split; [reflexivity|].
  assert (Hq : forallb Uri.uri_char q = true).
  { apply (UriFacts.encode_uri_chars topic); [|exact E].
    apply UriFacts.isWellFormed_code_units. exact WF. }
  destruct (proxied_everything_parts KEY q Hq) as [Hp Hr].
  repeat split; try assumption.
  unfold Uri.decodeURIComponent, Uri.decode. rewrite U, D. reflexivity.
Qed.

Lemma proxied_fetchNews_names_endpoint_witness :
  let P := Sample.platform (Sample.responds 200 "OK" (lit "{}")) in
  exists q,
    calls (ProxiedNewsApi.fetchNews P false None (lit "climate & energy"))
    = [mkRequest (ProxiedNewsApi.everything_url false None q) []]
    /\ Url.path_of (ProxiedNewsApi.everything_url false None q) = lit "/api/news"
    /\ Url.raw_params (Url.query_of (ProxiedNewsApi.everything_url false None q))
       = [(lit "endpoint", lit "everything"); (lit "q", q);
          (lit "pageSize", lit "10"); (lit "sortBy", lit "publishedAt");
          (lit "language", lit "en")]
    /\ Uri.decodeURIComponent q = Return (lit "climate & energy").
Proof.
  intros P. apply proxied_fetchNews_names_endpoint.
  - discriminate.
  - reflexivity.
Defined.

(** X18. The proxied [fetchNews] refuses a blank topic before any call, in
    both modes and whether or not a credential is configured: it has no
    check of the credential. *)
Theorem proxied_fetchNews_refuses_blank_topic P isDev KEY topic :
  trim topic = [] ->
  calls (ProxiedNewsApi.fetchNews P isDev KEY topic) = []
  /\ completion (ProxiedNewsApi.fetchNews P isDev KEY topic) = Throw ValidationError.
Proof.
  intros H. unfold ProxiedNewsApi.fetchNews. rewrite H. cbn [JsString.eqb].
  rewrite orb_true_r. split; reflexivity.
Qed.

Lemma proxied_fetchNews_refuses_blank_topic_witness :
  let P := Sample.platform (Sample.responds 200 "OK" (lit "{}")) in
  calls (ProxiedNewsApi.fetchNews P false None (lit "  ")) = []
  /\ completion (ProxiedNewsApi.fetchNews P false None (lit "  ")) = Throw ValidationError.
Proof.
  intros P. apply (proxied_fetchNews_refuses_blank_topic P false None (lit "  ")).
  reflexivity.
Defined.

(** X19. In development mode the proxied [fetchTopHeadlines] calls the
    upstream itself and puts the credential in the URL: the query ends
    with the parameter [apiKey], whose value is the key, or the text
    [undefined] when none is configured; no header is sent. *)
Theorem proxied_dev_puts_key_in_url P KEY :
  forallb (fun c => is_alpha c || is_digit c) (key_of KEY) = true ->
  let u := ProxiedNewsApi.top_headlines_url true KEY in
  calls (ProxiedNewsApi.fetchTopHeadlines P true KEY) = [mkRequest u []]
  /\ Url.path_of u = lit "https://newsapi.org/v2/top-headlines"
  /\ Url.raw_params (Url.query_of u)
     = [(lit "country", lit "us"); (lit "pageSize", lit "10");
        (lit "apiKey", key_of KEY)].
Proof.
  intros H u. destruct (plain_no_separators _ H) as (Hamp & Heq & _).
  split.
  { unfold ProxiedNewsApi.fetchTopHeadlines. cbv zeta.
    unfold ProxiedNewsApi.await_fetch_url.
    rewrite NewsApiFacts.run_after_fetch. reflexivity. }
  assert (Hu : u = lit "https://newsapi.org/v2/top-headlines"
                   ++ 63 :: lit "country=us"
                   ++ 38 :: lit "pageSize=10"
                   ++ 38 :: (lit "apiKey=" ++ key_of KEY))
    by reflexivity.
  rewrite Hu. unfold Url.path_of, Url.query_of, Url.raw_params.
  rewrite UrlFacts.cut_at_app by reflexivity. split; [reflexivity|]. cbn [snd].
  rewrite !UrlFacts.split_on_app by reflexivity.
  rewrite NewsApiFacts.split_on_plain
    by (rewrite forallb_app, Hamp; reflexivity).
  cbn [filter JsString.eqb negb map lit].
  repeat (f_equal; try reflexivity).
Qed.

Lemma proxied_dev_puts_key_in_url_witness :
  let P := Sample.platform (Sample.responds 200 "OK" (lit "{}")) in
  let u := ProxiedNewsApi.top_headlines_url true None in
  calls (ProxiedNewsApi.fetchTopHeadlines P true None) = [mkRequest u []]
  /\ Url.path_of u = lit "https://newsapi.org/v2/top-headlines"
  /\ Url.raw_params (Url.query_of u)
     = [(lit "country", lit "us"); (lit "pageSize", lit "10");
        (lit "apiKey", lit "undefined")].
Proof.
  intros P. apply (proxied_dev_puts_key_in_url P None). reflexivity.
Defined.

End ProxiedClientFacts.

(* ================================================================== *)
(** * Facts: [trim] *)
(* ================================================================== *)

Module TrimFacts.

Lemma trimStart_head s c r : trimStart s = c :: r -> is_white_space c = false.
Proof.
  induction s as [|x s IH]; cbn [trimStart]; [discriminate|].
  destruct (is_white_space x) eqn:W; [exact IH|].
  intros [= <- <-]. exact W.
Qed.

Lemma trimStart_kept c r : is_white_space c = false -> trimStart (c :: r) = c :: r.
Proof. intros W. cbn [trimStart]. rewrite W. reflexivity. Qed.

Lemma trimStart_idempotent s : trimStart (trimStart s) = trimStart s.
Proof.
  destruct (trimStart s) as [|c r] eqn:E; [reflexivity|].
  apply trimStart_kept, (trimStart_head s c r E).
Qed.

Lemma trimStart_snoc l c :
  is_white_space c = false -> trimStart (l ++ [c]) = trimStart l ++ [c].
Proof.
  intros W. induction l as [|x l IH]; cbn [app trimStart].
  - rewrite W. reflexivity.
  - destruct (is_white_space x); [exact IH|reflexivity].
Qed.

Lemma trimEnd_cons c r : is_white_space c = false -> trimEnd (c :: r) = c :: trimEnd r.
Proof.
  intros W. unfold trimEnd. cbn [rev]. rewrite trimStart_snoc by exact W.
  rewrite rev_app_distr. reflexivity.
Qed.

Lemma trimEnd_idempotent s : trimEnd (trimEnd s) = trimEnd s.
Proof. unfold trimEnd. rewrite rev_involutive, trimStart_idempotent. reflexivity. Qed.

(** Trimming a trimmed string changes nothing. *)
Lemma trim_idempotent s : trim (trim s) = trim s.
Proof.
  unfold trim. destruct (trimStart s) as [|c r] eqn:E; [reflexivity|].
  pose proof (trimStart_head s c r E) as W.
  rewrite (trimEnd_cons c r W), (trimStart_kept c _ W).
  rewrite <- (trimEnd_cons c r W). apply trimEnd_idempotent.
Qed.

Lemma white_space_scalar c :
  is_white_space c = true ->
  is_code_unit c = true /\ is_high_surrogate c = false /\ is_low_surrogate c = false.
Proof.
  unfold is_white_space, is_code_unit, is_high_surrogate, is_low_surrogate. intros H.
  repeat (apply orb_true_iff in H; destruct H as [H|H]); bool_to_prop;
    subst; repeat split; try reflexivity;
    try (apply andb_true_iff; split; apply Z.leb_le; lia);
    try (apply andb_false_iff; left; apply Z.leb_gt; lia).
Qed.

Lemma trimStart_suffix s : exists w, s = w ++ trimStart s /\ forallb is_white_space w = true.
Proof.
  induction s as [|c s (w & E & W)]; [exists []; split; reflexivity|].
  cbn [trimStart]. destruct (is_white_space c) eqn:Wc.
  - exists (c :: w). cbn [app forallb]. rewrite Wc, W, <- E. split; reflexivity.
  - exists []. split; reflexivity.
Qed.

Lemma trimEnd_prefix s : exists w, s = trimEnd s ++ w /\ forallb is_white_space w = true.
Proof.
  destruct (trimStart_suffix (rev s)) as (w & E & W).
  exists (rev w). unfold trimEnd. split.
  - rewrite <- rev_app_distr, <- E, rev_involutive. reflexivity.
  - rewrite forallb_forall in *. intros c Hc. apply W, in_rev, Hc.
Qed.

Lemma isWellFormed_trimStart s : isWellFormed s = true -> isWellFormed (trimStart s) = true.
Proof.
  induction s as [|c s IH]; [reflexivity|]. intros WF. cbn [trimStart].
  destruct (is_white_space c) eqn:W; [|exact WF].
  destruct (white_space_scalar c W) as (U & H & L).
  rewrite (FormFacts.isWellFormed_scalar c s U H L) in WF. apply IH, WF.
Qed.

Lemma isWellFormed_before_white_space p w :
  forallb is_white_space w = true ->
  isWellFormed (p ++ w) = true -> isWellFormed p = true.
Proof.
  intros W. induction p as [p IH] using strong_list_ind. intros WF.
  destruct p as [|c p']; [reflexivity|].
  cbn [app isWellFormed] in *.
  destruct (negb (is_code_unit c)); [discriminate|].
  destruct (is_high_surrogate c).
  - destruct p' as [|d p''].
    + destruct w as [|d w']; [discriminate|]. cbn [app] in WF.
      cbn [forallb] in W. apply andb_true_iff in W. destruct W as [Wd _].
      destruct (white_space_scalar d Wd) as (_ & _ & L). rewrite L in WF.
      discriminate.
    + cbn [app] in WF. apply andb_true_iff in WF. destruct WF as [L WF].
      rewrite L. apply IH; [cbn; lia|exact WF].
  - destruct (is_low_surrogate c); [discriminate|].
    apply IH; [cbn; lia|exact WF].
Qed.

Lemma isWellFormed_trimEnd s : isWellFormed s = true -> isWellFormed (trimEnd s) = true.
Proof.
  intros WF. destruct (trimEnd_prefix s) as (w & E & W).
  apply (isWellFormed_before_white_space _ w W). rewrite <- E. exact WF.
Qed.

(** Trimming keeps a string well formed: the white space it removes is
    not half of a surrogate pair. *)
Lemma isWellFormed_trim s : isWellFormed s = true -> isWellFormed (trim s) = true.
Proof. intros WF. apply isWellFormed_trimEnd, isWellFormed_trimStart, WF. Qed.

End TrimFacts.

(* ================================================================== *)
(** * Facts: the search bar *)
(* ================================================================== *)

Module SearchBarFacts.
Import Expression SearchBar.

(** X20. Whatever is typed, a topic the search bar passes to [onSearch],
    on submit or on the Enter key, is the trimmed input, is not empty and
    has no white space left to trim; a blank input calls nothing, and the
    "Show" button is enabled exactly when a submit would search, the "I'm
    Feeling Lucky" button exactly when it would not. *)
Theorem search_bar_passes_trimmed_topic key inputValue :
  (forall call, In call (handleSubmit inputValue ++ handleKeyPress key inputValue) ->
     call = onSearch (trim inputValue)
     /\ trim inputValue <> []
     /\ trim (trim inputValue) = trim inputValue)
  /\ (trim inputValue = [] ->
      handleSubmit inputValue = [] /\ handleKeyPress key inputValue = [])
  /\ (show_disabled inputValue = false <-> handleSubmit inputValue <> [])
  /\ lucky_disabled inputValue = negb (show_disabled inputValue).
Proof.
  unfold handleSubmit, handleKeyPress, show_disabled, lucky_disabled, truthy_string.
  destruct (JsString.eqb (trim inputValue) []) eqn:E; cbn [negb].
  - rewrite andb_false_r. apply eqb_eq in E.
    refine (conj _ (conj _ (conj _ eq_refl))).
    + intros call [].
    + intros _. split; reflexivity.
    + split; [discriminate|]. intros H. contradiction.
  - apply eqb_neq in E.
    refine (conj _ (conj _ (conj _ eq_refl))).
    + intros call Hin.
      assert (C : call = onSearch (trim inputValue)).
      { destruct (JsString.eqb key (lit "Enter")); cbn [andb app] in Hin.
        - destruct Hin as [<-|[<-|[]]]; reflexivity.
        - destruct Hin as [<-|[]]; reflexivity. }
      split; [exact C|]. split; [exact E|]. apply TrimFacts.trim_idempotent.
    + intros H. contradiction.
    + split; [discriminate|reflexivity].
Qed.

Lemma search_bar_passes_trimmed_topic_witness :
  (show_disabled (lit "  solar power ") = false
   <-> handleSubmit (lit "  solar power ") <> [])
  /\ lucky_disabled (lit "  solar power ") = negb (show_disabled (lit "  solar power ")).
Proof.
  exact (proj2 (proj2 (search_bar_passes_trimmed_topic (lit "Enter")
                                                       (lit "  solar power ")))).
Defined.

End SearchBarFacts.

(* ================================================================== *)
(** * Facts: one article *)
(* ================================================================== *)

Module NewsItemFacts.
Import Expression NewsItem.

(** X22. An article without a [source] (or whose [source] is [null])
    cannot be shown: the component throws a TypeError, whatever its other
    fields; so it does for an article that is [null]. *)
Theorem news_item_needs_source L article :
  article = JNull
  \/ (exists props, article = JObj props
                    /\ (lookup (lit "source") props = None
                        \/ lookup (lit "source") props = Some JNull)) ->
  exists error, NewsItem L article = Throw error /\ name error = lit "TypeError".
Proof.
  intros [->|(props & -> & S)].
  - eexists. split; reflexivity.
  - unfold NewsItem. cbn [member and_then].
    destruct (template (lookup (lit "title") props)) as [label|e] eqn:T.
    + cbn [and_then]. destruct S as [-> | ->]; eexists; split; reflexivity.
    + unfold template in T. destruct (lookup (lit "title") props) as [t|]; [|discriminate].
      destruct (to_string t); [discriminate|]. injection T as <-.
      eexists. split; reflexivity.
Qed.

Lemma news_item_needs_source_witness :
  let article := Sample.object [("title", Sample.text "Headline");
                                ("url", Sample.text "https://example.com/a")]%string in
  exists error,
    NewsItem (mkLocale (fun _ => lit "Nov 5, 2025")) article = Throw error
    /\ name error = lit "TypeError".
Proof.
  intros article. apply news_item_needs_source.
  right. eexists. split; [reflexivity|]. left. reflexivity.
Defined.



End NewsItemFacts.

(* ================================================================== *)
(** * Facts: the list and the application state *)
(* ================================================================== *)

Module NewsListFacts.
Import Expression NewsList.

Lemma items_from_objects index l :
  Forall (fun article =>
            exists props, article = JObj props
                          /\ (lookup (lit "url") props = None
                              \/ exists u, lookup (lit "url") props = Some (JStr u))) l ->
  exists items, items_from index l = Return items /\ map snd items = l.
Proof.
  intros H. revert index.
  induction H as [|article l (props & -> & U) _ IH]; intros index.
  - exists []. split; reflexivity.
  - destruct (IH (index + 1)) as (items & E & M).
    cbn [items_from member and_then].
    assert (T : exists text, template (lookup (lit "url") props) = Return text).
    { destruct U as [-> | [u ->]]; eexists; reflexivity. }
    destruct T as [text ->]. cbn [and_then]. rewrite E. cbn [and_then].
    eexists. split; [reflexivity|]. cbn [map snd]. rewrite M. reflexivity.
Qed.

(** X24. With nothing loading and no error, a non-empty list of articles
    (objects whose [url] is a string or absent) is shown whole: one item
    per article, in the order of the list, under the count of the
    articles, followed by "article" for one and "articles" for more. *)
Theorem news_list_shows_every_article l error :
  l <> [] -> truthy_string error = false ->
  Forall (fun article =>
            exists props, article = JObj props
                          /\ (lookup (lit "url") props = None
                              \/ exists u, lookup (lit "url") props = Some (JStr u))) l ->
  exists items,
    NewsList (JArr l) false error
    = Return (Results (Some (JNum (Z.of_nat (List.length l)) 0))
                      (if (List.length l =? 1)%nat then lit "article" else lit "articles")
                      items)
    /\ map snd items = l.
Proof.
  intros N E H. destruct (items_from_objects 0 l H) as (items & I & M).
  exists items. split; [|exact M].
  unfold NewsList. rewrite E. cbn [get and_then length_of strict_equals_zero].
  destruct l as [|a l']; [contradiction|].
  replace (Z.of_nat (List.length (a :: l')) =? 0) with false
    by (symmetry; apply Z.eqb_neq; cbn [List.length]; lia).
  rewrite I. cbn [and_then]. unfold strict_equals_one.
  unfold length_of. change (0 =? 0) with true. rewrite andb_true_r.
  replace (Z.of_nat (List.length (a :: l')) =? 1)
    with (List.length (a :: l') =? 1)%nat; [reflexivity|].
  destruct (Nat.eqb_spec (List.length (a :: l')) 1) as [->|Hn]; [reflexivity|].
  symmetry. apply Z.eqb_neq. lia.
Qed.

Lemma news_list_shows_every_article_witness :
  exists items,
    NewsList (JArr [Sample.article_value; Sample.article_value]) false None
    = Return (Results (Some (JNum 2 0)) (lit "articles") items)
    /\ map snd items = [Sample.article_value; Sample.article_value].
Proof.
  apply (news_list_shows_every_article [Sample.article_value; Sample.article_value] None).
  - discriminate.
  - reflexivity.
  - repeat constructor; eexists; (split; [reflexivity|]); right; eexists; reflexivity.
Defined.

End NewsListFacts.

Module AppFacts.
Import Expression App.

Lemma on_awaited P API_KEY call : on P API_KEY call = handle (awaited P API_KEY call).
Proof. destruct call; reflexivity. Qed.

(** A handler run without interruption leaves a state that its outcome
    alone decides. *)
Lemma complete_handle run st :
  complete (handle run) st
  = match completion run with
    | Return results => mkState results false None true
    | Throw err => mkState (JArr []) false (Some (message err)) true
    end.
Proof. unfold complete, handle. cbn [suspend resume]. destruct (completion run); reflexivity. Qed.

Lemma suspend_handle run st :
  suspend (handle run) st = mkState (articles st) true None true.
Proof. reflexivity. Qed.

(** X25. What is on the screen during and after a search. While the call
    is awaited the screen shows the loading state. After a failure it
    shows the message of the error -- unless the message is empty, when it
    says that no articles were found; after an empty result it says the
    same. *)
Theorem screen_after_search P API_KEY call st :
  let h := on P API_KEY call in
  render (suspend h st) = Return (Listing NewsList.Loading)
  /\ (forall err, completion (awaited P API_KEY call) = Throw err ->
      render (complete h st)
      = Return (Listing (if JsString.eqb (message err) [] then NewsList.NoResults
                         else NewsList.ErrorMessage (message err))))
  /\ (completion (awaited P API_KEY call) = Return (JArr []) ->
      render (complete h st) = Return (Listing NewsList.NoResults)).
Proof.
  intros h. subst h. rewrite on_awaited. split; [reflexivity|]. split.
  - intros err E. rewrite complete_handle, E. unfold render. cbn [hasSearched articles loading error].
    unfold NewsList.NewsList, truthy_string.
    destruct (JsString.eqb (message err) []); reflexivity.
  - intros E. rewrite complete_handle, E. reflexivity.
Qed.

Lemma screen_after_search_witness :
  let P := Sample.platform (Throw (TypeError (lit "Failed to fetch"))) in
  render (complete (on P Sample.key (SearchBar.onSearch (lit "budget"))) initial)
  = Return (Listing (NewsList.ErrorMessage
                       (lit "Network error. Please check your internet connection"))).
Proof.
  intros P.
  apply (proj1 (proj2 (screen_after_search P Sample.key
                         (SearchBar.onSearch (lit "budget")) initial))
           NewsApi.NetworkError).
  reflexivity.
Defined.

(** X26. Searches made in turn, each finished before the next starts,
    leave the state of the last one alone: nothing is loading, a search
    has been made, an error comes with an empty list, and the state is
    what the last search would have left starting from the initial state. *)
Theorem searches_in_turn_leave_last P API_KEY calls call st :
  let st' := in_turn (map (on P API_KEY) (calls ++ [call])) st in
  loading st' = false
  /\ hasSearched st' = true
  /\ (error st' = None \/ articles st' = JArr [])
  /\ st' = complete (on P API_KEY call) initial.
Proof.
  intros st'. subst st'. unfold in_turn. rewrite map_app, fold_left_app.
  cbn [map fold_left]. set (before := fold_left _ _ st). clearbody before.
  rewrite on_awaited, !complete_handle.
  destruct (completion (awaited P API_KEY call)); cbn [loading hasSearched error articles];
    repeat split; auto.
Qed.

(** X27. The loading flag does not wait for every call: of two searches
    that overlap, the first to finish clears it, and the screen stops
    showing the loading state while the other call is still awaited. *)
Theorem loading_ends_with_first_to_finish P API_KEY first second st :
  let h1 := on P API_KEY first in
  let h2 := on P API_KEY second in
  let st1 := resume h1 (suspend h2 (suspend h1 st)) in
  let st2 := resume h2 (suspend h2 (suspend h1 st)) in
  loading st1 = false /\ loading st2 = false
  /\ render st1 <> Return (Listing NewsList.Loading)
  /\ render st2 <> Return (Listing NewsList.Loading).
Proof.
  intros h1 h2 st1 st2. subst h1 h2 st1 st2. rewrite !on_awaited.
  unfold handle. cbn [suspend resume].
  assert (R : forall s, loading s = false -> hasSearched s = true ->
              render s <> Return (Listing NewsList.Loading)).
  { intros s L H. unfold render, NewsList.NewsList. rewrite H, L.
    destruct (truthy_string (error s)); [discriminate|].
    destruct (get (articles s) p_length) as [len|e]; [|discriminate]. cbn [and_then].
    destruct (strict_equals_zero len); [discriminate|].
    destruct (articles s); try discriminate.
    destruct (NewsList.items_from 0 l); discriminate. }
  split; [reflexivity|]. split; [reflexivity|].
  split; apply R;
    destruct (completion (awaited P API_KEY first));
    destruct (completion (awaited P API_KEY second)); reflexivity.
Qed.

(** X28. Of two overlapping searches the error of one outlives the success
    of the other: when the first fails and then the second succeeds, the
    state holds the articles of the second and still the error of the
    first, and the screen shows the error. *)
Theorem earlier_error_hides_later_results P API_KEY first second st err results :
  completion (awaited P API_KEY first) = Throw err ->
  completion (awaited P API_KEY second) = Return results ->
  message err <> [] ->
  let h1 := on P API_KEY first in
  let h2 := on P API_KEY second in
  let st' := resume h2 (resume h1 (suspend h2 (suspend h1 st))) in
  st' = mkState results false (Some (message err)) true
  /\ render st' = Return (Listing (NewsList.ErrorMessage (message err))).
Proof.
  intros E1 E2 M h1 h2 st'. subst h1 h2 st'. rewrite !on_awaited.
  unfold handle. cbn [suspend resume]. rewrite E1, E2.
  split; [reflexivity|].
  unfold render. cbn [hasSearched articles loading error setLoading setArticles setError
                      setHasSearched].
  unfold NewsList.NewsList, truthy_string. apply eqb_neq in M. rewrite M. reflexivity.
Qed.

(** X29. Of two overlapping searches the one that finishes last decides
    the list, not the one that was started last: when the second finishes
    first and both succeed, the articles shown are those of the first. *)
Theorem last_to_finish_decides_articles P API_KEY first second st results1 results2 :
  completion (awaited P API_KEY first) = Return results1 ->
  completion (awaited P API_KEY second) = Return results2 ->
  let h1 := on P API_KEY first in
  let h2 := on P API_KEY second in
  resume h1 (resume h2 (suspend h2 (suspend h1 st)))
  = mkState results1 false None true.
Proof.
  intros E1 E2 h1 h2. subst h1 h2. rewrite !on_awaited.
  unfold handle. cbn [suspend resume]. rewrite E1, E2. reflexivity.
Qed.


Lemma earlier_error_hides_later_results_witness :
  let first := SearchBar.onSearch (lit "down") in
  let second := SearchBar.onLucky in
  let h1 := on Scenario.platform Sample.key first in
  let h2 := on Scenario.platform Sample.key second in
  let st' := resume h2 (resume h1 (suspend h2 (suspend h1 initial))) in
  st' = mkState (JArr [Sample.article_value]) false (Some (lit "Load failed")) true
  /\ render st' = Return (Listing (NewsList.ErrorMessage (lit "Load failed"))).
Proof.
  intros first second.
  apply (earlier_error_hides_later_results Scenario.platform Sample.key first second
           initial (TypeError (lit "Load failed")) (JArr [Sample.article_value])).
  - reflexivity.
  - reflexivity.
  - discriminate.
Defined.

Lemma last_to_finish_decides_articles_witness :
  let first := SearchBar.onLucky in
  let second := SearchBar.onSearch (lit "budget") in
  let h1 := on Scenario.platform Sample.key first in
  let h2 := on Scenario.platform Sample.key second in
  resume h1 (resume h2 (suspend h2 (suspend h1 initial)))
  = mkState (JArr [Sample.article_value]) false None true.
Proof.
  intros first second.
  apply (last_to_finish_decides_articles Scenario.platform Sample.key first second
           initial (JArr [Sample.article_value]) (JArr [Sample.article_value]));
    reflexivity.
Defined.

Lemma awaited_search P API_KEY call :
  exists topic, In (awaited P API_KEY call) (NewsApi.searches P API_KEY topic).
Proof.
  destruct call as [topic|].
  - exists topic. right. left. reflexivity.
  - exists []. left. reflexivity.
Qed.

(** X21. A search submitted from the search bar always gets past the check
    of the topic: with the credential configured and a well-formed input
    that is not blank, the handler makes one call of the upstream, whose
    [q] decodes to the trimmed input. *)
Theorem submitted_search_reaches_upstream P API_KEY inputValue call :
  In call (SearchBar.handleSubmit inputValue) ->
  NewsApi.missing API_KEY = false -> isWellFormed inputValue = true ->
  exists q,
    requests (on P API_KEY call) = [NewsApi.with_key API_KEY (NewsApi.everything_url q)]
    /\ Uri.decodeURIComponent q = Return (trim inputValue).
Proof.
  intros Hin K WF. unfold SearchBar.handleSubmit, truthy_string in Hin.
  destruct (JsString.eqb (trim inputValue) []) eqn:B; cbn [negb] in Hin; [destruct Hin|].
  destruct Hin as [<-|[]]. apply eqb_neq in B.
  pose proof (TrimFacts.isWellFormed_trim inputValue WF) as WT.
  destruct (UriFacts.encode_decode (trim inputValue) WT) as (q & ts & E & U & D).
  exists q. cbn [on]. unfold handleSearch, handle. cbn [requests].
  rewrite (NewsApiFacts.fetchNews_run P API_KEY (trim inputValue) q K);
    [|rewrite TrimFacts.trim_idempotent; exact B|exact E].
  split; [reflexivity|].
  unfold Uri.decodeURIComponent, Uri.decode. rewrite U, D. reflexivity.
Qed.

Lemma submitted_search_reaches_upstream_witness :
  exists q,
    requests (on Scenario.platform Sample.key (SearchBar.onSearch (lit "solar power")))
    = [NewsApi.with_key Sample.key (NewsApi.everything_url q)]
    /\ Uri.decodeURIComponent q = Return (lit "solar power").
Proof.
  apply (submitted_search_reaches_upstream Scenario.platform Sample.key
           (lit "  solar power ") (SearchBar.onSearch (lit "solar power"))).
  - left. reflexivity.
  - reflexivity.
  - reflexivity.
Defined.

(** X30. An upstream body whose [articles] is an object and not a list
    (with no [length]) is not refused by the search, and the list
    component then throws: the screen cannot be rendered. *)
Theorem list_throws_on_articles_object
        P API_KEY call st request response props fields :
  calls (awaited P API_KEY call) = [request] ->
  fetch P request = Return response -> ok response = true ->
  Json.parse (body response) = Some (JObj props) ->
  strict_equals_string (lookup (lit "status") props) (lit "error") = false ->
  lookup (lit "articles") props = Some (JObj fields) ->
  lookup (lit "length") fields = None ->
  completion (awaited P API_KEY call) = Return (JObj fields)
  /\ render (complete (on P API_KEY call) st)
     = Throw (TypeError (lit "articles.map is not a function")).
Proof.
  intros C F Ok J St A L.
  destruct (awaited_search P API_KEY call) as [topic I].
  assert (R : completion (awaited P API_KEY call) = Return (JObj fields)).
  { rewrite (NewsApiFacts.search_settles _ _ _ _ _ I C), F.
    apply (ClientFacts.settle_articles_object P response props fields Ok J St A L). }
  split; [exact R|].
  rewrite on_awaited, complete_handle, R. unfold render.
  cbn [hasSearched articles loading error]. unfold NewsList.NewsList.
  cbn [truthy_string get property_name and_then]. rewrite L. reflexivity.
Qed.

Lemma list_throws_on_articles_object_witness :
  let P := Sample.platform
             (Sample.responds 200 "OK" (Json.stringify Scenario.articles_object_data)) in
  render (complete (on P Sample.key SearchBar.onLucky) initial)
  = Throw (TypeError (lit "articles.map is not a function")).
Proof.
  intros P.
  refine (proj2 (list_throws_on_articles_object P Sample.key SearchBar.onLucky initial
                   (NewsApi.with_key Sample.key
                      (NewsApi.top_headlines_url (lit "2025-11-05T09:30:00.000Z")))
                   (mkResponse 200 (lit "OK") (Json.stringify Scenario.articles_object_data))
                   [(lit "status", JStr (lit "ok"));
                    (lit "articles", Scenario.articles_object)]
                   [(lit "0", Sample.article_value)]
                   eq_refl eq_refl eq_refl eq_refl eq_refl eq_refl eq_refl)).
Defined.

End AppFacts.
